(** * ZFS storage driver of LXD ([lxd/storage_zfs.go]): a shallow embedding

    The driver talks to the outside world only through sub-processes
    ([zfs], [zpool]), a few file-system calls and the instance objects
    handed in by the manager.  Every such interaction is modelled as a
    command answered by an oracle; a driver operation is a function that,
    given the oracle and the history so far, yields an outcome and the
    list of events it emitted.  Theorems quantify over all oracles. *)

From Stdlib Require Import String Ascii List ZArith Lia Bool Arith.
Import ListNotations.
Open Scope string_scope.

(** ** Go's [strings] package, on byte strings *)

Definition nl : string := String "010"%char EmptyString.

Fixpoint drop (n : nat) (s : string) : string :=
  match n, s with
  | O, _ => s
  | S _, EmptyString => EmptyString
  | S n', String _ r => drop n' r
  end.

Fixpoint prefixb (p s : string) : bool :=
  match p with
  | EmptyString => true
  | String a p' =>
      match s with
      | EmptyString => false
      | String b s' => Ascii.eqb a b && prefixb p' s'
      end
  end.

(** [strings.HasPrefix(s, p)] *)
Definition HasPrefix (s p : string) : bool := prefixb p s.

(** [strings.TrimPrefix(s, p)] *)
Definition TrimPrefix (s p : string) : string :=
  if HasPrefix s p then drop (String.length p) s else s.

(** [strings.Contains(s, sub)] *)
Fixpoint Contains (s sub : string) : bool :=
  prefixb sub s ||
  match s with
  | EmptyString => false
  | String _ r => Contains r sub
  end.

Fixpoint inCutset (c : ascii) (cutset : string) : bool :=
  match cutset with
  | EmptyString => false
  | String d r => Ascii.eqb c d || inCutset c r
  end.

(** [strings.TrimRight(s, cutset)] *)
Fixpoint TrimRight (s cutset : string) : string :=
  match s with
  | EmptyString => EmptyString
  | String c r =>
      match TrimRight r cutset with
      | EmptyString => if inCutset c cutset then EmptyString else String c EmptyString
      | r' => String c r'
      end
  end.

(** First occurrence of a non-empty separator: the text before it and the
    text after it. *)
Fixpoint cut (s sep : string) : option (string * string) :=
  if prefixb sep s then Some (EmptyString, drop (String.length sep) s)
  else match s with
       | EmptyString => None
       | String c r =>
           match cut r sep with
           | Some (a, b) => Some (String c a, b)
           | None => None
           end
       end.

(** [strings.SplitN(s, sep, 2)] for a non-empty [sep]. *)
Definition SplitN2 (s sep : string) : list string :=
  match cut s sep with
  | Some (a, b) => [a; b]
  | None => [s]
  end.

Fixpoint split_fuel (fuel : nat) (s sep : string) : list string :=
  match fuel with
  | O => [s]
  | S f =>
      match cut s sep with
      | None => [s]
      | Some (a, b) => a :: split_fuel f b sep
      end
  end.

(** [strings.Split(s, sep)] for a non-empty [sep]: at most [length s]
    separators can occur. *)
Definition Split (s sep : string) : list string :=
  split_fuel (String.length s) s sep.

(** [filepath.IsAbs] on Unix. *)
Definition IsAbs (p : string) : bool := HasPrefix p "/".

(** ** [strconv] and [%d] *)

Definition digit_char (d : Z) : ascii := ascii_of_nat (48 + Z.to_nat d).

Fixpoint utoa_fuel (fuel : nat) (n : Z) (acc : string) : string :=
  match fuel with
  | O => acc
  | S f =>
      let acc' := String (digit_char (n mod 10)) acc in
      if (n <? 10)%Z then acc' else utoa_fuel f (n / 10) acc'
  end.

(** Decimal rendering of a non-negative integer. *)
Definition utoa (n : Z) : string := utoa_fuel (S (Z.to_nat (Z.log2 n))) n EmptyString.

(** [fmt.Sprintf("%d", n)] *)
Definition Itoa (n : Z) : string :=
  if (n <? 0)%Z then String "-"%char (utoa (- n)%Z) else utoa n.

Definition digit_val (c : ascii) : option Z :=
  let k := Z.of_nat (nat_of_ascii c) in
  if ((48 <=? k) && (k <=? 57))%Z then Some (k - 48)%Z else None.

Fixpoint parse_digits (s : string) (acc : Z) : option Z :=
  match s with
  | EmptyString => Some acc
  | String c r =>
      match digit_val c with
      | Some d => parse_digits r (10 * acc + d)%Z
      | None => None
      end
  end.

(** [strconv.ParseUint(s, 10, 64)] without the range check, which
    [ParseInt] subsumes. *)
Definition parse_unsigned (s : string) : option Z :=
  match s with
  | EmptyString => None
  | _ => parse_digits s 0
  end.

Definition int64_min : Z := (- 2 ^ 63)%Z.
Definition int64_max : Z := (2 ^ 63 - 1)%Z.

(** [strconv.ParseInt(s, 10, 64)]; [None] stands for a non-nil error
    (syntax or range), in which case the callers here drop the value. *)
Definition ParseInt (s : string) : option Z :=
  match s with
  | EmptyString => None
  | String c r =>
      let '(neg, body) :=
        if Ascii.eqb c "+"%char then (false, r)
        else if Ascii.eqb c "-"%char then (true, r)
        else (false, s) in
      match parse_unsigned body with
      | None => None
      | Some un =>
          if negb neg && (2 ^ 63 <=? un)%Z then None
          else if neg && (2 ^ 63 <? un)%Z then None
          else Some (if neg then - un else un)%Z
      end
  end.

(** Modelled from the spec: [shared.StringInSlice] is defined outside this
    file; the driver uses it to ask whether a key is in the list of changed
    keys (section 6) and whether a sub-dataset "has an identically named
    snapshot" (section 4.6), that is, list membership. *)
Fixpoint StringInSlice (key : string) (l : list string) : bool :=
  match l with
  | [] => false
  | x :: r => String.eqb x key || StringInSlice key r
  end.


(** ** Commands, events and the driver monad

    One constructor per kind of interaction with the outside world.  The
    answer to a command is a text and a flag: for a sub-process the
    combined output and whether [err == nil]; for a predicate the flag is
    its value; for a call that only returns an [error], the flag says
    whether it is nil and the text is the message otherwise. *)

Inductive Cmd : Type :=
| CombinedOutput (name : string) (args : list string)
    (* exec.Command(name, args...).CombinedOutput() *)
| Sleep (ms : Z)                        (* time.Sleep(ms * time.Millisecond) *)
| IsMountPoint (path : string)          (* shared.IsMountPoint *)
| PathExists (path : string)            (* shared.PathExists *)
| IsBlockdevPath (path : string)        (* shared.IsBlockdevPath *)
| Unmount (path : string)               (* syscall.Unmount(path, MNT_DETACH) *)
| RemoveAll (path : string)             (* os.RemoveAll *)
| Remove (path : string)                (* os.Remove *)
| NewUUID                               (* uuid.NewRandom().String() *)
| DeleteContainerMountpoint (mountPoint mountPointSymlink storageTypeName : string)
| SnapshotDelete (name : string)        (* the manager's snapshot.Delete() *)
| SendStream (name : string) (args : list string)
    (* start the sub-process, stream its stdout into the websocket, wait *)
| Create (path : string)                (* os.Create *)
| Chmod (path : string) (mode : Z)      (* f.Chmod *)
| Truncate (path : string) (size : Z)   (* f.Truncate *)
| ContainerLoadByName (name : string).  (* containerLoadByName(s.d, name) *)

Record Resp : Type := mkResp { out : string; ok : bool }.

Definition Event : Type := Cmd * Resp.
Definition Trace : Type := list Event.

(** The environment answers a command knowing everything that happened
    before it. *)
Definition Oracle : Type := Trace -> Cmd -> Resp.

(** A Go function either returns, panics at run time, or (for the one
    recursion of the driver that follows the clone-origin chain) exceeds
    the recursion budget given to the model. *)
Inductive Outcome (A : Type) : Type :=
| Ret (a : A)
| Panic
| OutOfFuel.
Arguments Ret {A} a.
Arguments Panic {A}.
Arguments OutOfFuel {A}.

(** Given the oracle and the history, the outcome and the events emitted. *)
Definition M (A : Type) : Type := Oracle -> Trace -> Outcome A * Trace.

Definition ret {A} (a : A) : M A := fun _ _ => (Ret a, []).

Definition bind {A B} (m : M A) (k : A -> M B) : M B :=
  fun o h =>
    match m o h with
    | (Ret a, e1) => let '(r, e2) := k a o (h ++ e1)%list in (r, (e1 ++ e2)%list)
    | (Panic, e1) => (Panic, e1)
    | (OutOfFuel, e1) => (OutOfFuel, e1)
    end.

Definition panic {A} : M A := fun _ _ => (Panic, []).
Definition outOfFuel {A} : M A := fun _ _ => (OutOfFuel, []).

Definition call (c : Cmd) : M Resp := fun o h => (Ret (o h c), [(c, o h c)]).

Declare Scope go_scope.
Delimit Scope go_scope with go.
Notation "x <- m ;; k" := (bind m (fun x => k))
  (at level 61, m at next level, right associativity) : go_scope.
Notation "' pat <- m ;; k" := (bind m (fun x => match x with pat => k end))
  (at level 61, pat pattern, m at next level, right associativity) : go_scope.
Open Scope go_scope.

(** Go's [error]: [None] is [nil]. *)
Definition error : Type := option string.

(** [err := m; if err != nil { return err }; k] *)
Definition orReturn (m : M error) (k : M error) : M error :=
  err <- m ;; match err with Some e => ret (Some e) | None => k end.
Notation "'check' m ;; k" := (orReturn m k)
  (at level 61, m at next level, right associativity) : go_scope.

(** Run an operation from the empty history. *)
Definition run {A} (m : M A) (o : Oracle) : Outcome A * Trace := m o [].

(** ** The driver object and the manager's instance objects *)

(** Go maps of strings: a missing key reads as the empty string. *)
Fixpoint lookup (m : list (string * string)) (k : string) : string :=
  match m with
  | [] => EmptyString
  | (k', v) :: r => if String.eqb k' k then v else lookup r k
  end.

Fixpoint store (m : list (string * string)) (k v : string) : list (string * string) :=
  match m with
  | [] => [(k, v)]
  | (k', v') :: r => if String.eqb k' k then (k, v) :: r else (k', v') :: store r k v
  end.

(** [storageZfs] with the fields of [storageShared] the driver reads. *)
Record storageZfs : Type := mkStorageZfs {
  dataset : string;
  pool_Name : string;
  pool_Config : list (string * string);
  volume_Name : string;
  volume_Config : list (string * string);
  sTypeName : string
}.

(** The [container] interface: what [Name()], [Path()], [IsSnapshot()] and
    [Snapshots()] return.  Snapshot instances are used by the driver only
    through their name and [Delete()], so they are kept by name. *)
Record container : Type := mkContainer {
  Name : string;
  Path : string;
  IsSnapshot : bool;
  Snapshots : list string * error
}.

(** Functions and constants of the repository defined outside this file;
    they are pure and the driver only passes values through them. *)
Class Host : Type := {
  VarPath : list string -> string;                    (* shared.VarPath *)
  filepathJoin : string -> string -> string;          (* filepath.Join *)
  getStoragePoolMountPoint : string -> string;
  getContainerMountPoint : string -> string -> string;
  getSnapshotMountPoint : string -> string -> string;
  IsTrue : string -> bool;                            (* shared.IsTrue *)
  SnapshotDelimiter : ascii                           (* shared.SnapshotDelimiter *)
}.

Definition snapshotDelimiter `{Host} : string := String SnapshotDelimiter EmptyString.

(** [poolName := s.pool.Name; if s.dataset != "" { poolName = s.dataset }] *)
Definition onDiskPoolName (s : storageZfs) : string :=
  if String.eqb (dataset s) "" then pool_Name s else dataset s.

(** ** The ZFS command-line adapter

    Calls to the logger are left out: they have no influence on what the
    driver returns or runs. *)

(** Modelled from the spec: [tryExec] is defined outside this file; section
    4.1 says that destroy and rollback retry up to about 10 seconds at
    500 ms intervals, which is the shape of the rename loop below
    (20 attempts, a 500 ms sleep after each failure). *)
Fixpoint tryExecFrom (attempts : nat) (last : Resp) (name : string) (args : list string)
  : M Resp :=
  match attempts with
  | O => ret last
  | S n =>
      r <- call (CombinedOutput name args) ;;
      if ok r then ret r
      else _ <- call (Sleep 500) ;; tryExecFrom n r name args
  end.

Definition tryExec (name : string) (args : list string) : M Resp :=
  tryExecFrom 20 (mkResp "" true) name args.

Definition zfsPoolVolumeGet (s : storageZfs) (path key : string) : M (string * error) :=
  r <- call (CombinedOutput "zfs"
               ["get"; "-H"; "-p"; "-o"; "value"; key; onDiskPoolName s ++ "/" ++ path]) ;;
  if ok r then ret (TrimRight (out r) nl, None)
  else ret (out r, Some ("Failed to get ZFS config: " ++ out r)).

Definition zfsPoolVolumeExists (s : storageZfs) (path : string) : M bool :=
  '(output, _) <- zfsPoolVolumeGet s path "name" ;;
  ret (String.eqb output (onDiskPoolName s ++ "/" ++ path)).

Definition zfsPoolVolumeSet (s : storageZfs) (path key value : string) : M error :=
  r <- call (CombinedOutput "zfs"
               ["set"; key ++ "=" ++ value; onDiskPoolName s ++ "/" ++ path]) ;;
  if ok r then ret None
  else ret (Some ("Failed to set ZFS config: " ++ out r)).

Definition renameCmd (s : storageZfs) (source dest : string) : Cmd :=
  CombinedOutput "zfs"
    ["rename"; "-p"; onDiskPoolName s ++ "/" ++ source; onDiskPoolName s ++ "/" ++ dest].

(** The [for i := 0; i < 20; i++] loop of [zfsPoolVolumeRename]; [output]
    is the output of the last invocation. *)
Fixpoint zfsPoolVolumeRenameLoop (attempts : nat) (s : storageZfs) (source dest : string)
    (output : string) : M error :=
  match attempts with
  | O => ret (Some ("Failed to rename ZFS filesystem: " ++ output))
  | S n =>
      r <- call (renameCmd s source dest) ;;
      if ok r then ret None
      else
        moved <- (srcExists <- zfsPoolVolumeExists s source ;;
                  if negb srcExists then zfsPoolVolumeExists s dest else ret false) ;;
        if moved then ret None
        else _ <- call (Sleep 500) ;; zfsPoolVolumeRenameLoop n s source dest (out r)
  end.

Definition zfsPoolVolumeRename (s : storageZfs) (source dest : string) : M error :=
  zfsPoolVolumeRenameLoop 20 s source dest "".

Definition destroyArgs (s : storageZfs) (path : string) : list string :=
  ["destroy"; "-r"; onDiskPoolName s ++ "/" ++ path].

Definition zfsPoolVolumeDestroy (s : storageZfs) (path : string) : M error :=
  '(mountpoint, err) <- zfsPoolVolumeGet s path "mountpoint" ;;
  match err with
  | Some e => ret (Some e)
  | None =>
      check (if negb (String.eqb mountpoint "none") then
               m <- call (IsMountPoint mountpoint) ;;
               if ok m then
                 u <- call (Unmount mountpoint) ;;
                 ret (if ok u then None else Some (out u))
               else ret None
             else ret None) ;;
      r <- tryExec "zfs" (destroyArgs s path) ;;
      if ok r then ret None
      else ret (Some ("Failed to destroy ZFS filesystem: " ++ out r))
  end.

Definition zfsPoolVolumeSnapshotCreate (s : storageZfs) (path name : string) : M error :=
  r <- call (CombinedOutput "zfs"
               ["snapshot"; "-r"; onDiskPoolName s ++ "/" ++ path ++ "@" ++ name]) ;;
  if ok r then ret None
  else ret (Some ("Failed to create ZFS snapshot: " ++ out r)).

Definition listSubvolumesCmd (path : string) : Cmd :=
  CombinedOutput "zfs" ["list"; "-t"; "filesystem"; "-o"; "name"; "-H"; "-r"; path].

(** The entries kept by [zfsPoolListSubvolumes], each with the prefix
    [s.pool.Name + "/"] trimmed. *)
Definition subvolumeEntries (s : storageZfs) (path output : string) : list string :=
  map (fun entry => TrimPrefix entry (pool_Name s ++ "/"))
      (filter (fun entry => negb (String.eqb entry "") && negb (String.eqb entry path))
              (Split output nl)).

Definition zfsPoolListSubvolumes (s : storageZfs) (path : string)
  : M (list string * error) :=
  r <- call (listSubvolumesCmd path) ;;
  if ok r then ret (subvolumeEntries s path (out r), None)
  else ret ([], Some ("Failed to list ZFS filesystems: " ++ out r)).

(** The loop of [zfsPoolListSnapshots] over the output lines; [None] when
    [strings.SplitN(entry, "@", 2)[1]] is out of range. *)
Fixpoint snapshotEntries (fullPath : string) (entries : list string)
  : option (list string) :=
  match entries with
  | [] => Some []
  | entry :: rest =>
      if String.eqb entry "" then snapshotEntries fullPath rest
      else if String.eqb entry fullPath then snapshotEntries fullPath rest
      else match nth_error (SplitN2 entry "@") 1 with
           | None => None
           | Some name => option_map (cons name) (snapshotEntries fullPath rest)
           end
  end.

Definition snapshotsFullPath (s : storageZfs) (path : string) : string :=
  let path' := TrimRight path "/" in
  if String.eqb path' "" then onDiskPoolName s else onDiskPoolName s ++ "/" ++ path'.

Definition listSnapshotsCmd (fullPath : string) : Cmd :=
  CombinedOutput "zfs"
    ["list"; "-t"; "snapshot"; "-o"; "name"; "-H"; "-d"; "1"; "-s"; "creation"; "-r"; fullPath].

Definition zfsPoolListSnapshots (s : storageZfs) (path : string)
  : M (list string * error) :=
  let fullPath := snapshotsFullPath s path in
  r <- call (listSnapshotsCmd fullPath) ;;
  if ok r then
    match snapshotEntries fullPath (Split (out r) nl) with
    | Some children => ret (children, None)
    | None => panic
    end
  else ret ([], Some ("Failed to list ZFS snapshots: " ++ out r)).

Definition zfsPoolVolumeSnapshotRemovable (s : storageZfs) (path name : string)
  : M (bool * error) :=
  let snap := if String.eqb name "" then path else path ++ "@" ++ name in
  '(clones, err) <- zfsPoolVolumeGet s snap "clones" ;;
  match err with
  | Some e => ret (false, Some e)
  | None =>
      if String.eqb clones "-" || String.eqb clones "" then ret (true, None)
      else ret (false, None)
  end.

(** [zfsPoolVolumeCleanup] calls itself along the clone-origin chain, which
    only the environment knows; [depth] bounds the nesting of calls. *)
Fixpoint zfsPoolVolumeCleanup (depth : nat) (s : storageZfs) (path : string) : M error :=
  match depth with
  | O => outOfFuel
  | S d =>
      if HasPrefix path "deleted/" then
        '(removablePath, err) <- zfsPoolVolumeSnapshotRemovable s path "" ;;
        match err with
        | Some e => ret (Some e)
        | None =>
            if removablePath then
              if Contains path "@" then
                check zfsPoolVolumeDestroy s path ;;
                let subPath := hd EmptyString (SplitN2 path "@") in
                '(snaps, err) <- zfsPoolListSnapshots s subPath ;;
                match err with
                | Some e => ret (Some e)
                | None =>
                    if Nat.eqb (List.length snaps) 0 then
                      check zfsPoolVolumeCleanup d s subPath ;; ret None
                    else ret None
                end
              else
                '(origin, err) <- zfsPoolVolumeGet s path "origin" ;;
                match err with
                | Some e => ret (Some e)
                | None =>
                    let origin := TrimPrefix origin (pool_Name s ++ "/") in
                    check zfsPoolVolumeDestroy s path ;;
                    if negb (String.eqb origin "-") then
                      check zfsPoolVolumeCleanup d s origin ;; ret None
                    else ret None
                end
            else ret None
        end
      else if HasPrefix path "containers" && Contains path "@copy-" then
        check zfsPoolVolumeDestroy s path ;; ret None
      else ret None
  end.

Definition rollbackArgs (s : storageZfs) (path name : string) : list string :=
  ["rollback"; onDiskPoolName s ++ "/" ++ path ++ "@" ++ name].

(** The [for _, sub := range subvols] loop of [zfsPoolVolumeSnapshotRestore]. *)
Fixpoint restoreSubvolumes (s : storageZfs) (name : string) (subvols : list string)
  : M error :=
  match subvols with
  | [] => ret None
  | sub :: rest =>
      '(snaps, err) <- zfsPoolListSnapshots s sub ;;
      match err with
      | Some e => ret (Some e)
      | None =>
          if negb (StringInSlice name snaps) then restoreSubvolumes s name rest
          else
            r <- tryExec "zfs" (rollbackArgs s sub name) ;;
            if ok r then restoreSubvolumes s name rest
            else ret (Some ("Failed to restore ZFS sub-volume snapshot: " ++ out r))
      end
  end.

Definition zfsPoolVolumeSnapshotRestore (s : storageZfs) (path name : string) : M error :=
  r <- tryExec "zfs" (rollbackArgs s path name) ;;
  if ok r then
    '(subvols, err) <- zfsPoolListSubvolumes s (onDiskPoolName s ++ "/" ++ path) ;;
    match err with
    | Some e => ret (Some e)
    | None => restoreSubvolumes s name subvols
    end
  else ret (Some ("Failed to restore ZFS snapshot: " ++ out r)).

Definition cloneCmd (s : storageZfs) (source name dest mountpoint : string) : Cmd :=
  CombinedOutput "zfs"
    ["clone"; "-p"; "-o"; "mountpoint=" ++ mountpoint;
     onDiskPoolName s ++ "/" ++ source ++ "@" ++ name;
     onDiskPoolName s ++ "/" ++ dest].

Fixpoint cloneSubvolumes `{Host} (s : storageZfs) (source name dest : string)
    (subvols : list string) : M error :=
  match subvols with
  | [] => ret None
  | sub :: rest =>
      '(snaps, err) <- zfsPoolListSnapshots s sub ;;
      match err with
      | Some e => ret (Some e)
      | None =>
          if negb (StringInSlice name snaps) then cloneSubvolumes s source name dest rest
          else
            let destSubvol := dest ++ TrimPrefix sub source in
            let snapshotMntPoint := getSnapshotMountPoint (pool_Name s) destSubvol in
            r <- call (cloneCmd s sub name destSubvol snapshotMntPoint) ;;
            if ok r then cloneSubvolumes s source name dest rest
            else ret (Some ("Failed to clone the sub-volume: " ++ out r))
      end
  end.

Definition zfsPoolVolumeClone `{Host} (s : storageZfs) (source name dest mountpoint : string)
  : M error :=
  r <- call (cloneCmd s source name dest mountpoint) ;;
  if ok r then
    '(subvols, err) <- zfsPoolListSubvolumes s (onDiskPoolName s ++ "/" ++ source) ;;
    match err with
    | Some e => ret (Some e)
    | None => cloneSubvolumes s source name dest subvols
    end
  else ret (Some ("Failed to clone the filesystem: " ++ out r)).

Definition zfsPoolCheck (pool : string) : M error :=
  r <- call (CombinedOutput "zfs" ["get"; "type"; "-H"; "-o"; "value"; pool]) ;;
  let poolType := hd EmptyString (Split (out r) nl) in
  if ok r then
    if negb (String.eqb poolType "filesystem")
    then ret (Some ("Unsupported pool type: " ++ poolType))
    else ret None
  else ret (Some poolType).

Definition zpoolDestroyCmd (s : storageZfs) : Cmd :=
  CombinedOutput "zpool" ["destroy"; "-f"; pool_Name s].

Definition zfsPoolDelete (s : storageZfs) : M error :=
  r <- call (zpoolDestroyCmd s) ;;
  if ok r then
    let vdev := lookup (pool_Config s) "source" in
    if IsAbs vdev then
      b <- call (IsBlockdevPath vdev) ;;
      if negb (ok b) then _ <- call (RemoveAll vdev) ;; ret None
      else ret None
    else ret None
  else ret (Some ("Failed to delete the ZFS pool: " ++ out r)).

Definition zfsMount (poolName path : string) : M error :=
  r <- tryExec "zfs" ["mount"; poolName ++ "/" ++ path] ;;
  if ok r then ret None
  else ret (Some ("Failed to mount ZFS filesystem: " ++ out r)).

Definition zfsPoolVolumeMount (s : storageZfs) (path : string) : M error :=
  zfsMount (onDiskPoolName s) path.

Definition setSource (s : storageZfs) (v : string) : storageZfs :=
  mkStorageZfs (dataset s) (pool_Name s) (store (pool_Config s) "source" v)
               (volume_Name s) (volume_Config s) (sTypeName s).

Definition zpoolCreate (s : storageZfs) (vdev : string) : M (storageZfs * error) :=
  let zpoolName := lookup (pool_Config s) "zfs.pool_name" in
  let zpoolName := if String.eqb zpoolName "" then pool_Name s else zpoolName in
  r <- call (CombinedOutput "zpool"
               ["create"; zpoolName; vdev; "-f"; "-m"; "none"; "-O"; "compression=on"]) ;;
  if ok r then ret (s, None)
  else ret (s, Some ("Failed to create the ZFS pool: " ++ out r)).

(** [zfsPoolCreate] writes [s.pool.Config["source"]]; the driver after the
    call is returned next to the error. *)
Definition zfsPoolCreate `{Host} (s : storageZfs) : M (storageZfs * error) :=
  let vdev := lookup (pool_Config s) "source" in
  let vdev := if String.eqb vdev "" then filepathJoin (VarPath ["disks"]) (pool_Name s)
              else vdev in
  if negb (IsAbs vdev) then
    err <- zfsPoolCheck vdev ;;
    match err with
    | Some e => ret (s, Some e)
    | None =>
        '(subvols, err) <- zfsPoolListSubvolumes s vdev ;;
        match err with
        | Some e => ret (s, Some e)
        | None =>
            if Nat.ltb 0 (List.length subvols)
            then ret (s, Some "Provided ZFS pool (or dataset) isn't empty")
            else ret (s, None)
        end
    end
  else
    b <- call (IsBlockdevPath vdev) ;;
    if negb (ok b) then
      let vdev := vdev ++ ".img" in
      let s := setSource s vdev in
      f <- call (Create vdev) ;;
      if negb (ok f) then ret (s, Some ("Failed to open " ++ vdev ++ ": " ++ out f))
      else
        c <- call (Chmod vdev 384) ;;
        if negb (ok c) then ret (s, Some ("Failed to chmod " ++ vdev ++ ": " ++ out c))
        else
          match ParseInt (lookup (pool_Config s) "size") with
          | None => ret (s, Some ("strconv.ParseInt: " ++ lookup (pool_Config s) "size"))
          | Some size =>
              t <- call (Truncate vdev size) ;;
              if negb (ok t)
              then ret (s, Some ("Failed to create sparse file " ++ vdev ++ ": " ++ out t))
              else zpoolCreate s vdev
          end
    else zpoolCreate (setSource s (pool_Name s)) vdev.

(** ** Storage pool operations *)

(** The assignment made by [StoragePoolInit] once [StorageCoreInit] has
    succeeded: a non-empty, non-absolute source is taken as a ZFS dataset. *)
Definition StoragePoolInit (s : storageZfs) : storageZfs :=
  let vdev := lookup (pool_Config s) "source" in
  if negb (String.eqb vdev "") && negb (IsAbs vdev)
  then mkStorageZfs vdev (pool_Name s) (pool_Config s)
                    (volume_Name s) (volume_Config s) (sTypeName s)
  else s.

Definition StoragePoolDelete `{Host} (s : storageZfs) : M error :=
  check (if String.eqb (dataset s) "" ||
            (negb (String.eqb (dataset s) "") && negb (Contains (dataset s) "/"))
         then zfsPoolDelete s
         else ret None) ;;
  let storagePoolMntPoint := getStoragePoolMountPoint (pool_Name s) in
  e <- call (PathExists storagePoolMntPoint) ;;
  if ok e then
    r <- call (RemoveAll storagePoolMntPoint) ;;
    if ok r then ret None else ret (Some (out r))
  else ret None.

Definition unchangeable (key : string) : error :=
  Some ("The " ++ String "034"%char key ++ String "034"%char " property cannot be changed.").

Definition StoragePoolUpdate (changedConfig : list string) : error :=
  if StringInSlice "size" changedConfig then unchangeable "size"
  else if StringInSlice "source" changedConfig then unchangeable "source"
  else if StringInSlice "volume.size" changedConfig then unchangeable "volume.size"
  else if StringInSlice "volume.block.mount_options" changedConfig
    then unchangeable "volume.block.mount_options"
  else if StringInSlice "volume.block.filesystem" changedConfig
    then unchangeable "volume.block.filesystem"
  else if StringInSlice "volume.lvm.thinpool_name" changedConfig
    then unchangeable "volume.lvm.thinpool_name"
  else if StringInSlice "volume.zfs.use_refquota" changedConfig
    then unchangeable "volume.zfs.use_refquota"
  else if StringInSlice "volume.zfs.remove_snapshots" changedConfig
    then unchangeable "volume.zfs.remove_snapshots"
  else if StringInSlice "zfs.pool_name" changedConfig then unchangeable "zfs.pool_name"
  else None.

Definition StoragePoolVolumeUpdate (changedConfig : list string) : error :=
  if StringInSlice "block.mount_options" changedConfig
    then unchangeable "block.mount_options"
  else if StringInSlice "block.filesystem" changedConfig then unchangeable "block.filesystem"
  else if StringInSlice "size" changedConfig then unchangeable "size"
  else if StringInSlice "zfs.use_refquota" changedConfig then unchangeable "zfs.use_refquota"
  else if StringInSlice "zfs.remove_snapshots" changedConfig
    then unchangeable "zfs.remove_snapshots"
  else None.

(** ** Container operations *)

Definition ContainerCanRestore `{Host} (s : storageZfs) (c sourceContainer : container)
  : M error :=
  let '(snaps, err) := Snapshots c in
  match err with
  | Some e => ret (Some e)
  | None =>
      (* snaps[len(snaps)-1] *)
      match (Z.of_nat (List.length snaps) - 1)%Z with
      | Zneg _ => panic
      | i =>
          match nth_error snaps (Z.to_nat i) with
          | None => panic
          | Some last =>
              if negb (String.eqb last (Name sourceContainer)) then
                if negb (IsTrue (lookup (volume_Config s) "zfs.remove_snapshots")) then
                  ret (Some "ZFS can only restore from the latest snapshot. Delete newer snapshots or copy the snapshot into a new container instead.")
                else ret None
              else ret None
          end
      end
  end.

(** The [for _, snap := range snaps] loop of [ContainerDelete]; the result
    is the final value of [removable] and the error to return, if any. *)
Fixpoint snapshotsRemovable (s : storageZfs) (fs : string) (snaps : list string)
    (removable : bool) : M (bool * error) :=
  match snaps with
  | [] => ret (removable, None)
  | snap :: rest =>
      '(removable, err) <- zfsPoolVolumeSnapshotRemovable s fs snap ;;
      match err with
      | Some e => ret (removable, Some e)
      | None =>
          if negb removable then ret (removable, None)
          else snapshotsRemovable s fs rest removable
      end
  end.

(** The [if removable] branch of [ContainerDelete]: read the origin,
    destroy the dataset, clean the origin up. *)
Definition destroyAndCleanup (depth : nat) (s : storageZfs) (fs : string) : M error :=
  '(origin, err) <- zfsPoolVolumeGet s fs "origin" ;;
  match err with
  | Some e => ret (Some e)
  | None =>
      let origin := TrimPrefix origin (pool_Name s ++ "/") in
      check zfsPoolVolumeDestroy s fs ;;
      check zfsPoolVolumeCleanup depth s origin ;;
      ret None
  end.

(** The [else] branch: unset the mount point and rename into the
    graveyard. *)
Definition moveToGraveyard (s : storageZfs) (fs : string) : M error :=
  check zfsPoolVolumeSet s fs "mountpoint" "none" ;;
  u <- call NewUUID ;;
  check zfsPoolVolumeRename s fs ("deleted/containers/" ++ out u) ;;
  ret None.

(** The part of [ContainerDelete] that runs once the dataset is known to
    exist. *)
Definition deleteDataset (depth : nat) (s : storageZfs) (fs : string) : M error :=
  '(snaps, err) <- zfsPoolListSnapshots s fs ;;
  match err with
  | Some e => ret (Some e)
  | None =>
      '(removable, err) <- snapshotsRemovable s fs snaps true ;;
      match err with
      | Some e => ret (Some e)
      | None =>
          if removable then destroyAndCleanup depth s fs
          else moveToGraveyard s fs
      end
  end.

(** What follows the dataset in [ContainerDelete]: mount point, snapshot
    skeleton dataset, left-over directories and symlinks. *)
Definition deleteLeftovers `{Host} (s : storageZfs) (c : container) : M error :=
  let containerName := Name c in
  let containerPoolVolumeMntPoint := getContainerMountPoint (pool_Name s) containerName in
  d <- call (DeleteContainerMountpoint containerPoolVolumeMntPoint (Path c) (sTypeName s)) ;;
  if negb (ok d) then ret (Some (out d))
  else
    _ <- zfsPoolVolumeDestroy s ("snapshots/" ++ containerName) ;;
    let snapshotMntPoint := getSnapshotMountPoint (pool_Name s) containerName in
    check (e <- call (PathExists snapshotMntPoint) ;;
           if ok e then
             r <- call (RemoveAll snapshotMntPoint) ;;
             if ok r then ret None else ret (Some (out r))
           else ret None) ;;
    let snapshotSymlink := VarPath ["snapshots"; containerName] in
    check (e <- call (PathExists snapshotSymlink) ;;
           if ok e then
             r <- call (Remove snapshotSymlink) ;;
             if ok r then ret None else ret (Some (out r))
           else ret None) ;;
    ret None.

Definition ContainerDelete `{Host} (depth : nat) (s : storageZfs) (c : container) : M error :=
  let fs := "containers/" ++ Name c in
  exists_ <- zfsPoolVolumeExists s fs ;;
  check (if exists_ then deleteDataset depth s fs else ret None) ;;
  deleteLeftovers s c.

(** The [for i := len(snaps) - 1; i != 0; i--] loop of [ContainerRestore],
    entered with a non-negative [i]. *)
Fixpoint deleteNewerFrom (snaps : list string) (i : nat) (sourceName : string) : M error :=
  match i with
  | O => ret None
  | S i' =>
      match nth_error snaps i with
      | None => panic
      | Some name =>
          if String.eqb name sourceName then ret None
          else
            r <- call (SnapshotDelete name) ;;
            if ok r then deleteNewerFrom snaps i' sourceName
            else ret (Some (out r))
      end
  end.

Definition deleteNewer (snaps : list string) (sourceName : string) : M error :=
  match (Z.of_nat (List.length snaps) - 1)%Z with
  | Zneg _ => panic   (* i = -1: i != 0 holds and snaps[i] is out of range *)
  | i => deleteNewerFrom snaps (Z.to_nat i) sourceName
  end.

Definition ContainerRestore `{Host} (s : storageZfs) (c sourceContainer : container)
  : M error :=
  let '(snaps, err) := Snapshots c in
  match err with
  | Some e => ret (Some e)
  | None =>
      check deleteNewer snaps (Name sourceContainer) ;;
      let fields := SplitN2 (Name sourceContainer) snapshotDelimiter in
      let cName := hd EmptyString fields in
      match nth_error fields 1 with
      | None => panic
      | Some f1 =>
          let snapName := "snapshot-" ++ f1 in
          check zfsPoolVolumeSnapshotRestore s ("containers/" ++ cName) snapName ;;
          ret None
      end
  end.

Definition ContainerSetQuota `{Host} (s : storageZfs) (c : container) (size : Z) : M error :=
  let fs := "containers/" ++ Name c in
  let property :=
    if IsTrue (lookup (volume_Config s) "zfs.use_refquota") then "refquota" else "quota" in
  check (if (size >? 0)%Z then zfsPoolVolumeSet s fs property (Itoa size)
         else zfsPoolVolumeSet s fs property "none") ;;
  ret None.

Definition ContainerGetUsage `{Host} (s : storageZfs) (c : container) : M (Z * error) :=
  let fs := "containers/" ++ Name c in
  let property :=
    if IsTrue (lookup (volume_Config s) "zfs.use_refquota") then "usedbydataset" else "used" in
  '(value, err) <- zfsPoolVolumeGet s fs property ;;
  match err with
  | Some e => ret ((-1)%Z, Some e)
  | None =>
      match ParseInt value with
      | None => ret ((-1)%Z, Some ("strconv.ParseInt: " ++ value))
      | Some valueInt => ret (valueInt, None)
      end
  end.

Definition ContainerSnapshotStart `{Host} (s : storageZfs) (c : container) : M error :=
  let fields := SplitN2 (Name c) snapshotDelimiter in
  if Nat.ltb (List.length fields) 2 then ret (Some ("Invalid snapshot name: " ++ Name c))
  else
    match fields with
    | cName :: sName :: _ =>
        let sourceFs := "containers/" ++ cName in
        let sourceSnap := "snapshot-" ++ sName in
        let destFs := "snapshots/" ++ cName ++ "/" ++ sName in
        let snapshotMntPoint := getSnapshotMountPoint (pool_Name s) (Name c) in
        check zfsPoolVolumeClone s sourceFs sourceSnap destFs snapshotMntPoint ;;
        ret None
    | _ => panic
    end.

Definition ContainerSnapshotStop `{Host} (s : storageZfs) (c : container) : M error :=
  let fields := SplitN2 (Name c) snapshotDelimiter in
  if Nat.ltb (List.length fields) 2 then ret (Some ("Invalid snapshot name: " ++ Name c))
  else
    match fields with
    | cName :: sName :: _ =>
        let destFs := "snapshots/" ++ cName ++ "/" ++ sName in
        check zfsPoolVolumeDestroy s destFs ;;
        r <- call (RemoveAll (Path c)) ;;
        if ok r then ret None else ret (Some (out r))
    | _ => panic
    end.

(** ** Migration source *)

Record zfsMigrationSourceDriver : Type := mkSourceDriver {
  drv_container : container;
  drv_snapshots : list string;          (* the loaded snapshot instances, by name *)
  zfsSnapshotNames : list string;
  zfs : storageZfs;
  runningSnapName : string;
  stoppedSnapName : string
}.

Definition sendArgs `{Host} (d : zfsMigrationSourceDriver) (zfsName zfsParent : string)
  : list string :=
  let fields := SplitN2 (Name (drv_container d)) snapshotDelimiter in
  let poolName := onDiskPoolName (zfs d) in
  let args := ["send"; poolName ++ "/containers/" ++ hd EmptyString fields ++ "@" ++ zfsName] in
  if negb (String.eqb zfsParent "") then
    List.app args ["-i"; poolName ++ "/containers/" ++ Name (drv_container d) ++ "@" ++ zfsParent]
  else args.

(** [send]: the pipes, the start of the sub-process, the streaming into the
    websocket and the wait are one interaction; the progress wrapper only
    reports. *)
Definition send `{Host} (d : zfsMigrationSourceDriver) (zfsName zfsParent : string) : M error :=
  r <- call (SendStream "zfs" (sendArgs d zfsName zfsParent)) ;;
  if ok r then ret None else ret (Some (out r)).

(** The [for i, snap := range s.zfsSnapshotNames] loop; [prev] is
    [s.zfsSnapshotNames[i-1]], or empty at [i = 0]; the result carries the
    final value of [lastSnap]. *)
Fixpoint sendSnapshots `{Host} (d : zfsMigrationSourceDriver) (prev lastSnap : string)
    (snaps : list string) : M (string * error) :=
  match snaps with
  | [] => ret (lastSnap, None)
  | snap :: rest =>
      err <- send d snap prev ;;
      match err with
      | Some e => ret (snap, Some e)
      | None => sendSnapshots d snap snap rest
      end
  end.

Definition setRunningSnapName (d : zfsMigrationSourceDriver) (n : string)
  : zfsMigrationSourceDriver :=
  mkSourceDriver (drv_container d) (drv_snapshots d) (zfsSnapshotNames d) (zfs d) n
                 (stoppedSnapName d).

(** [SendWhileRunning] assigns [s.runningSnapName]; the driver after the
    call is returned next to the error. *)
Definition SendWhileRunning `{Host} (d : zfsMigrationSourceDriver)
  : M (zfsMigrationSourceDriver * error) :=
  if IsSnapshot (drv_container d) then
    let fields := SplitN2 (Name (drv_container d)) snapshotDelimiter in
    match nth_error fields 1 with
    | None => panic
    | Some f1 => err <- send d ("snapshot-" ++ f1) "" ;; ret (d, err)
    end
  else
    '(lastSnap, err) <- sendSnapshots d "" "" (zfsSnapshotNames d) ;;
    match err with
    | Some e => ret (d, Some e)
    | None =>
        u <- call NewUUID ;;
        let d := setRunningSnapName d ("migration-send-" ++ out u) in
        err <- zfsPoolVolumeSnapshotCreate (zfs d)
                 ("containers/" ++ Name (drv_container d)) (runningSnapName d) ;;
        match err with
        | Some e => ret (d, Some e)
        | None =>
            err <- send d (runningSnapName d) lastSnap ;;
            match err with
            | Some e => ret (d, Some e)
            | None => ret (d, None)
            end
        end
    end.

(** The [for _, snap := range snapshots] loop of [MigrationSource]. *)
Fixpoint loadSnapshots `{Host} (ct : container) (d : zfsMigrationSourceDriver)
    (snapshots : list string) : M (option zfsMigrationSourceDriver * error) :=
  match snapshots with
  | [] => ret (Some d, None)
  | snap :: rest =>
      if negb (HasPrefix snap "snapshot-") then loadSnapshots ct d rest
      else
        let lxdName := Name ct ++ snapshotDelimiter ++ drop (String.length "snapshot-") snap in
        r <- call (ContainerLoadByName lxdName) ;;
        if ok r then
          loadSnapshots ct
            (mkSourceDriver (drv_container d) (drv_snapshots d ++ [lxdName])%list
               (zfsSnapshotNames d ++ [snap])%list (zfs d)
               (runningSnapName d) (stoppedSnapName d))
            rest
        else ret (None, Some (out r))
  end.

Definition MigrationSource `{Host} (s : storageZfs) (ct : container)
  : M (option zfsMigrationSourceDriver * error) :=
  if IsSnapshot ct then ret (Some (mkSourceDriver ct [] [] s "" ""), None)
  else
    '(snapshots, err) <- zfsPoolListSnapshots s ("containers/" ++ Name ct) ;;
    match err with
    | Some e => ret (None, Some e)
    | None => loadSnapshots ct (mkSourceDriver ct [] [] s "" "") snapshots
    end.

(** ** The mount coordinator: interleavings of [ContainerMount] calls

    Several goroutines run [ContainerMount] for the same pool and container
    name, hence with the same key [containerMountLockID].  Each caller is a
    program counter over the statements of the function that touch shared
    state; the shared state is the mutex [lxdStorageMapLock], the entry of
    [lxdStorageOngoingOperationMap] under that key, the channels closed so
    far, and whether the container's mount point is mounted.  A scheduler
    picks which caller takes its next step; a caller that cannot proceed (the
    mutex is taken, or it receives from a channel that is still open) has no
    step.  The outside world enters through two points: [shared.IsMountPoint]
    reads the mounted flag, and [zfsPoolVolumeMount] succeeds or fails as the
    scheduler decides, setting the flag when it succeeds. *)

Definition chan : Type := nat.

Inductive pc : Type :=
| AtLock1                                  (* lxdStorageMapLock.Lock() *)
| AtLookup                                 (* waitChannel, ok := map[key] *)
| AtUnlockWait (ch : chan)                 (* ok: lxdStorageMapLock.Unlock() *)
| AtRecv (ch : chan)                       (* <-waitChannel; return false, nil *)
| AtInsert                                 (* map[key] = make(chan bool) *)
| AtUnlockOwn                              (* lxdStorageMapLock.Unlock() *)
| AtIsMountPoint                           (* !shared.IsMountPoint(mntPoint) *)
| AtMount                                  (* imgerr = s.zfsPoolVolumeMount(fs); ourMount = true *)
| AtLock2 (ourMount : bool) (imgerr : error)   (* lxdStorageMapLock.Lock() *)
| AtClose (ourMount : bool) (imgerr : error)   (* close(waitChannel); delete(map, key) *)
| AtUnlock2 (ourMount : bool) (imgerr : error) (* lxdStorageMapLock.Unlock() *)
| Returned (waited : bool) (didWork : bool) (err : error).

Record Shared : Type := mkShared {
  lockHeld : bool;            (* lxdStorageMapLock *)
  entry : option chan;        (* lxdStorageOngoingOperationMap[containerMountLockID] *)
  closed : list chan;         (* channels on which close() was called *)
  nextChan : chan;            (* the next channel make() returns *)
  mounted : bool;             (* shared.IsMountPoint(containerPoolVolumeMntPoint) *)
  mounts : nat;               (* calls of zfsPoolVolumeMount so far *)
  failedMounts : nat          (* those that returned an error *)
}.

Record Sys : Type := mkSys { shared : Shared; callers : list pc }.

Definition mountError : string := "Failed to mount ZFS filesystem: ".

(** One step of a caller at program counter [p]; [mountOk] is the outcome of
    [zfsPoolVolumeMount] should the step be that call. *)
Definition stepCaller (mountOk : bool) (sh : Shared) (p : pc) : option (Shared * pc) :=
  match p with
  | AtLock1 =>
      if lockHeld sh then None
      else Some (mkShared true (entry sh) (closed sh) (nextChan sh) (mounted sh)
                          (mounts sh) (failedMounts sh), AtLookup)
  | AtLookup =>
      match entry sh with
      | Some ch => Some (sh, AtUnlockWait ch)
      | None => Some (sh, AtInsert)
      end
  | AtUnlockWait ch =>
      Some (mkShared false (entry sh) (closed sh) (nextChan sh) (mounted sh)
                     (mounts sh) (failedMounts sh), AtRecv ch)
  | AtRecv ch =>
      if existsb (Nat.eqb ch) (closed sh) then Some (sh, Returned true false None)
      else None
  | AtInsert =>
      Some (mkShared (lockHeld sh) (Some (nextChan sh)) (closed sh) (S (nextChan sh))
                     (mounted sh) (mounts sh) (failedMounts sh), AtUnlockOwn)
  | AtUnlockOwn =>
      Some (mkShared false (entry sh) (closed sh) (nextChan sh) (mounted sh)
                     (mounts sh) (failedMounts sh), AtIsMountPoint)
  | AtIsMountPoint =>
      if negb (mounted sh) then Some (sh, AtMount)
      else Some (sh, AtLock2 false None)
  | AtMount =>
      if mountOk then
        Some (mkShared (lockHeld sh) (entry sh) (closed sh) (nextChan sh) true
                       (S (mounts sh)) (failedMounts sh), AtLock2 true None)
      else
        Some (mkShared (lockHeld sh) (entry sh) (closed sh) (nextChan sh) (mounted sh)
                       (S (mounts sh)) (S (failedMounts sh)),
              AtLock2 true (Some mountError))
  | AtLock2 ourMount imgerr =>
      if lockHeld sh then None
      else Some (mkShared true (entry sh) (closed sh) (nextChan sh) (mounted sh)
                          (mounts sh) (failedMounts sh), AtClose ourMount imgerr)
  | AtClose ourMount imgerr =>
      match entry sh with
      | Some ch =>
          Some (mkShared (lockHeld sh) None (ch :: closed sh) (nextChan sh) (mounted sh)
                         (mounts sh) (failedMounts sh), AtUnlock2 ourMount imgerr)
      | None => Some (sh, AtUnlock2 ourMount imgerr)
      end
  | AtUnlock2 ourMount imgerr =>
      Some (mkShared false (entry sh) (closed sh) (nextChan sh) (mounted sh)
                     (mounts sh) (failedMounts sh),
            match imgerr with
            | Some e => Returned false false (Some e)
            | None => Returned false ourMount None
            end)
  | Returned _ _ _ => None
  end.

Fixpoint setNth {A} (i : nat) (x : A) (l : list A) : list A :=
  match l, i with
  | [], _ => []
  | _ :: r, O => x :: r
  | y :: r, S i' => y :: setNth i' x r
  end.

(** The scheduler lets caller [i] take a step. *)
Definition step (i : nat) (mountOk : bool) (st : Sys) : option Sys :=
  match nth_error (callers st) i with
  | None => None
  | Some p =>
      match stepCaller mountOk (shared st) p with
      | None => None
      | Some (sh', p') => Some (mkSys sh' (setNth i p' (callers st)))
      end
  end.

Fixpoint exec (schedule : list (nat * bool)) (st : Sys) : option Sys :=
  match schedule with
  | [] => Some st
  | (i, mountOk) :: rest =>
      match step i mountOk st with
      | None => None
      | Some st' => exec rest st'
      end
  end.

(** [n] callers enter [ContainerMount]; nothing is in the table. *)
Definition initSys (n : nat) (isMounted : bool) : Sys :=
  mkSys (mkShared false None [] 0 isMounted 0 0) (repeat AtLock1 n).

Inductive reachable (st0 : Sys) : Sys -> Prop :=
| reach_init : reachable st0 st0
| reach_step st i mountOk st' :
    reachable st0 st -> step i mountOk st = Some st' -> reachable st0 st'.

Definition isReturned (p : pc) : bool :=
  match p with Returned _ _ _ => true | _ => false end.

Definition didWork (p : pc) : bool :=
  match p with Returned _ true _ => true | _ => false end.

(** Between the insertion of the channel and its removal. *)
Definition holdsEntry (p : pc) : bool :=
  match p with
  | AtUnlockOwn | AtIsMountPoint | AtMount | AtLock2 _ _ | AtClose _ _ => true
  | _ => false
  end.

Definition holdsLock (p : pc) : bool :=
  match p with
  | AtLookup | AtUnlockWait _ | AtInsert | AtUnlockOwn | AtClose _ _ | AtUnlock2 _ _ => true
  | _ => false
  end.

Fixpoint count (P : pc -> bool) (l : list pc) : nat :=
  match l with
  | [] => 0
  | p :: r => (if P p then 1 else 0) + count P r
  end.


(** ** Vocabulary of the statements *)

Definition poolUnchangeableKeys : list string :=
  ["size"; "source"; "volume.size"; "volume.block.mount_options";
   "volume.block.filesystem"; "volume.lvm.thinpool_name"; "volume.zfs.use_refquota";
   "volume.zfs.remove_snapshots"; "zfs.pool_name"].

Definition volumeUnchangeableKeys : list string :=
  ["block.mount_options"; "block.filesystem"; "size"; "zfs.use_refquota";
   "zfs.remove_snapshots"].

(** A host for examples: the usual layout under [/var/lib/lxd]. *)
Definition lxdHost : Host := {|
  VarPath := fun parts => "/var/lib/lxd/" ++ String.concat "/" parts;
  filepathJoin := fun a b => a ++ "/" ++ b;
  getStoragePoolMountPoint := fun pool => "/var/lib/lxd/storage-pools/" ++ pool;
  getContainerMountPoint := fun pool name =>
    "/var/lib/lxd/storage-pools/" ++ pool ++ "/containers/" ++ name;
  getSnapshotMountPoint := fun pool name =>
    "/var/lib/lxd/storage-pools/" ++ pool ++ "/snapshots/" ++ name;
  IsTrue := fun value => StringInSlice value ["true"; "1"; "yes"; "on"];
  SnapshotDelimiter := "/"%char
|}.

Definition emptyZfs (pool : string) : storageZfs :=
  mkStorageZfs "" pool [] "" [] "zfs".


Fixpoint allChars (P : ascii -> bool) (s : string) : bool :=
  match s with
  | EmptyString => true
  | String c r => P c && allChars P r
  end.


Definition getCmd (s : storageZfs) (path key : string) : Cmd :=
  CombinedOutput "zfs" ["get"; "-H"; "-p"; "-o"; "value"; key; onDiskPoolName s ++ "/" ++ path].

Definition setCmd (s : storageZfs) (path key value : string) : Cmd :=
  CombinedOutput "zfs" ["set"; key ++ "=" ++ value; onDiskPoolName s ++ "/" ++ path].


(** What [zfsPoolVolumeExists] concludes from the answer to its
    [zfs get name]. *)
Definition existsAnswer (s : storageZfs) (path : string) (r : Resp) : bool :=
  String.eqb (if ok r then TrimRight (out r) nl else out r)
             (onDiskPoolName s ++ "/" ++ path).

(** The three ways one round of the rename loop can go, as event
    sequences: the invocation succeeds; it fails but the source is gone
    and the destination is there; it fails, the datasets have not moved,
    and the loop sleeps 500 ms. *)
Definition renameOk (s : storageZfs) (source dest : string) (t : Trace) : Prop :=
  exists r, ok r = true /\ t = [(renameCmd s source dest, r)].

Definition renameMoved (s : storageZfs) (source dest : string) (t : Trace) : Prop :=
  exists r r1 r2,
    ok r = false /\ existsAnswer s source r1 = false /\ existsAnswer s dest r2 = true /\
    t = [(renameCmd s source dest, r);
         (getCmd s source "name", r1); (getCmd s dest "name", r2)].

Definition renameFailed (s : storageZfs) (source dest : string) (t : Trace)
    (output : string) : Prop :=
  exists r r1 rs,
    ok r = false /\ out r = output /\
    ((existsAnswer s source r1 = true /\
      t = [(renameCmd s source dest, r); (getCmd s source "name", r1); (Sleep 500, rs)]) \/
     (exists r2,
        existsAnswer s source r1 = false /\ existsAnswer s dest r2 = false /\
        t = [(renameCmd s source dest, r); (getCmd s source "name", r1);
             (getCmd s dest "name", r2); (Sleep 500, rs)])).


(** The pool configured with the relative source [tank], as
    [StoragePoolInit] leaves it. *)
Definition tankPool : storageZfs :=
  StoragePoolInit (mkStorageZfs "" "default" [("source", "tank")] "" [] "zfs").

(** An environment in which every command succeeds and every predicate
    holds, with empty output. *)
Definition yesOracle : Oracle := fun _ _ => mkResp "" true.

(** The tail of [StoragePoolDelete]: removal of the pool's mount point. *)
Definition removeMountPoint `{Host} (s : storageZfs) (o : Oracle) (h : Trace)
  : Outcome error * Trace :=
  let mnt := getStoragePoolMountPoint (pool_Name s) in
  let e := o h (PathExists mnt) in
  if ok e then
    let r := o (h ++ [(PathExists mnt, e)])%list (RemoveAll mnt) in
    (Ret (if ok r then None else Some (out r)), [(PathExists mnt, e); (RemoveAll mnt, r)])
  else (Ret None, [(PathExists mnt, e)]).


(** The sends the migration source is expected to run: [zfs send] of
    [containers/<name>@<snap>], with [-i] and the parent snapshot when
    there is one. *)
Definition sendCmd (pool name zfsName : string) (parent : option string) : Cmd :=
  SendStream "zfs"
    (List.app ["send"; pool ++ "/containers/" ++ name ++ "@" ++ zfsName]
       match parent with
       | Some p => ["-i"; pool ++ "/containers/" ++ name ++ "@" ++ p]
       | None => []
       end).

(** Each snapshot in order, the first after [parent], each later one with
    its predecessor as parent. *)
Fixpoint expectedSends (pool name : string) (parent : option string) (snaps : list string)
  : list Cmd :=
  match snaps with
  | [] => []
  | snap :: rest => sendCmd pool name snap parent :: expectedSends pool name (Some snap) rest
  end.

Fixpoint lastOf (parent : option string) (snaps : list string) : option string :=
  match snaps with
  | [] => parent
  | snap :: rest => lastOf (Some snap) rest
  end.

Definition snapshotCreateCmd (s : storageZfs) (path name : string) : Cmd :=
  CombinedOutput "zfs" ["snapshot"; "-r"; onDiskPoolName s ++ "/" ++ path ++ "@" ++ name].

(** The parent argument [send] derives from [zfsParent]. *)
Definition parentOf (zfsParent : string) : option string :=
  if String.eqb zfsParent "" then None else Some zfsParent.


(** The events of the sub-dataset loop of a rollback to [name]: for each
    sub-dataset in turn the listing of its snapshots, followed by a
    successful [zfs rollback] exactly when [name] is among them. *)
Inductive subBlocks (s : storageZfs) (name : string) : list string -> Trace -> Prop :=
| sb_nil : subBlocks s name [] []
| sb_skip sub rest r snaps tr :
    snapshotEntries (snapshotsFullPath s sub) (Split (out r) nl) = Some snaps ->
    ~ In name snaps ->
    subBlocks s name rest tr ->
    subBlocks s name (sub :: rest) ((listSnapshotsCmd (snapshotsFullPath s sub), r) :: tr)
| sb_roll sub rest r rr snaps tr :
    snapshotEntries (snapshotsFullPath s sub) (Split (out r) nl) = Some snaps ->
    In name snaps ->
    ok rr = true ->
    subBlocks s name rest tr ->
    subBlocks s name (sub :: rest)
      ((listSnapshotsCmd (snapshotsFullPath s sub), r)
         :: (CombinedOutput "zfs" (rollbackArgs s sub name), rr) :: tr).

(** A pool given by the dataset [tank/lxd]; the manager calls it
    [default]. *)
Definition datasetPool : storageZfs :=
  StoragePoolInit (mkStorageZfs "" "default" [("source", "tank/lxd")] "" [] "zfs").

(** ZFS as it answers when [tank/lxd/containers/c1] has one sub-dataset
    [sub], both with the snapshot [snapshot-s1]: listings of datasets that
    exist succeed, a listing of any other dataset fails. *)
Definition subDatasetOracle : Oracle := fun _ cmd =>
  match cmd with
  | CombinedOutput _ args =>
      if StringInSlice "filesystem" args then
        mkResp ("tank/lxd/containers/c1" ++ nl ++ "tank/lxd/containers/c1/sub" ++ nl) true
      else if StringInSlice "list" args then
        if StringInSlice "tank/lxd/containers/c1/sub" args then
          mkResp ("tank/lxd/containers/c1/sub@snapshot-s1" ++ nl) true
        else if StringInSlice "tank/lxd/containers/c1" args then
          mkResp ("tank/lxd/containers/c1@snapshot-s1" ++ nl) true
        else mkResp ("cannot open: dataset does not exist" ++ nl) false
      else mkResp "" true
  | _ => mkResp "" true
  end.

Definition c1 : container :=
  mkContainer "c1" "/var/lib/lxd/containers/c1" false (["c1/s1"], None).

Definition c1s1 : container :=
  mkContainer "c1/s1" "/var/lib/lxd/snapshots/c1/s1" true ([], None).

(** An environment whose snapshot listings are well formed: every line
    other than the dataset itself has the form [dataset@snapshot]. *)
Definition listingsWellFormed (o : Oracle) : Prop :=
  forall h fullPath,
    snapshotEntries fullPath (Split (out (o h (listSnapshotsCmd fullPath))) nl) <> None.


(** Every event an operation emits, whatever the environment and the
    history, is a command satisfying [P]. *)
Definition emitsOnly {A} (P : Cmd -> Prop) (m : M A) : Prop :=
  forall o h, Forall (fun ev => P (fst ev)) (snd (m o h)).

(** The sub-command of a [zfs] invocation: [get], [set], [destroy], ... *)
Definition zfsVerb (c : Cmd) : option string :=
  match c with
  | CombinedOutput name (verb :: _) => if String.eqb name "zfs" then Some verb else None
  | _ => None
  end.

(** The value of [clones] on a snapshot nobody depends on. *)
Definition removableValue (v : string) : bool :=
  String.eqb v "-" || String.eqb v "".


(** The dataset whose [clones] property [zfsPoolVolumeSnapshotRemovable]
    reads for the snapshot [name] of [path]. *)
Definition snapshotPath (path name : string) : string :=
  if String.eqb name "" then path else path ++ "@" ++ name.

(** Commands that [zfsPoolVolumeCleanup] and [zfsPoolVolumeDestroy] can run:
    reading properties, listing, unmounting, destroying, waiting. *)
Definition cleanupCmd (c : Cmd) : bool :=
  match c with
  | Sleep _ | IsMountPoint _ | Unmount _ => true
  | _ =>
      match zfsVerb c with
      | Some verb => String.eqb verb "get" || String.eqb verb "list" || String.eqb verb "destroy"
      | None => false
      end
  end.




(** A caller whose own [zfs mount] succeeded. *)
Definition won (p : pc) : bool :=
  match p with
  | AtLock2 true None | AtClose true None | AtUnlock2 true None => true
  | Returned _ true _ => true
  | _ => false
  end.

(** What holds of the shared state while a caller is at a given point. *)
Definition localInv (sh : Shared) (p : pc) : Prop :=
  match p with
  | AtInsert => entry sh = None
  | AtMount => mounted sh = false
  | AtUnlockWait ch | AtRecv ch => In ch (closed sh) \/ entry sh = Some ch
  | Returned true d e => d = false /\ e = None /\ closed sh <> []
  | Returned false _ _ | AtLock2 _ _ | AtClose _ _ | AtUnlock2 _ _ =>
      mounted sh = true \/ 1 <= failedMounts sh
  | _ => True
  end.

(** The invariant of the coordinator; [isMounted] is the state of the
    mount point when the callers entered. *)
Record Inv (isMounted : bool) (st : Sys) : Prop := mkInv {
  inv_lock : count holdsLock (callers st) = if lockHeld (shared st) then 1 else 0;
  inv_entry : count holdsEntry (callers st) =
              match entry (shared st) with Some _ => 1 | None => 0 end;
  inv_mounts : count won (callers st) + failedMounts (shared st) = mounts (shared st);
  inv_won : count won (callers st) <= 1;
  inv_won_mounted : 1 <= count won (callers st) -> mounted (shared st) = true;
  inv_mounted_won : isMounted = false -> mounted (shared st) = true ->
                    1 <= count won (callers st);
  inv_m0 : isMounted = true -> mounted (shared st) = true /\ mounts (shared st) = 0;
  inv_closed : closed (shared st) <> [] ->
               mounted (shared st) = true \/ 1 <= failedMounts (shared st);
  inv_local : forall j q, nth_error (callers st) j = Some q -> localInv (shared st) q
}.

(** The schedule of two overlapping calls on a mount point that is already
    mounted: caller 0 inserts the channel, caller 1 finds it and waits,
    caller 0 sees the mount point and closes the channel, caller 1 wakes. *)
Definition alreadyMountedSchedule : list (nat * bool) :=
  [(0, true); (0, true); (0, true); (0, true);
   (1, true); (1, true); (1, true);
   (0, true); (0, true); (0, true); (0, true);
   (1, true)].


(** ** Interleavings of [ContainerUmount] calls

    [ContainerUmount] has the statements of [ContainerMount] under the key
    [containerUmountLockID]; it calls [zfsPoolVolumeUmount] when the mount
    point is mounted.  Program counters and shared state are those of the
    mount coordinator: [entry] is the table's entry under the unmount key,
    [AtMount] is the call of [zfsPoolVolumeUmount], [mounts] and
    [failedMounts] count these calls and the failed ones. *)

Definition umountError : string := "Failed to unmount ZFS filesystem: ".

Definition stepCallerUmount (umountOk : bool) (sh : Shared) (p : pc) : option (Shared * pc) :=
  match p with
  | AtLock1 =>
      if lockHeld sh then None
      else Some (mkShared true (entry sh) (closed sh) (nextChan sh) (mounted sh)
                          (mounts sh) (failedMounts sh), AtLookup)
  | AtLookup =>
      match entry sh with
      | Some ch => Some (sh, AtUnlockWait ch)
      | None => Some (sh, AtInsert)
      end
  | AtUnlockWait ch =>
      Some (mkShared false (entry sh) (closed sh) (nextChan sh) (mounted sh)
                     (mounts sh) (failedMounts sh), AtRecv ch)
  | AtRecv ch =>
      if existsb (Nat.eqb ch) (closed sh) then Some (sh, Returned true false None)
      else None
  | AtInsert =>
      Some (mkShared (lockHeld sh) (Some (nextChan sh)) (closed sh) (S (nextChan sh))
                     (mounted sh) (mounts sh) (failedMounts sh), AtUnlockOwn)
  | AtUnlockOwn =>
      Some (mkShared false (entry sh) (closed sh) (nextChan sh) (mounted sh)
                     (mounts sh) (failedMounts sh), AtIsMountPoint)
  | AtIsMountPoint =>
      if mounted sh then Some (sh, AtMount)
      else Some (sh, AtLock2 false None)
  | AtMount =>
      if umountOk then
        Some (mkShared (lockHeld sh) (entry sh) (closed sh) (nextChan sh) false
                       (S (mounts sh)) (failedMounts sh), AtLock2 true None)
      else
        Some (mkShared (lockHeld sh) (entry sh) (closed sh) (nextChan sh) (mounted sh)
                       (S (mounts sh)) (S (failedMounts sh)),
              AtLock2 true (Some umountError))
  | AtLock2 ourUmount imgerr =>
      if lockHeld sh then None
      else Some (mkShared true (entry sh) (closed sh) (nextChan sh) (mounted sh)
                          (mounts sh) (failedMounts sh), AtClose ourUmount imgerr)
  | AtClose ourUmount imgerr =>
      match entry sh with
      | Some ch =>
          Some (mkShared (lockHeld sh) None (ch :: closed sh) (nextChan sh) (mounted sh)
                         (mounts sh) (failedMounts sh), AtUnlock2 ourUmount imgerr)
      | None => Some (sh, AtUnlock2 ourUmount imgerr)
      end
  | AtUnlock2 ourUmount imgerr =>
      Some (mkShared false (entry sh) (closed sh) (nextChan sh) (mounted sh)
                     (mounts sh) (failedMounts sh),
            match imgerr with
            | Some e => Returned false false (Some e)
            | None => Returned false ourUmount None
            end)
  | Returned _ _ _ => None
  end.

Definition stepUmount (i : nat) (umountOk : bool) (st : Sys) : option Sys :=
  match nth_error (callers st) i with
  | None => None
  | Some p =>
      match stepCallerUmount umountOk (shared st) p with
      | None => None
      | Some (sh', p') => Some (mkSys sh' (setNth i p' (callers st)))
      end
  end.

Inductive reachableUmount (st0 : Sys) : Sys -> Prop :=
| reachU_init : reachableUmount st0 st0
| reachU_step st i umountOk st' :
    reachableUmount st0 st -> stepUmount i umountOk st = Some st' -> reachableUmount st0 st'.

(** The mount run an unmount run mirrors: the mounted flag negated, the
    error of [zfsPoolVolumeUmount] replaced by that of [zfsPoolVolumeMount]. *)
Definition flipMounted (sh : Shared) : Shared :=
  mkShared (lockHeld sh) (entry sh) (closed sh) (nextChan sh) (negb (mounted sh))
           (mounts sh) (failedMounts sh).

Definition asMountError (e : error) : error :=
  match e with Some _ => Some mountError | None => None end.

Definition asMount (p : pc) : pc :=
  match p with
  | AtLock2 w e => AtLock2 w (asMountError e)
  | AtClose w e => AtClose w (asMountError e)
  | AtUnlock2 w e => AtUnlock2 w (asMountError e)
  | Returned w d e => Returned w d (asMountError e)
  | _ => p
  end.

Definition mirror (st : Sys) : Sys :=
  mkSys (flipMounted (shared st)) (map asMount (callers st)).

(** Steps a caller at [p] still has before it returns, at most. *)
Definition stepsLeft (p : pc) : nat :=
  match p with
  | AtLock1 => 9
  | AtLookup => 8
  | AtInsert => 7
  | AtUnlockOwn => 6
  | AtIsMountPoint => 5
  | AtMount => 4
  | AtLock2 _ _ => 3
  | AtClose _ _ => 2
  | AtUnlock2 _ _ => 1
  | AtUnlockWait _ => 2
  | AtRecv _ => 1
  | Returned _ _ _ => 0
  end.

Fixpoint totalStepsLeft (l : list pc) : nat :=
  match l with
  | [] => 0
  | p :: r => stepsLeft p + totalStepsLeft r
  end.

Definition midMountState : Sys :=
  mkSys (mkShared true (Some 0) [] 1 false 0 0) [AtMount; AtLookup].




Definition oneWorkerSchedule : list (nat * bool) :=
  [(0, true); (0, true); (0, true); (0, true); (0, true); (0, true);
   (1, true); (1, true); (1, true);
   (0, true); (0, true); (0, true); (1, true)].


Definition failedOpen : Shared := mkShared false (Some 0) [] 1 false 1 1.
Definition failedClosed : Shared := mkShared false None [0] 1 false 1 1.

Definition umountFinal : Sys :=
  mkSys (mkShared false None [0] 1 false 1 0)
        [Returned false true None; Returned true false None].

(** ** Further adapter functions *)

Definition zfsPoolVolumeCreate (s : storageZfs) (path : string) : M error :=
  r <- call (CombinedOutput "zfs" ["create"; "-p"; onDiskPoolName s ++ "/" ++ path]) ;;
  if ok r then ret None
  else ret (Some ("Failed to create ZFS filesystem: " ++ out r)).

Definition snapshotDestroyCmd (s : storageZfs) (path name : string) : Cmd :=
  CombinedOutput "zfs" ["destroy"; "-r"; onDiskPoolName s ++ "/" ++ path ++ "@" ++ name].

Definition zfsPoolVolumeSnapshotDestroy (s : storageZfs) (path name : string) : M error :=
  r <- call (snapshotDestroyCmd s path name) ;;
  if ok r then ret None
  else ret (Some ("Failed to destroy ZFS snapshot: " ++ out r)).

Definition snapshotRenameCmd (s : storageZfs) (path oldName newName : string) : Cmd :=
  CombinedOutput "zfs"
    ["rename"; "-r"; onDiskPoolName s ++ "/" ++ path ++ "@" ++ oldName;
     onDiskPoolName s ++ "/" ++ path ++ "@" ++ newName].

Definition zfsPoolVolumeSnapshotRename (s : storageZfs) (path oldName newName : string)
  : M error :=
  r <- call (snapshotRenameCmd s path oldName newName) ;;
  if ok r then ret None
  else ret (Some ("Failed to rename ZFS snapshot: " ++ out r)).

Definition zfsUmount (poolName path : string) : M error :=
  r <- tryExec "zfs" ["unmount"; poolName ++ "/" ++ path] ;;
  if ok r then ret None
  else ret (Some ("Failed to unmount ZFS filesystem: " ++ out r)).

Definition zfsPoolVolumeUmount (s : storageZfs) (path : string) : M error :=
  zfsUmount (onDiskPoolName s) path.

Definition lxdDatasets : list string :=
  ["containers"; "images"; "snapshots"; "deleted"; "deleted/containers"; "deleted/images"].

(** The loop of [zfsPoolGetUsers] over the sub-volumes. *)
Definition poolUsers (subvols : list string) : list string :=
  filter (fun subvol =>
            StringInSlice (hd EmptyString (Split subvol "/")) lxdDatasets &&
            negb (StringInSlice subvol lxdDatasets))
         subvols.

Definition zfsPoolGetUsers (s : storageZfs) : M (list string * error) :=
  '(subvols, err) <- zfsPoolListSubvolumes s (onDiskPoolName s) ;;
  match err with
  | Some e => ret ([], Some e)
  | None => ret (poolUsers subvols, None)
  end.

(** ** Migration source, after the first phase *)

Definition setStoppedSnapName (d : zfsMigrationSourceDriver) (n : string)
  : zfsMigrationSourceDriver :=
  mkSourceDriver (drv_container d) (drv_snapshots d) (zfsSnapshotNames d) (zfs d)
                 (runningSnapName d) n.

(** [SendAfterCheckpoint] assigns [s.stoppedSnapName]; the driver after the
    call is returned next to the error. *)
Definition SendAfterCheckpoint `{Host} (d : zfsMigrationSourceDriver)
  : M (zfsMigrationSourceDriver * error) :=
  u <- call NewUUID ;;
  let d := setStoppedSnapName d ("migration-send-" ++ out u) in
  err <- zfsPoolVolumeSnapshotCreate (zfs d)
           ("containers/" ++ Name (drv_container d)) (stoppedSnapName d) ;;
  match err with
  | Some e => ret (d, Some e)
  | None =>
      err <- send d (stoppedSnapName d) (runningSnapName d) ;;
      match err with
      | Some e => ret (d, Some e)
      | None => ret (d, None)
      end
  end.

(** [Cleanup] drops the errors of the two destroys. *)
Definition Cleanup (d : zfsMigrationSourceDriver) : M unit :=
  _ <- (if negb (String.eqb (stoppedSnapName d) "") then
          _ <- zfsPoolVolumeSnapshotDestroy (zfs d)
                 ("containers/" ++ Name (drv_container d)) (stoppedSnapName d) ;;
          ret tt
        else ret tt) ;;
  if negb (String.eqb (runningSnapName d) "") then
    _ <- zfsPoolVolumeSnapshotDestroy (zfs d)
           ("containers/" ++ Name (drv_container d)) (runningSnapName d) ;;
    ret tt
  else ret tt.

(** ** Custom storage volumes

    [getStoragePoolVolumeMountPoint] is defined outside this file; it is pure
    and the driver only passes its value on. *)

Section StoragePoolVolume.

Variable getStoragePoolVolumeMountPoint : string -> string -> string.

Definition StoragePoolVolumeDelete (s : storageZfs) : M error :=
  let fs := "custom/" ++ volume_Name s in
  let customPoolVolumeMntPoint := getStoragePoolVolumeMountPoint (pool_Name s) (volume_Name s) in
  check zfsPoolVolumeDestroy s fs ;;
  e <- call (PathExists customPoolVolumeMntPoint) ;;
  if ok e then
    r <- call (RemoveAll customPoolVolumeMntPoint) ;;
    if ok r then ret None else ret (Some (out r))
  else ret None.

(** The deferred function runs [StoragePoolVolumeDelete] on every return
    after the creation of the dataset but the last, and drops its error. *)
Definition StoragePoolVolumeCreate (s : storageZfs) : M error :=
  let fs := "custom/" ++ volume_Name s in
  let customPoolVolumeMntPoint := getStoragePoolVolumeMountPoint (pool_Name s) (volume_Name s) in
  check zfsPoolVolumeCreate s fs ;;
  err <- zfsPoolVolumeSet s fs "mountpoint" customPoolVolumeMntPoint ;;
  match err with
  | Some e => _ <- StoragePoolVolumeDelete s ;; ret (Some e)
  | None =>
      m <- call (IsMountPoint customPoolVolumeMntPoint) ;;
      _ <- (if negb (ok m) then zfsPoolVolumeMount s fs else ret None) ;;
      ret None
  end.

Definition StoragePoolVolumeMount (s : storageZfs) : M (bool * error) :=
  let fs := "custom/" ++ volume_Name s in
  let customPoolVolumeMntPoint := getStoragePoolVolumeMountPoint (pool_Name s) (volume_Name s) in
  m <- call (IsMountPoint customPoolVolumeMntPoint) ;;
  if ok m then ret (false, None)
  else
    err <- zfsPoolVolumeMount s fs ;;
    match err with
    | Some e => ret (false, Some e)
    | None => ret (true, None)
    end.

Definition StoragePoolVolumeUmount (s : storageZfs) : M (bool * error) :=
  let fs := "custom/" ++ volume_Name s in
  let customPoolVolumeMntPoint := getStoragePoolVolumeMountPoint (pool_Name s) (volume_Name s) in
  m <- call (IsMountPoint customPoolVolumeMntPoint) ;;
  if negb (ok m) then ret (false, None)
  else
    err <- zfsPoolVolumeUmount s fs ;;
    match err with
    | Some e => ret (false, Some e)
    | None => ret (true, None)
    end.

End StoragePoolVolume.

(** The LXD name [MigrationSource] loads for the ZFS snapshot [snap]. *)
Definition lxdSnapshotName `{Host} (ct : container) (snap : string) : string :=
  Name ct ++ snapshotDelimiter ++ drop (String.length "snapshot-") snap.

(** A driver on which no migration snapshot was recorded. *)
Definition noMigrationSnapshots (d : zfsMigrationSourceDriver) : Prop :=
  runningSnapName d = "" /\ stoppedSnapName d = "".

(** The datasets the [zfs snapshot -r] commands of a trace name. *)
Fixpoint snapshotTargets (tr : Trace) : list string :=
  match tr with
  | [] => []
  | (CombinedOutput name [verb; flag; target], _) :: rest =>
      if String.eqb name "zfs" && String.eqb verb "snapshot" && String.eqb flag "-r"
      then target :: snapshotTargets rest
      else snapshotTargets rest
  | _ :: rest => snapshotTargets rest
  end.

(** Every event but the last answered without error; the identifier drawn
    by [uuid.NewRandom] has no error to report. *)
Fixpoint okButLast (tr : Trace) : Prop :=
  match tr with
  | [] => True
  | (c, r) :: rest =>
      match rest with
      | [] => True
      | _ => (c = NewUUID \/ ok r = true) /\ okButLast rest
      end
  end.

Definition lastFailed (tr : Trace) : bool :=
  match rev tr with
  | [] => false
  | (_, r) :: _ => negb (ok r)
  end.

Definition destroyCmdOf (target : string) : Cmd :=
  CombinedOutput "zfs" ["destroy"; "-r"; target].

Definition twoSnapshotsOracle : Oracle :=
  fun _ cmd =>
    match cmd with
    | CombinedOutput _ _ =>
        mkResp ("p/containers/c1@snapshot-s1" ++ nl ++ "p/containers/c1@migration-send-x" ++ nl ++
                "p/containers/c1@snapshot-s2" ++ nl) true
    | _ => mkResp "" true
    end.

Definition twoSnapshotsDriver : zfsMigrationSourceDriver :=
  mkSourceDriver c1 ["c1/s1"; "c1/s2"] ["snapshot-s1"; "snapshot-s2"] (emptyZfs "p") "" "".

Definition afterRunning : zfsMigrationSourceDriver :=
  setRunningSnapName twoSnapshotsDriver "migration-send-".

Definition c1Two : container :=
  mkContainer "c1" "/var/lib/lxd/containers/c1" false (["c1/s1"; "c1/s2"], None).

Definition restoreRefused : string :=
  "ZFS can only restore from the latest snapshot. Delete newer snapshots or copy the snapshot into a new container instead.".

(** The paths [zfsPoolVolumeCleanup] acts on: the graveyard, and the
    snapshots of containers that were renamed to [copy-<uuid>]. *)
Definition cleanable (path : string) : bool :=
  HasPrefix path "deleted/" || (HasPrefix path "containers" && Contains path "@copy-").

(** The image [deleted/images/abc] has no clone left and no origin. *)
Definition lastCloneGone : Oracle :=
  fun _ cmd =>
    match cmd with
    | CombinedOutput _ args =>
        if StringInSlice "mountpoint" args then mkResp ("none" ++ nl) true
        else mkResp ("-" ++ nl) true
    | _ => mkResp "" true
    end.

(** The commands whose failure makes [zfsPoolVolumeDestroy] give up. *)
Definition destroyGuard (s : storageZfs) (path : string) (c : Cmd) : Prop :=
  c = getCmd s path "mountpoint" \/ exists p, c = Unmount p.

(** The text of the given lines, each ended by a newline. *)
Fixpoint unlines (lines : list string) : string :=
  match lines with
  | [] => EmptyString
  | l :: rest => l ++ nl ++ unlines rest
  end.

Definition threeSnapshots : Oracle :=
  fun _ _ => mkResp (unlines ["p/containers/c1@snapshot-s1"; "p/containers/c1@copy-77";
                              "p/containers/c1@snapshot-s2"]) true.

Definition warningOracle : Oracle :=
  fun _ _ => mkResp (unlines ["p/containers/c1@snapshot-s1"; "WARNING: pool is degraded"]) true.

(** ** Operations that also call into the file system

    [os.MkdirAll], [os.Symlink] and [shared.PathIsEmpty] are arbitrary
    interactions; of [shared.PathIsEmpty] the driver keeps the flag and drops
    the error. *)

Section FileSystem.

Context `{Host}.
Variable MkdirAll : string -> Z -> M error.
Variable Symlink : string -> string -> M error.
Variable PathIsEmpty : string -> M bool.

(** [if shared.PathExists(p) { err := os.Remove(p); if err != nil { return err } }] *)
Definition removeIfExists (p : string) : M error :=
  e <- call (PathExists p) ;;
  if ok e then
    r <- call (Remove p) ;;
    if ok r then ret None else ret (Some (out r))
  else ret None.

(** The deferred function runs [StoragePoolDelete] on every return after
    [zfsPoolCreate] but the last, and drops its error. *)
Definition StoragePoolCreate (s : storageZfs) : M (storageZfs * error) :=
  '(s, err) <- zfsPoolCreate s ;;
  match err with
  | Some e => ret (s, Some e)
  | None =>
      err <- (check zfsPoolVolumeCreate s "containers" ;;
              check zfsPoolVolumeSet s "containers" "mountpoint" "none" ;;
              check zfsPoolVolumeCreate s "images" ;;
              check zfsPoolVolumeSet s "images" "mountpoint" "none" ;;
              check zfsPoolVolumeCreate s "custom" ;;
              check zfsPoolVolumeSet s "custom" "mountpoint" "none" ;;
              check zfsPoolVolumeCreate s "deleted" ;;
              check zfsPoolVolumeSet s "deleted" "mountpoint" "none" ;;
              check MkdirAll (getStoragePoolMountPoint (pool_Name s)) 493 ;;
              ret None) ;;
      match err with
      | Some e => _ <- StoragePoolDelete s ;; ret (s, Some e)
      | None => ret (s, None)
      end
  end.

Definition ContainerSnapshotDelete (s : storageZfs) (snapshotContainer : container) : M error :=
  let fields := SplitN2 (Name snapshotContainer) snapshotDelimiter in
  let sourceContainerName := hd EmptyString fields in
  match nth_error fields 1 with
  | None => panic
  | Some f1 =>
      let snapName := "snapshot-" ++ f1 in
      exists_ <- zfsPoolVolumeExists s
                   ("containers/" ++ sourceContainerName ++ "@" ++ snapName) ;;
      check (if exists_ then
               '(removable, _) <- zfsPoolVolumeSnapshotRemovable s
                                    ("containers/" ++ sourceContainerName) snapName ;;
               if removable then
                 zfsPoolVolumeSnapshotDestroy s ("containers/" ++ sourceContainerName) snapName
               else
                 u <- call NewUUID ;;
                 zfsPoolVolumeSnapshotRename s ("containers/" ++ sourceContainerName) snapName
                   ("copy-" ++ out u)
             else ret None) ;;
      let snapshotContainerMntPoint :=
        getSnapshotMountPoint (pool_Name s) (Name snapshotContainer) in
      check (e <- call (PathExists snapshotContainerMntPoint) ;;
             if ok e then
               r <- call (RemoveAll snapshotContainerMntPoint) ;;
               if ok r then ret None else ret (Some (out r))
             else ret None) ;;
      let snapshotContainerPath := getSnapshotMountPoint (pool_Name s) sourceContainerName in
      empty <- PathIsEmpty snapshotContainerPath ;;
      check (if empty then
               r <- call (Remove snapshotContainerPath) ;;
               if ok r then removeIfExists (VarPath ["snapshots"; sourceContainerName])
               else ret (Some (out r))
             else ret None) ;;
      check removeIfExists
              (VarPath ["snapshots/" ++ sourceContainerName ++ "/" ++ f1 ++ ".zfs"]) ;;
      let parent := VarPath ["snapshots/" ++ sourceContainerName] in
      empty <- PathIsEmpty parent ;;
      if empty then
        r <- call (Remove parent) ;;
        if ok r then ret None else ret (Some (out r))
      else ret None
  end.

(** The deferred function runs [ContainerSnapshotDelete] on every return
    after the creation of the snapshot but the last, and drops its error. *)
Definition ContainerSnapshotCreate (s : storageZfs) (snapshotContainer sourceContainer : container)
  : M error :=
  let snapshotContainerName := Name snapshotContainer in
  let sourceContainerName := Name sourceContainer in
  let fields := SplitN2 snapshotContainerName snapshotDelimiter in
  let cName := hd EmptyString fields in
  match nth_error fields 1 with
  | None => panic
  | Some f1 =>
      let snapName := "snapshot-" ++ f1 in
      check zfsPoolVolumeSnapshotCreate s ("containers/" ++ cName) snapName ;;
      err <- (let snapshotMntPoint :=
                getSnapshotMountPoint (pool_Name s) snapshotContainerName in
              check (e <- call (PathExists snapshotMntPoint) ;;
                     if negb (ok e) then MkdirAll snapshotMntPoint 448 else ret None) ;;
              let snapshotMntPointSymlinkTarget :=
                VarPath ["storage-pools"; pool_Name s; "snapshots"; volume_Name s] in
              let snapshotMntPointSymlink := VarPath ["snapshots"; sourceContainerName] in
              check (e <- call (PathExists snapshotMntPointSymlink) ;;
                     if negb (ok e)
                     then Symlink snapshotMntPointSymlinkTarget snapshotMntPointSymlink
                     else ret None) ;;
              ret None) ;;
      match err with
      | Some e => _ <- ContainerSnapshotDelete s snapshotContainer ;; ret (Some e)
      | None => ret None
      end
  end.

(** The deferred function of [ContainerSnapshotRename] calls
    [ContainerSnapshotRename] again, with the old name as the new one;
    [depth] bounds the nesting of these calls. *)
Fixpoint ContainerSnapshotRename (depth : nat) (s : storageZfs) (snapshotContainer : container)
    (newName : string) : M error :=
  match depth with
  | O => outOfFuel
  | S d =>
      let oldName := Name snapshotContainer in
      let oldFields := SplitN2 oldName snapshotDelimiter in
      let oldcName := hd EmptyString oldFields in
      match nth_error oldFields 1 with
      | None => panic
      | Some old1 =>
          let oldZfsDatasetName := "snapshot-" ++ old1 in
          match nth_error (SplitN2 newName snapshotDelimiter) 1 with
          | None => panic
          | Some new1 =>
              let newZfsDatasetName := "snapshot-" ++ new1 in
              check (if negb (String.eqb oldZfsDatasetName newZfsDatasetName) then
                       zfsPoolVolumeSnapshotRename s ("containers/" ++ oldcName)
                         oldZfsDatasetName newZfsDatasetName
                     else ret None) ;;
              err <- (check removeIfExists
                              (VarPath ["snapshots/" ++ oldcName ++ "/" ++ old1 ++ ".zfs"]) ;;
                      check removeIfExists (getSnapshotMountPoint (pool_Name s) oldName) ;;
                      let newSnapshotMntPoint := getSnapshotMountPoint (pool_Name s) newName in
                      check (e <- call (PathExists newSnapshotMntPoint) ;;
                             if negb (ok e) then MkdirAll newSnapshotMntPoint 448
                             else ret None) ;;
                      let snapshotMntPointSymlinkTarget :=
                        VarPath ["storage-pools"; pool_Name s; "snapshots"; oldcName] in
                      let snapshotMntPointSymlink := VarPath ["snapshots"; oldcName] in
                      check (e <- call (PathExists snapshotMntPointSymlink) ;;
                             if negb (ok e)
                             then Symlink snapshotMntPointSymlinkTarget snapshotMntPointSymlink
                             else ret None) ;;
                      ret None) ;;
              match err with
              | Some e => _ <- ContainerSnapshotRename d s snapshotContainer oldName ;;
                          ret (Some e)
              | None => ret None
              end
          end
      end
  end.

End FileSystem.

(** The [zfs] commands of a trace, in order. *)
Definition zfsCommands (tr : Trace) : list Cmd :=
  filter (fun c => match zfsVerb c with Some _ => true | None => false end) (map fst tr).

(** The snapshot [c1/s1] exists; [clones] says whether some dataset was
    cloned from it. *)
Definition snapshotOracle (clones : string) : Oracle :=
  fun _ cmd =>
    match cmd with
    | CombinedOutput _ args =>
        if StringInSlice "name" args then mkResp ("p/containers/c1@snapshot-s1" ++ nl) true
        else if StringInSlice "clones" args then mkResp (clones ++ nl) true
        else mkResp "" true
    | NewUUID => mkResp "6ba7b810" true
    | _ => mkResp "" true
    end.

(** Every path exists and no file can be removed. *)
Definition stuckOracle : Oracle :=
  fun _ cmd =>
    match cmd with
    | Remove _ => mkResp "permission denied" false
    | _ => mkResp "" true
    end.

(** The commands that create the four datasets every pool starts with. *)
Definition skeletonCmds (s : storageZfs) : list Cmd :=
  flat_map (fun d => [CombinedOutput "zfs" ["create"; "-p"; onDiskPoolName s ++ "/" ++ d];
                      setCmd s d "mountpoint" "none"])
           ["containers"; "images"; "custom"; "deleted"].

(** A pool [p] on a loop file of one gibibyte. *)
Definition loopPool : storageZfs :=
  mkStorageZfs "" "p" [("size", "1073741824")] "" [] "zfs".

(** No path is a block device; everything else succeeds. *)
Definition loopFileOracle : Oracle :=
  fun _ cmd =>
    match cmd with
    | IsBlockdevPath _ => mkResp "" false
    | _ => mkResp "" true
    end.

(** File-system calls that succeed and touch nothing the driver reads. *)
Definition mkdirOk : string -> Z -> M error := fun _ _ => ret None.
Definition symlinkOk : string -> string -> M error := fun _ _ => ret None.

Definition zpoolCreateCmd (s : storageZfs) (vdev : string) : Cmd :=
  CombinedOutput "zpool"
    ["create";
     if String.eqb (lookup (pool_Config s) "zfs.pool_name") "" then pool_Name s
     else lookup (pool_Config s) "zfs.pool_name";
     vdev; "-f"; "-m"; "none"; "-O"; "compression=on"].

(** What [ContainerDelete] may do to datasets: destroy the container's own
    two datasets or what the graveyard rule allows, unset the mount point of
    its own dataset, and rename that dataset into the graveyard. *)
Definition ownChange `{Host} (s : storageZfs) (c : container) (cmd : Cmd) : Prop :=
  (zfsVerb cmd = Some "destroy" ->
   exists p, cmd = CombinedOutput "zfs" (destroyArgs s p) /\
             (p = "containers/" ++ Name c \/ p = "snapshots/" ++ Name c \/ cleanable p = true)) /\
  (zfsVerb cmd = Some "set" -> cmd = setCmd s ("containers/" ++ Name c) "mountpoint" "none") /\
  (zfsVerb cmd = Some "rename" ->
   exists u, cmd = renameCmd s ("containers/" ++ Name c) ("deleted/containers/" ++ u)).

(** The dataset of [c1] exists, its snapshot [s1] has a clone. *)
Definition clonedOracle : Oracle :=
  fun _ cmd =>
    match cmd with
    | CombinedOutput _ args =>
        if StringInSlice "list" args then mkResp ("p/containers/c1@snapshot-s1" ++ nl) true
        else if StringInSlice "name" args then mkResp ("p/containers/c1" ++ nl) true
        else if StringInSlice "clones" args then mkResp ("p/containers/c2" ++ nl) true
        else if StringInSlice "mountpoint" args then mkResp ("none" ++ nl) true
        else mkResp "" true
    | NewUUID => mkResp "6ba7b810" true
    | PathExists _ => mkResp "" false
    | _ => mkResp "" true
    end.

(** * Properties *)

(** ** Strings *)

Lemma StringInSlice_In (key : string) (l : list string) :
  StringInSlice key l = true <-> In key l.
Proof.
  induction l as [|x r IH]; simpl.
  - split; [discriminate | tauto].
  - rewrite orb_true_iff, String.eqb_eq, IH. tauto.
Qed.

Lemma StringInSlice_not_In (key : string) (l : list string) :
  StringInSlice key l = false <-> ~ In key l.
Proof.
  rewrite <- StringInSlice_In. destruct (StringInSlice key l); split; congruence.
Qed.


Lemma Contains_false_cut (s sep : string) : Contains s sep = false -> cut s sep = None.
Proof.
  induction s as [|c r IH]; simpl; intros E; apply orb_false_iff in E as [E1 E2].
  - rewrite E1. reflexivity.
  - rewrite E1, (IH E2). reflexivity.
Qed.

Lemma SplitN2_no_delimiter (s sep : string) :
  Contains s sep = false -> SplitN2 s sep = [s].
Proof.
  intros E. unfold SplitN2. rewrite (Contains_false_cut _ _ E). reflexivity.
Qed.

(** ** Unchangeable configuration keys *)

Lemma StoragePoolUpdate_error_iff (changedConfig : list string) :
  StoragePoolUpdate changedConfig <> None <->
  exists key, In key poolUnchangeableKeys /\ In key changedConfig.
Proof.
  unfold StoragePoolUpdate, poolUnchangeableKeys, unchangeable.
  split.
  - repeat match goal with
    | H : StringInSlice ?k changedConfig = true |- _ =>
        intros _; exists k; split; [simpl; auto 12 | apply StringInSlice_In; exact H]
    | |- context [StringInSlice ?k changedConfig] =>
        destruct (StringInSlice k changedConfig) eqn:?
    end.
    intros Hne. exfalso. apply Hne. reflexivity.
  - intros (key & Hk & Hin). apply StringInSlice_In in Hin.
    simpl in Hk.
    repeat destruct Hk as [<- | Hk]; try contradiction;
      repeat match goal with
      | |- context [StringInSlice ?k changedConfig] =>
          destruct (StringInSlice k changedConfig) eqn:?
      end; congruence.
Qed.

Lemma StoragePoolVolumeUpdate_error_iff (changedConfig : list string) :
  StoragePoolVolumeUpdate changedConfig <> None <->
  exists key, In key volumeUnchangeableKeys /\ In key changedConfig.
Proof.
  unfold StoragePoolVolumeUpdate, volumeUnchangeableKeys, unchangeable.
  split.
  - repeat match goal with
    | H : StringInSlice ?k changedConfig = true |- _ =>
        intros _; exists k; split; [simpl; auto 12 | apply StringInSlice_In; exact H]
    | |- context [StringInSlice ?k changedConfig] =>
        destruct (StringInSlice k changedConfig) eqn:?
    end.
    intros Hne. exfalso. apply Hne. reflexivity.
  - intros (key & Hk & Hin). apply StringInSlice_In in Hin.
    simpl in Hk.
    repeat destruct Hk as [<- | Hk]; try contradiction;
      repeat match goal with
      | |- context [StringInSlice ?k changedConfig] =>
          destruct (StringInSlice k changedConfig) eqn:?
      end; congruence.
Qed.

(** C6: [StoragePoolUpdate] returns an error exactly when the list of
    changed keys contains one of the nine unchangeable pool keys, and nil
    otherwise; [StoragePoolVolumeUpdate] returns an error exactly when the
    list contains one of the five unchangeable volume keys. *)
Theorem C6_update_rejects_exactly_unchangeable_keys (changedConfig : list string) :
  (StoragePoolUpdate changedConfig <> None <->
     exists key, In key poolUnchangeableKeys /\ In key changedConfig) /\
  (StoragePoolUpdate changedConfig = None <->
     forall key, In key poolUnchangeableKeys -> ~ In key changedConfig) /\
  (StoragePoolVolumeUpdate changedConfig <> None <->
     exists key, In key volumeUnchangeableKeys /\ In key changedConfig) /\
  (StoragePoolVolumeUpdate changedConfig = None <->
     forall key, In key volumeUnchangeableKeys -> ~ In key changedConfig).
Proof.
  pose proof (StoragePoolUpdate_error_iff changedConfig) as HP.
  pose proof (StoragePoolVolumeUpdate_error_iff changedConfig) as HV.
  repeat split; try apply HP; try apply HV.
  - intros E key Hk Hin. apply (proj2 HP); eauto.
  - intros Hall. destruct (StoragePoolUpdate changedConfig) eqn:E; [|reflexivity].
    exfalso. destruct (proj1 HP) as (k & Hk & Hin); [congruence|]. exact (Hall k Hk Hin).
  - intros E key Hk Hin. apply (proj2 HV); eauto.
  - intros Hall. destruct (StoragePoolVolumeUpdate changedConfig) eqn:E; [|reflexivity].
    exfalso. destruct (proj1 HV) as (k & Hk & Hin); [congruence|]. exact (Hall k Hk Hin).
Qed.

(** ** Restore pre-check *)

(** C9: when the container has no snapshot, [ContainerCanRestore] indexes
    [snaps[len(snaps)-1]] at -1: the call does not return (it panics), it
    neither reports an error nor runs anything. *)
Theorem C9_ContainerCanRestore_empty_list_panics `{Host}
    (s : storageZfs) (name path : string) (isSnapshot : bool)
    (sourceContainer : container) (o : Oracle) (h : Trace) :
  ContainerCanRestore s (mkContainer name path isSnapshot ([], None)) sourceContainer o h
  = (Panic, []).
Proof. reflexivity. Qed.

(** With at least one snapshot the call returns. *)
Lemma ContainerCanRestore_returns `{Host}
    (s : storageZfs) (c sourceContainer : container) (o : Oracle) (h : Trace)
    (snaps : list string) :
  Snapshots c = (snaps, None) -> snaps <> [] ->
  exists err, ContainerCanRestore s c sourceContainer o h = (Ret err, []).
Proof.
  intros E Hne. unfold ContainerCanRestore. rewrite E.
  destruct snaps as [|x r]; [contradiction|].
  assert (Hlen : (Z.of_nat (List.length (x :: r)) - 1)%Z = Z.of_nat (List.length r)).
  { simpl List.length. lia. }
  rewrite Hlen.
  assert (Hnth : exists last, nth_error (x :: r) (List.length r) = Some last).
  { destruct (nth_error (x :: r) (List.length r)) eqn:En; eauto.
    apply nth_error_None in En. simpl in En. lia. }
  destruct Hnth as (last & Hnth).
  destruct (Z.of_nat (List.length r)) eqn:Ez; try lia;
    match goal with
    | |- context [nth_error _ ?k] => replace k with (List.length r) by lia
    end;
    rewrite Hnth;
    repeat match goal with |- context [if ?b then _ else _] => destruct b end;
    eexists; reflexivity.
Qed.

(** ** Snapshot start and stop *)

(** C10: when the container name holds no snapshot delimiter,
    [ContainerSnapshotStart] and [ContainerSnapshotStop] return the error
    "Invalid snapshot name: <name>" and emit no event at all: no ZFS
    command, no file-system call. *)
Theorem C10_snapshot_start_stop_invalid_name `{Host}
    (s : storageZfs) (c : container) (o : Oracle) (h : Trace) :
  Contains (Name c) snapshotDelimiter = false ->
  ContainerSnapshotStart s c o h = (Ret (Some ("Invalid snapshot name: " ++ Name c)), []) /\
  ContainerSnapshotStop s c o h = (Ret (Some ("Invalid snapshot name: " ++ Name c)), []).
Proof.
  intros E. unfold ContainerSnapshotStart, ContainerSnapshotStop.
  rewrite (SplitN2_no_delimiter _ _ E). split; reflexivity.
Qed.

Lemma C10_witness :
  Contains (Name (mkContainer "c1" "/var/lib/lxd/containers/c1" false ([], None)))
           (@snapshotDelimiter lxdHost) = false /\
  ContainerSnapshotStart (H := lxdHost) (emptyZfs "p")
    (mkContainer "c1" "/var/lib/lxd/containers/c1" false ([], None))
    (fun _ _ => mkResp "" true) []
  = (Ret (Some "Invalid snapshot name: c1"), []).
Proof.
  split; [reflexivity|].
  apply (C10_snapshot_start_stop_invalid_name (H := lxdHost)). reflexivity.
Defined.

(** ** Decimal rendering and parsing *)

Lemma digit_cases (d : Z) :
  (0 <= d < 10)%Z ->
  d = 0%Z \/ d = 1%Z \/ d = 2%Z \/ d = 3%Z \/ d = 4%Z \/
  d = 5%Z \/ d = 6%Z \/ d = 7%Z \/ d = 8%Z \/ d = 9%Z.
Proof. lia. Qed.

Ltac by_digit d H :=
  destruct (digit_cases d H) as
    [-> | [-> | [-> | [-> | [-> | [-> | [-> | [-> | [-> | ->]]]]]]]]]; reflexivity.

Lemma digit_val_digit_char (d : Z) :
  (0 <= d < 10)%Z -> digit_val (digit_char d) = Some d.
Proof. intros Hd. by_digit d Hd. Qed.

Lemma digit_char_not_sign (d : Z) :
  (0 <= d < 10)%Z ->
  Ascii.eqb (digit_char d) "+"%char = false /\ Ascii.eqb (digit_char d) "-"%char = false.
Proof. intros Hd. split; by_digit d Hd. Qed.

Lemma digit_char_not_nl (d : Z) :
  (0 <= d < 10)%Z -> inCutset (digit_char d) nl = false.
Proof. intros Hd. by_digit d Hd. Qed.

Lemma utoa_fuel_S (f : nat) (n : Z) (acc : string) :
  utoa_fuel (S f) n acc =
    if (n <? 10)%Z then String (digit_char (n mod 10)) acc
    else utoa_fuel f (n / 10) (String (digit_char (n mod 10)) acc).
Proof. reflexivity. Qed.

Lemma parse_digits_String (c : ascii) (r : string) (a : Z) :
  parse_digits (String c r) a =
    match digit_val c with
    | Some d => parse_digits r (10 * a + d)%Z
    | None => None
    end.
Proof. reflexivity. Qed.

Lemma pow2_S (f : nat) : (2 ^ Z.of_nat (S f) = 2 * 2 ^ Z.of_nat f)%Z.
Proof. rewrite Nat2Z.inj_succ, Z.pow_succ_r by lia. reflexivity. Qed.

Lemma parse_utoa_fuel (fuel : nat) :
  forall (n : Z) (acc : string),
    (0 <= n < 2 ^ Z.of_nat (S fuel))%Z ->
    exists m : Z, forall a : Z,
      parse_digits (utoa_fuel (S fuel) n acc) a = parse_digits acc (a * m + n)%Z.
Proof.
  induction fuel as [|f IH]; intros n acc Hn.
  - exists 10%Z. intros a. rewrite pow2_S in Hn. change (2 ^ Z.of_nat 0)%Z with 1%Z in Hn.
    rewrite utoa_fuel_S.
    assert (E : (n <? 10)%Z = true) by (apply Z.ltb_lt; lia).
    rewrite E, Z.mod_small by lia.
    rewrite parse_digits_String, digit_val_digit_char by lia. f_equal. lia.
  - rewrite utoa_fuel_S. destruct (n <? 10)%Z eqn:E.
    + exists 10%Z. intros a. apply Z.ltb_lt in E.
      rewrite Z.mod_small by lia.
      rewrite parse_digits_String, digit_val_digit_char by lia. f_equal. lia.
    + apply Z.ltb_ge in E.
      assert (Hq : (0 <= n / 10 < 2 ^ Z.of_nat (S f))%Z).
      { split; [apply Z.div_pos; lia|].
        apply Z.div_lt_upper_bound; [lia|].
        rewrite pow2_S in Hn. lia. }
      destruct (IH (n / 10)%Z (String (digit_char (n mod 10)) acc) Hq) as (m & Hm).
      exists (10 * m)%Z. intros a. rewrite Hm.
      assert (Hmod : (0 <= n mod 10 < 10)%Z) by (apply Z.mod_pos_bound; lia).
      rewrite parse_digits_String, digit_val_digit_char by exact Hmod. f_equal.
      pose proof (Z.div_mod n 10 ltac:(lia)). lia.
Qed.

Lemma utoa_fuel_head (fuel : nat) :
  forall (n : Z) (acc : string),
    (0 <= n)%Z ->
    exists d r, (0 <= d < 10)%Z /\ utoa_fuel (S fuel) n acc = String (digit_char d) r.
Proof.
  induction fuel as [|f IH]; intros n acc Hn;
    assert (Hmod : (0 <= n mod 10 < 10)%Z) by (apply Z.mod_pos_bound; lia);
    rewrite utoa_fuel_S; destruct (n <? 10)%Z; eauto.
  - exists (n mod 10)%Z, acc. split; [exact Hmod | reflexivity].
  - apply IH. apply Z.div_pos; lia.
Qed.

Lemma utoa_fuel_no_nl (fuel : nat) :
  forall (n : Z) (acc : string),
    (0 <= n)%Z ->
    allChars (fun c => negb (inCutset c nl)) acc = true ->
    allChars (fun c => negb (inCutset c nl)) (utoa_fuel fuel n acc) = true.
Proof.
  induction fuel as [|f IH]; intros n acc Hn Hacc; [exact Hacc|].
  assert (Hmod : (0 <= n mod 10 < 10)%Z) by (apply Z.mod_pos_bound; lia).
  assert (Hacc' : allChars (fun c => negb (inCutset c nl))
                    (String (digit_char (n mod 10)) acc) = true).
  { cbn [allChars]. rewrite (digit_char_not_nl _ Hmod), Hacc. reflexivity. }
  rewrite utoa_fuel_S. destruct (n <? 10)%Z; [exact Hacc'|].
  apply IH; [apply Z.div_pos; lia | exact Hacc'].
Qed.

Lemma log2_fuel (n : Z) : (0 <= n)%Z -> (n < 2 ^ Z.of_nat (S (Z.to_nat (Z.log2 n))))%Z.
Proof.
  intros Hn. rewrite Nat2Z.inj_succ, Z2Nat.id by apply Z.log2_nonneg.
  destruct (Z.eq_dec n 0) as [->|Hnz]; [reflexivity|].
  apply Z.log2_spec. lia.
Qed.

Lemma parse_utoa (n : Z) : (0 <= n)%Z -> parse_unsigned (utoa n) = Some n.
Proof.
  intros Hn. unfold utoa.
  destruct (utoa_fuel_head (Z.to_nat (Z.log2 n)) n EmptyString Hn) as (d & r & _ & E).
  destruct (parse_utoa_fuel (Z.to_nat (Z.log2 n)) n EmptyString) as (m & Hm).
  { split; [exact Hn | apply log2_fuel; exact Hn]. }
  unfold parse_unsigned. rewrite E, <- E, Hm. reflexivity.
Qed.

Lemma ParseInt_minus (r : string) :
  ParseInt (String "-"%char r) =
    match parse_unsigned r with
    | None => None
    | Some un => if (2 ^ 63 <? un)%Z then None else Some (- un)%Z
    end.
Proof. reflexivity. Qed.

Lemma ParseInt_unsigned (c : ascii) (r : string) :
  Ascii.eqb c "+"%char = false -> Ascii.eqb c "-"%char = false ->
  ParseInt (String c r) =
    match parse_unsigned (String c r) with
    | None => None
    | Some un => if (2 ^ 63 <=? un)%Z then None else Some un
    end.
Proof. intros E1 E2. unfold ParseInt. rewrite E1, E2. reflexivity. Qed.

(** Parsing the rendering of a 64-bit integer gives the integer back. *)
Lemma ParseInt_Itoa (n : Z) :
  (int64_min <= n <= int64_max)%Z -> ParseInt (Itoa n) = Some n.
Proof.
  unfold int64_min, int64_max. intros Hn. unfold Itoa.
  destruct (n <? 0)%Z eqn:E.
  - apply Z.ltb_lt in E.
    rewrite ParseInt_minus, parse_utoa by lia.
    assert (E2 : (2 ^ 63 <? - n)%Z = false) by (apply Z.ltb_ge; lia).
    rewrite E2. f_equal. lia.
  - apply Z.ltb_ge in E.
    destruct (utoa_fuel_head (Z.to_nat (Z.log2 n)) n EmptyString E) as (d & r & Hd & Eu).
    pose proof (parse_utoa n E) as Hp.
    unfold utoa in *. rewrite Eu in *.
    destruct (digit_char_not_sign d Hd) as [E1 E2].
    rewrite (ParseInt_unsigned _ _ E1 E2), Hp.
    assert (E3 : (2 ^ 63 <=? n)%Z = false) by (apply Z.leb_gt; lia).
    rewrite E3. reflexivity.
Qed.

Lemma TrimRight_no_cutset (s cutset : string) :
  allChars (fun c => negb (inCutset c cutset)) s = true -> TrimRight s cutset = s.
Proof.
  induction s as [|c r IH]; simpl; intros E; [reflexivity|].
  apply andb_true_iff in E as [Ec Er]. rewrite (IH Er).
  apply negb_true_iff in Ec. rewrite Ec. destruct r; reflexivity.
Qed.

Lemma TrimRight_app_nl (s : string) : TrimRight (s ++ nl) nl = TrimRight s nl.
Proof.
  induction s as [|c r IH]; [reflexivity|].
  simpl. rewrite IH. reflexivity.
Qed.

Lemma Itoa_no_nl (n : Z) : allChars (fun c => negb (inCutset c nl)) (Itoa n) = true.
Proof.
  unfold Itoa, utoa. destruct (n <? 0)%Z eqn:E.
  - apply Z.ltb_lt in E. cbn [allChars]. rewrite utoa_fuel_no_nl by (reflexivity || lia).
    reflexivity.
  - apply Z.ltb_ge in E. apply utoa_fuel_no_nl; [lia | reflexivity].
Qed.

Lemma TrimRight_Itoa_nl (n : Z) : TrimRight (Itoa n ++ nl) nl = Itoa n.
Proof. rewrite TrimRight_app_nl. apply TrimRight_no_cutset, Itoa_no_nl. Qed.

(** ** Quota and usage *)

(** C7: [ContainerSetQuota] runs exactly one command, [zfs set] on
    [containers/<n>], of the property [refquota] when the volume flag
    [zfs.use_refquota] is true and [quota] otherwise; the value is the
    decimal rendering of [size] when it is positive (parsing it gives
    [size] back) and [none] when it is 0.  [ContainerGetUsage] runs exactly
    one command, [zfs get] of [usedbydataset] under the flag and [used]
    otherwise; when the command succeeds it returns the output, stripped of
    trailing newlines, parsed as a 64-bit integer; so the rendering of a
    64-bit [v] followed by a newline is returned as [v]. *)
Theorem C7_quota_and_usage `{Host}
    (s : storageZfs) (c : container) (size : Z) (o : Oracle) (h : Trace) :
  let flag := IsTrue (lookup (volume_Config s) "zfs.use_refquota") in
  let fs := "containers/" ++ Name c in
  (exists value,
      snd (ContainerSetQuota s c size o h) =
        (let cmd := setCmd s fs (if flag then "refquota" else "quota") value in
         [(cmd, o h cmd)]) /\
      (size = 0%Z -> value = "none") /\
      ((0 < size)%Z -> value = Itoa size /\
                       ((size <= int64_max)%Z -> ParseInt value = Some size))) /\
  (let cmd := getCmd s fs (if flag then "usedbydataset" else "used") in
   snd (ContainerGetUsage s c o h) = [(cmd, o h cmd)] /\
   (ok (o h cmd) = true ->
      fst (ContainerGetUsage s c o h) =
        Ret (match ParseInt (TrimRight (out (o h cmd)) nl) with
             | Some v => (v, None)
             | None => ((-1)%Z, Some ("strconv.ParseInt: " ++ TrimRight (out (o h cmd)) nl))
             end)) /\
   (ok (o h cmd) = false ->
      exists e, fst (ContainerGetUsage s c o h) = Ret ((-1)%Z, Some e)) /\
   (forall v, (int64_min <= v <= int64_max)%Z ->
      ok (o h cmd) = true -> out (o h cmd) = Itoa v ++ nl ->
      fst (ContainerGetUsage s c o h) = Ret (v, None))).
Proof.
  intros flag fs. split.
  - exists (if (size >? 0)%Z then Itoa size else "none").
    split; [|split].
    + unfold ContainerSetQuota, orReturn, zfsPoolVolumeSet, bind, call, ret, setCmd.
      fold flag. fold fs.
      destruct flag, (size >? 0)%Z; simpl;
        match goal with |- context [ok ?r] => destruct (ok r) end; reflexivity.
    + intros ->. reflexivity.
    + intros Hpos. assert (E : (size >? 0)%Z = true) by (apply Z.gtb_lt; lia).
      rewrite E. split; [reflexivity|].
      intros Hmax. apply ParseInt_Itoa. unfold int64_min. lia.
  - cbv zeta.
    assert (Hrun : forall property,
      snd (zfsPoolVolumeGet s fs property o h) =
        [(getCmd s fs property, o h (getCmd s fs property))]).
    { intros property. unfold zfsPoolVolumeGet, bind, call, ret, getCmd. simpl.
      match goal with |- context [ok ?r] => destruct (ok r) end; reflexivity. }
    unfold ContainerGetUsage. fold flag. fold fs.
    set (property := if flag then "usedbydataset" else "used").
    replace (if flag then "usedbydataset" else "used") with property
      by reflexivity.
    unfold zfsPoolVolumeGet, bind, call, ret. fold (getCmd s fs property). simpl.
    set (r := o h (getCmd s fs property)).
    split; [|split; [|split]].
    + destruct (ok r); [destruct (ParseInt (TrimRight (out r) nl))|]; reflexivity.
    + intros ->. destruct (ParseInt (TrimRight (out r) nl)); reflexivity.
    + intros ->. eexists. reflexivity.
    + intros v Hv -> Eout. rewrite Eout, TrimRight_Itoa_nl, (ParseInt_Itoa v Hv).
      reflexivity.
Qed.

(** ** Rename with retry *)

Lemma zfsPoolVolumeExists_run (s : storageZfs) (path : string) (o : Oracle) (h : Trace) :
  zfsPoolVolumeExists s path o h =
    (Ret (existsAnswer s path (o h (getCmd s path "name"))),
     [(getCmd s path "name", o h (getCmd s path "name"))]).
Proof.
  unfold zfsPoolVolumeExists, zfsPoolVolumeGet, existsAnswer, bind, call, ret.
  fold (getCmd s path "name"). simpl.
  destruct (ok (o h (getCmd s path "name"))); reflexivity.
Qed.

Lemma last_cons {A} (a : A) (l : list A) (d : A) : last (a :: l) d = last l a.
Proof.
  revert a d. induction l as [|b l IH]; intros a d; [reflexivity|].
  change (last (a :: b :: l) d) with (last (b :: l) d).
  rewrite (IH b d), (IH b a). reflexivity.
Qed.


Lemma bind_unfold {A B} (m : M A) (k : A -> M B) (o : Oracle) (h : Trace) :
  bind m k o h =
    match m o h with
    | (Ret a, e1) => let '(r, e2) := k a o (h ++ e1)%list in (r, (e1 ++ e2)%list)
    | (Panic, e1) => (Panic, e1)
    | (OutOfFuel, e1) => (OutOfFuel, e1)
    end.
Proof. reflexivity. Qed.

Lemma call_unfold (c : Cmd) (o : Oracle) (h : Trace) :
  call c o h = (Ret (o h c), [(c, o h c)]).
Proof. reflexivity. Qed.

Lemma zfsPoolVolumeRenameLoop_S (n : nat) (s : storageZfs) (source dest output : string)
    (o : Oracle) (h : Trace) :
  zfsPoolVolumeRenameLoop (S n) s source dest output o h =
    let r := o h (renameCmd s source dest) in
    let h1 := (h ++ [(renameCmd s source dest, r)])%list in
    if ok r then (Ret None, [(renameCmd s source dest, r)])
    else
      let r1 := o h1 (getCmd s source "name") in
      let h2 := (h1 ++ [(getCmd s source "name", r1)])%list in
      if existsAnswer s source r1 then
        let rs := o h2 (Sleep 500) in
        let '(res, tr) := zfsPoolVolumeRenameLoop n s source dest (out r) o
                            (h2 ++ [(Sleep 500, rs)])%list in
        (res, [(renameCmd s source dest, r); (getCmd s source "name", r1);
               (Sleep 500, rs)] ++ tr)%list
      else
        let r2 := o h2 (getCmd s dest "name") in
        let h3 := (h2 ++ [(getCmd s dest "name", r2)])%list in
        if existsAnswer s dest r2 then
          (Ret None, [(renameCmd s source dest, r); (getCmd s source "name", r1);
                      (getCmd s dest "name", r2)])
        else
          let rs := o h3 (Sleep 500) in
          let '(res, tr) := zfsPoolVolumeRenameLoop n s source dest (out r) o
                              (h3 ++ [(Sleep 500, rs)])%list in
          (res, [(renameCmd s source dest, r); (getCmd s source "name", r1);
                 (getCmd s dest "name", r2); (Sleep 500, rs)] ++ tr)%list.
Proof.
  cbn [zfsPoolVolumeRenameLoop]. cbv zeta.
  rewrite bind_unfold, call_unfold. cbv iota beta.
  destruct (ok (o h (renameCmd s source dest))); [reflexivity|].
  rewrite bind_unfold, bind_unfold, zfsPoolVolumeExists_run. cbv iota beta.
  destruct (existsAnswer s source _); cbn [negb].
  - change (ret false o) with (fun _ : Trace => (Ret false, @nil Event)). cbv iota beta.
    rewrite bind_unfold, call_unfold. cbv iota beta.
    rewrite !app_nil_r. 
    destruct (zfsPoolVolumeRenameLoop n s source dest _ o _) as [res tr].
    reflexivity.
  - rewrite zfsPoolVolumeExists_run. cbv iota beta.
    destruct (existsAnswer s dest _).
    + reflexivity.
    + rewrite bind_unfold, call_unfold. cbv iota beta. cbn [app].
      rewrite <- !app_assoc. cbn [app].
      destruct (zfsPoolVolumeRenameLoop n s source dest _ o _) as [res tr].
      reflexivity.
Qed.

Lemma zfsPoolVolumeRenameLoop_runs (s : storageZfs) (source dest : string) (o : Oracle) :
  forall (n : nat) (output : string) (h : Trace),
  exists (fails : list (Trace * string)) (final : Trace),
    snd (zfsPoolVolumeRenameLoop n s source dest output o h)
      = (List.concat (map fst fails) ++ final)%list /\
    Forall (fun f => renameFailed s source dest (fst f) (snd f)) fails /\
    ((fst (zfsPoolVolumeRenameLoop n s source dest output o h) = Ret None /\
      List.length fails < n /\
      (renameOk s source dest final \/ renameMoved s source dest final)) \/
     (fst (zfsPoolVolumeRenameLoop n s source dest output o h)
        = Ret (Some ("Failed to rename ZFS filesystem: " ++ last (map snd fails) output)) /\
      List.length fails = n /\ final = [])).
Proof.
  induction n as [|n IH]; intros output h.
  - exists [], []. split; [reflexivity|]. split; [constructor|].
    right. repeat split.
  - rewrite zfsPoolVolumeRenameLoop_S. cbv zeta.
    set (r := o h (renameCmd s source dest)).
    set (h1 := (h ++ [(renameCmd s source dest, r)])%list).
    set (r1 := o h1 (getCmd s source "name")).
    set (h2 := (h1 ++ [(getCmd s source "name", r1)])%list).
    destruct (ok r) eqn:Eok.
    { exists [], [(renameCmd s source dest, r)].
      split; [reflexivity|]. split; [constructor|]. left.
      split; [reflexivity|]. split; [simpl; lia|]. left. exists r. auto. }
    destruct (existsAnswer s source r1) eqn:E1.
    + set (rs := o h2 (Sleep 500)).
      destruct (IH (out r) (h2 ++ [(Sleep 500, rs)])%list)
        as (fails & final & Htr & Hall & Hres).
      destruct (zfsPoolVolumeRenameLoop n s source dest (out r) o
                  (h2 ++ [(Sleep 500, rs)])%list) as [res tr].
      cbn [fst snd] in *. subst tr.
      exists (([(renameCmd s source dest, r); (getCmd s source "name", r1);
                (Sleep 500, rs)], out r) :: fails), final.
      split; [reflexivity|]. split.
      { constructor; [|exact Hall]. exists r, r1, rs. repeat split; auto. }
      destruct Hres as [(Hr & Hlen & Hfin) | (Hr & Hlen & Hfin)].
      * left. split; [exact Hr|]. split; [simpl; lia | exact Hfin].
      * right. cbn [map snd]. rewrite last_cons.
        split; [exact Hr|]. split; [simpl; lia | exact Hfin].
    + set (r2 := o h2 (getCmd s dest "name")).
      set (h3 := (h2 ++ [(getCmd s dest "name", r2)])%list).
      destruct (existsAnswer s dest r2) eqn:E2.
      { exists [], [(renameCmd s source dest, r); (getCmd s source "name", r1);
                    (getCmd s dest "name", r2)].
        split; [reflexivity|]. split; [constructor|]. left.
        split; [reflexivity|]. split; [simpl; lia|]. right. exists r, r1, r2. auto. }
      set (rs := o h3 (Sleep 500)).
      destruct (IH (out r) (h3 ++ [(Sleep 500, rs)])%list)
        as (fails & final & Htr & Hall & Hres).
      destruct (zfsPoolVolumeRenameLoop n s source dest (out r) o
                  (h3 ++ [(Sleep 500, rs)])%list) as [res tr].
      cbn [fst snd] in *. subst tr.
      exists (([(renameCmd s source dest, r); (getCmd s source "name", r1);
                (getCmd s dest "name", r2); (Sleep 500, rs)], out r) :: fails), final.
      split; [reflexivity|]. split.
      { constructor; [|exact Hall]. exists r, r1, rs. repeat split; auto.
        right. exists r2. auto. }
      destruct Hres as [(Hr & Hlen & Hfin) | (Hr & Hlen & Hfin)].
      * left. split; [exact Hr|]. split; [simpl; lia | exact Hfin].
      * right. cbn [map snd]. rewrite last_cons.
        split; [exact Hr|]. split; [simpl; lia | exact Hfin].
Qed.

(** C8: [zfsPoolVolumeRename] always returns.  Its events are a sequence
    of failed rounds (a [zfs rename] that fails, the existence checks
    showing that the datasets have not moved, a 500 ms sleep), followed
    either by a final round that makes it return nil -- an invocation that
    succeeds, or one that fails while the source no longer exists and the
    destination does -- after fewer than 20 failed rounds, or by nothing
    after exactly 20 failed rounds, in which case the error carries the
    output of the last invocation. *)
Theorem C8_rename_retries (s : storageZfs) (source dest : string) (o : Oracle) (h : Trace) :
  exists (fails : list (Trace * string)) (final : Trace),
    snd (zfsPoolVolumeRename s source dest o h)
      = (List.concat (map fst fails) ++ final)%list /\
    Forall (fun f => renameFailed s source dest (fst f) (snd f)) fails /\
    ((fst (zfsPoolVolumeRename s source dest o h) = Ret None /\
      List.length fails < 20 /\
      (renameOk s source dest final \/ renameMoved s source dest final)) \/
     (fst (zfsPoolVolumeRename s source dest o h)
        = Ret (Some ("Failed to rename ZFS filesystem: " ++ last (map snd fails) "")) /\
      List.length fails = 20 /\ final = [])).
Proof. apply zfsPoolVolumeRenameLoop_runs. Qed.

(** ** Pool deletion *)

Lemma lookup_store (m : list (string * string)) (k v : string) :
  lookup (store m k v) k = v.
Proof.
  induction m as [|[k' v'] m IH]; simpl.
  - rewrite String.eqb_refl. reflexivity.
  - destruct (String.eqb k' k) eqn:E; simpl.
    + rewrite String.eqb_refl. reflexivity.
    + rewrite E. exact IH.
Qed.

Lemma StoragePoolDelete_tail `{Host} (s : storageZfs) (o : Oracle) (h : Trace) :
  (e <- call (PathExists (getStoragePoolMountPoint (pool_Name s))) ;;
   if ok e then
     r <- call (RemoveAll (getStoragePoolMountPoint (pool_Name s))) ;;
     if ok r then ret None else ret (Some (out r))
   else ret None) o h = removeMountPoint s o h.
Proof.
  unfold removeMountPoint. rewrite bind_unfold, call_unfold. cbv iota beta zeta.
  destruct (ok (o h (PathExists _))); [|reflexivity].
  rewrite bind_unfold, call_unfold. cbv iota beta.
  destruct (ok (o _ (RemoveAll _))); reflexivity.
Qed.

Lemma StoragePoolDelete_dataset_path `{Host} (s : storageZfs) (o : Oracle) (h : Trace) :
  Contains (dataset s) "/" = true ->
  StoragePoolDelete s o h = removeMountPoint s o h.
Proof.
  intros E. unfold StoragePoolDelete, orReturn.
  assert (Ed : String.eqb (dataset s) "" = false).
  { destruct (dataset s); [discriminate E | reflexivity]. }
  rewrite Ed, E. cbn [negb orb andb].
  rewrite bind_unfold. change (ret None o h) with (@Ret error None, @nil Event).
  cbv iota beta. rewrite app_nil_r, StoragePoolDelete_tail.
  destruct (removeMountPoint s o h) as [res tr]. reflexivity.
Qed.

Lemma zfsPoolDelete_run (s : storageZfs) (o : Oracle) (h : Trace) :
  zfsPoolDelete s o h =
    let rd := o h (zpoolDestroyCmd s) in
    let vdev := lookup (pool_Config s) "source" in
    let h1 := (h ++ [(zpoolDestroyCmd s, rd)])%list in
    let rb := o h1 (IsBlockdevPath vdev) in
    if ok rd then
      if IsAbs vdev then
        if negb (ok rb) then
          (Ret None, [(zpoolDestroyCmd s, rd); (IsBlockdevPath vdev, rb);
                      (RemoveAll vdev,
                       o (h1 ++ [(IsBlockdevPath vdev, rb)])%list (RemoveAll vdev))])
        else (Ret None, [(zpoolDestroyCmd s, rd); (IsBlockdevPath vdev, rb)])
      else (Ret None, [(zpoolDestroyCmd s, rd)])
    else (Ret (Some ("Failed to delete the ZFS pool: " ++ out rd)), [(zpoolDestroyCmd s, rd)]).
Proof.
  unfold zfsPoolDelete. cbv zeta. rewrite bind_unfold, call_unfold. cbv iota beta.
  destruct (ok (o h (zpoolDestroyCmd s))); [|reflexivity].
  destruct (IsAbs _); [|reflexivity].
  rewrite bind_unfold, call_unfold. cbv iota beta.
  destruct (ok (o _ (IsBlockdevPath _))); cbn [negb]; [reflexivity|].
  rewrite bind_unfold, call_unfold. reflexivity.
Qed.

Lemma StoragePoolDelete_owned_pool `{Host} (s : storageZfs) (o : Oracle) (h : Trace) :
  Contains (dataset s) "/" = false ->
  StoragePoolDelete s o h =
    match zfsPoolDelete s o h with
    | (Ret None, e1) =>
        let '(r, e2) := removeMountPoint s o (h ++ e1)%list in (r, (e1 ++ e2)%list)
    | (Ret (Some e), e1) => (Ret (Some e), e1)
    | (Panic, e1) => (Panic, e1)
    | (OutOfFuel, e1) => (OutOfFuel, e1)
    end.
Proof.
  intros E. unfold StoragePoolDelete, orReturn.
  assert (G : String.eqb (dataset s) "" ||
              negb (String.eqb (dataset s) "") && negb (Contains (dataset s) "/") = true).
  { rewrite E. destruct (String.eqb (dataset s) ""); reflexivity. }
  rewrite G. rewrite bind_unfold.
  destruct (zfsPoolDelete s o h) as [[[e|]| |] e1]; try reflexivity.
  - change (ret (Some e) o (h ++ e1)%list) with (@Ret error (Some e), @nil Event).
    cbv iota beta. rewrite app_nil_r. reflexivity.
  - rewrite StoragePoolDelete_tail. reflexivity.
Qed.

Lemma removeMountPoint_events `{Host} (s : storageZfs) (o : Oracle) (h : Trace) (ev : Event) :
  In ev (snd (removeMountPoint s o h)) ->
  fst ev = PathExists (getStoragePoolMountPoint (pool_Name s)) \/
  fst ev = RemoveAll (getStoragePoolMountPoint (pool_Name s)).
Proof.
  unfold removeMountPoint. cbv zeta.
  destruct (ok (o h (PathExists _))); simpl; intros Hin;
    repeat destruct Hin as [<- | Hin]; auto; contradiction.
Qed.

Lemma IsAbs_app (p q : string) : IsAbs p = true -> IsAbs (p ++ q) = true.
Proof.
  unfold IsAbs, HasPrefix. destruct p as [|c p]; [discriminate|].
  simpl. rewrite !andb_true_r. auto.
Qed.

Lemma zfsPoolCreate_loop_file `{Host} (s s' : storageZfs) (o : Oracle) (h tr : Trace) :
  let vdev := filepathJoin (VarPath ["disks"]) (pool_Name s) in
  lookup (pool_Config s) "source" = "" ->
  IsAbs vdev = true ->
  ok (o h (IsBlockdevPath vdev)) = false ->
  zfsPoolCreate s o h = (Ret (s', None), tr) ->
  lookup (pool_Config s') "source" = vdev ++ ".img" /\
  dataset s' = dataset s /\ pool_Name s' = pool_Name s /\
  In (Create (vdev ++ ".img")) (map fst tr).
Proof.
  intros vdev Esrc Eabs Eblk. unfold zfsPoolCreate. rewrite Esrc. cbn [String.eqb].
  fold vdev. rewrite Eabs. cbn [negb].
  rewrite bind_unfold, call_unfold. cbv iota beta. rewrite Eblk. cbn [negb].
  rewrite bind_unfold, call_unfold. cbv iota beta.
  destruct (ok (o _ (Create _))); cbn [negb]; [|discriminate].
  rewrite bind_unfold, call_unfold. cbv iota beta.
  destruct (ok (o _ (Chmod _ _))); cbn [negb]; [|discriminate].
  destruct (ParseInt _); [|discriminate].
  rewrite bind_unfold, call_unfold. cbv iota beta.
  destruct (ok (o _ (Truncate _ _))); cbn [negb]; [|discriminate].
  unfold zpoolCreate. rewrite bind_unfold, call_unfold. cbv iota beta.
  destruct (ok (o _ (CombinedOutput _ _))); [|discriminate].
  intros E. injection E as <- <-.
  cbn [setSource pool_Config dataset pool_Name]. rewrite lookup_store.
  repeat split. simpl. auto.
Qed.

(** C4 as stated fails: a relative source without a slash, such as the
    name of an existing pool, is taken as the dataset that all operations
    prefix with, and yet [StoragePoolDelete] runs [zpool destroy]. *)
Lemma C4_counterexample_bare_pool_name :
  dataset tankPool = "tank" /\
  onDiskPoolName tankPool = "tank" /\
  In (CombinedOutput "zpool" ["destroy"; "-f"; "default"])
     (map fst (snd (run (StoragePoolDelete (H := lxdHost) tankPool) yesOracle))).
Proof. repeat split. vm_compute. auto. Qed.

(** C4 (amended): when the dataset given as source contains a slash,
    [StoragePoolDelete] runs no sub-process at all, in particular no
    [zpool destroy]; otherwise (no dataset, or a bare pool name) it runs
    [zpool destroy].  In that case, once [zpool destroy] has succeeded, a
    source that is an absolute path and not a block device is removed;
    that is the source [zfsPoolCreate] records for a loop file.  When the
    source is a block device or not an absolute path, the only path
    removed is the pool's mount point. *)
Theorem C4_pool_delete `{Host} (s : storageZfs) (o : Oracle) (h : Trace) :
  let tr := snd (StoragePoolDelete s o h) in
  let vdev := lookup (pool_Config s) "source" in
  let rd := o h (zpoolDestroyCmd s) in
  let rb := o (h ++ [(zpoolDestroyCmd s, rd)])%list (IsBlockdevPath vdev) in
  (Contains (dataset s) "/" = true ->
     forall ev, In ev tr -> forall name args, fst ev <> CombinedOutput name args) /\
  (Contains (dataset s) "/" = false -> In (zpoolDestroyCmd s, rd) tr) /\
  (Contains (dataset s) "/" = false -> ok rd = true ->
     IsAbs vdev = true -> ok rb = false -> In (RemoveAll vdev) (map fst tr)) /\
  (IsAbs vdev = false \/ ok rb = true ->
     forall p, In (RemoveAll p) (map fst tr) -> p = getStoragePoolMountPoint (pool_Name s)) /\
  (forall s0 s' h0 tr0,
     let file := filepathJoin (VarPath ["disks"]) (pool_Name s0) in
     lookup (pool_Config s0) "source" = "" -> IsAbs file = true ->
     ok (o h0 (IsBlockdevPath file)) = false ->
     zfsPoolCreate s0 o h0 = (Ret (s', None), tr0) ->
     lookup (pool_Config s') "source" = file ++ ".img" /\
     IsAbs (lookup (pool_Config s') "source") = true /\
     In (Create (file ++ ".img")) (map fst tr0)).
Proof.
  intros tr vdev rd rb. repeat apply conj.
  - intros E ev Hin name args. subst tr.
    rewrite (StoragePoolDelete_dataset_path _ _ _ E) in Hin.
    destruct (removeMountPoint_events _ _ _ _ Hin) as [-> | ->]; discriminate.
  - intros E. subst tr. rewrite (StoragePoolDelete_owned_pool _ _ _ E), zfsPoolDelete_run.
    cbv zeta. fold rd. fold vdev. fold rb.
    destruct (ok rd); [destruct (IsAbs vdev); [destruct (ok rb)|]|]; cbn [negb];
      try destruct (removeMountPoint _ _ _); simpl; auto.
  - intros E Hd Ha Hb. subst tr.
    rewrite (StoragePoolDelete_owned_pool _ _ _ E), zfsPoolDelete_run.
    cbv zeta. fold rd. fold vdev. fold rb. rewrite Hd, Ha, Hb. cbn [negb].
    destruct (removeMountPoint _ _ _). simpl. auto.
  - intros Hsrc p Hin. subst tr.
    assert (Hmnt : forall h' ev, In ev (snd (removeMountPoint s o h')) ->
                     fst ev = RemoveAll p -> p = getStoragePoolMountPoint (pool_Name s)).
    { intros h' ev Hev Ep.
      destruct (removeMountPoint_events _ _ _ _ Hev) as [E1 | E1];
        rewrite E1 in Ep; congruence. }
    apply in_map_iff in Hin as (ev & Eev & Hin).
    destruct (Contains (dataset s) "/") eqn:E.
    + rewrite (StoragePoolDelete_dataset_path _ _ _ E) in Hin. eauto.
    + rewrite (StoragePoolDelete_owned_pool _ _ _ E), zfsPoolDelete_run in Hin.
      cbv zeta in Hin. fold rd in Hin. fold vdev in Hin. fold rb in Hin.
      destruct (ok rd).
      2:{ simpl in Hin. destruct Hin as [<- | []]. discriminate. }
      destruct (IsAbs vdev) eqn:Ha.
      * destruct Hsrc as [Hsrc | Hsrc]; [discriminate|]. rewrite Hsrc in Hin.
        cbn [negb] in Hin.
        destruct (removeMountPoint s o _) as [res tr'] eqn:Er.
        cbn [snd] in Hin. apply in_app_or in Hin as [Hin | Hin].
        -- simpl in Hin. destruct Hin as [<- | [<- | []]]; discriminate.
        -- eapply (Hmnt _ ev); [erewrite Er; exact Hin | exact Eev].
      * destruct (removeMountPoint s o _) as [res tr'] eqn:Er.
        cbn [snd] in Hin. apply in_app_or in Hin as [Hin | Hin].
        -- simpl in Hin. destruct Hin as [<- | []]. discriminate.
        -- eapply (Hmnt _ ev); [erewrite Er; exact Hin | exact Eev].
  - intros s0 s' h0 tr0 file Esrc Eabs Eblk Erun.
    destruct (zfsPoolCreate_loop_file s0 s' o h0 tr0 Esrc Eabs Eblk Erun)
      as (E1 & _ & _ & E2).
    repeat split; [exact E1 | | exact E2].
    rewrite E1. apply IsAbs_app. exact Eabs.
Qed.

(** A loop-file pool: created from an empty source, then deleted. *)
Lemma C4_witness_loop_file :
  let s := mkStorageZfs "" "p" [("size", "1073741824")] "" [] "zfs" in
  let o : Oracle := fun _ c =>
    match c with
    | IsBlockdevPath _ => mkResp "" false
    | _ => mkResp "" true
    end in
  exists s' tr0,
    zfsPoolCreate (H := lxdHost) s o [] = (Ret (s', None), tr0) /\
    lookup (pool_Config s') "source" = "/var/lib/lxd/disks/p.img" /\
    In (RemoveAll "/var/lib/lxd/disks/p.img")
       (map fst (snd (StoragePoolDelete (H := lxdHost) s' o []))).
Proof.
  intros s o.
  destruct (zfsPoolCreate (H := lxdHost) s o []) as [[[s' [e|]]| |] tr0] eqn:Erun;
    try (vm_compute in Erun; discriminate).
  exists s', tr0. split; [reflexivity|].
  destruct (C4_pool_delete (H := lxdHost) s' o []) as (_ & _ & Hrm & _ & Hcreate).
  destruct (Hcreate s s' [] tr0 eq_refl eq_refl eq_refl Erun) as (Esrc & Eabs & _).
  change (filepathJoin (VarPath ["disks"]) (pool_Name s) ++ ".img")
    with "/var/lib/lxd/disks/p.img" in Esrc.
  split; [exact Esrc|]. rewrite <- Esrc.
  assert (Ed : dataset s' = "").
  { vm_compute in Erun. injection Erun as <- _. reflexivity. }
  apply Hrm.
  - rewrite Ed. reflexivity.
  - reflexivity.
  - exact Eabs.
  - reflexivity.
Defined.

(** ** Migration source: the order of the sends *)

Lemma ret_unfold {A} (a : A) (o : Oracle) (h : Trace) : ret a o h = (Ret a, []).
Proof. reflexivity. Qed.

Lemma if_run {A} (b : bool) (f g : M A) (o : Oracle) (h : Trace) :
  (if b then f else g) o h = if b then f o h else g o h.
Proof. destruct b; reflexivity. Qed.

(** One step of symbolic execution of a driver operation. *)
Ltac mstep :=
  first [ rewrite bind_unfold | rewrite call_unfold | rewrite ret_unfold | rewrite if_run ];
  cbv iota beta zeta.

Lemma sendArgs_sendCmd `{Host} (d : zfsMigrationSourceDriver) (zfsName zfsParent : string) :
  Contains (Name (drv_container d)) snapshotDelimiter = false ->
  SendStream "zfs" (sendArgs d zfsName zfsParent)
  = sendCmd (onDiskPoolName (zfs d)) (Name (drv_container d)) zfsName (parentOf zfsParent).
Proof.
  intros E. unfold sendArgs, sendCmd, parentOf.
  rewrite (SplitN2_no_delimiter _ _ E). cbn [hd].
  destruct (String.eqb zfsParent ""); reflexivity.
Qed.

Lemma send_run `{Host} (d : zfsMigrationSourceDriver) (zfsName zfsParent : string)
    (o : Oracle) (h : Trace) :
  send d zfsName zfsParent o h =
    let r := o h (SendStream "zfs" (sendArgs d zfsName zfsParent)) in
    (Ret (if ok r then None else Some (out r)),
     [(SendStream "zfs" (sendArgs d zfsName zfsParent), r)]).
Proof.
  unfold send. rewrite bind_unfold, call_unfold. cbv iota beta zeta.
  destruct (ok _); reflexivity.
Qed.

Lemma parentOf_nonempty (n : string) : n <> "" -> parentOf n = Some n.
Proof.
  intros Hn. unfold parentOf. destruct (String.eqb_spec n ""); [contradiction | reflexivity].
Qed.

Lemma parentOf_last (snaps : list string) :
  Forall (fun n => n <> "") snaps ->
  forall d, parentOf (last snaps d) = lastOf (parentOf d) snaps.
Proof.
  induction 1 as [|snap rest Hsnap Hrest IH]; intros d; [reflexivity|].
  rewrite last_cons. cbn [lastOf]. rewrite IH, (parentOf_nonempty _ Hsnap). reflexivity.
Qed.

Lemma sendSnapshots_all_ok `{Host} (d : zfsMigrationSourceDriver) (o : Oracle) :
  Contains (Name (drv_container d)) snapshotDelimiter = false ->
  (forall h c, ok (o h c) = true) ->
  forall (snaps : list string),
    Forall (fun n => n <> "") snaps ->
    forall (prev lastSnap : string) (h : Trace),
    exists tr,
      sendSnapshots d prev lastSnap snaps o h = (Ret (last snaps lastSnap, None), tr) /\
      map fst tr = expectedSends (onDiskPoolName (zfs d)) (Name (drv_container d))
                     (parentOf prev) snaps.
Proof.
  intros Ename Hok. induction 1 as [|snap rest Hsnap Hrest IH]; intros prev lastSnap h.
  - exists []. split; reflexivity.
  - cbn [sendSnapshots]. rewrite bind_unfold, send_run. cbv zeta iota beta.
    rewrite Hok.
    destruct (IH snap snap (h ++ [(SendStream "zfs" (sendArgs d snap prev),
                                   o h (SendStream "zfs" (sendArgs d snap prev)))])%list)
      as (tr & Erun & Etr).
    rewrite Erun, last_cons. eexists. split; [reflexivity|].
    cbn [map fst app expectedSends].
    rewrite Etr, (sendArgs_sendCmd _ _ _ Ename), (parentOf_nonempty _ Hsnap). reflexivity.
Qed.

(** C5: for a container that is not a snapshot, when every command
    succeeds, [SendWhileRunning] runs [zfs send] for each snapshot name in
    the order of the list, the first without parent and each later one
    with [-i] and its predecessor; then it draws a UUID, creates the
    snapshot [migration-send-<uuid>] on the container and sends it with
    [-i] and the last snapshot name (without parent when the list is
    empty); it returns nil and the name is stored as [runningSnapName]. *)
Theorem C5_SendWhileRunning_order `{Host} (d : zfsMigrationSourceDriver)
    (o : Oracle) (h : Trace) :
  IsSnapshot (drv_container d) = false ->
  Contains (Name (drv_container d)) snapshotDelimiter = false ->
  Forall (fun n => n <> "") (zfsSnapshotNames d) ->
  (forall h c, ok (o h c) = true) ->
  let pool := onDiskPoolName (zfs d) in
  let name := Name (drv_container d) in
  exists d' sends ru rc rs,
    SendWhileRunning d o h =
      (Ret (d', None),
       (sends ++ [(NewUUID, ru);
                  (snapshotCreateCmd (zfs d) ("containers/" ++ name)
                     ("migration-send-" ++ out ru), rc);
                  (sendCmd pool name ("migration-send-" ++ out ru)
                     (lastOf None (zfsSnapshotNames d)), rs)])%list) /\
    map fst sends = expectedSends pool name None (zfsSnapshotNames d) /\
    runningSnapName d' = "migration-send-" ++ out ru /\
    zfsSnapshotNames d' = zfsSnapshotNames d /\ stoppedSnapName d' = stoppedSnapName d.
Proof.
  intros Esnap Ename Hne Hok pool name.
  unfold SendWhileRunning. rewrite Esnap, bind_unfold.
  destruct (sendSnapshots_all_ok d o Ename Hok _ Hne "" "" h) as (sends & Erun & Esends).
  rewrite Erun. cbv iota beta.
  mstep. mstep.
  set (ru := o (h ++ sends)%list NewUUID).
  set (d' := setRunningSnapName d ("migration-send-" ++ out ru)).
  unfold zfsPoolVolumeSnapshotCreate.
  mstep. mstep. mstep. mstep. rewrite Hok. mstep.
  mstep. rewrite send_run. cbv iota beta zeta. rewrite Hok. mstep.
  assert (Ename' : Contains (Name (drv_container d')) snapshotDelimiter = false) by exact Ename.
  rewrite (sendArgs_sendCmd d' _ _ Ename'), (parentOf_last _ Hne "").
  eexists d', sends, ru, _, _. split; [|repeat split; exact Esends].
  rewrite !app_nil_r. reflexivity.
Qed.

Lemma C5_witness :
  let c := mkContainer "c1" "/var/lib/lxd/containers/c1" false ([], None) in
  let d := mkSourceDriver c ["c1/s1"; "c1/s2"] ["snapshot-s1"; "snapshot-s2"]
             (emptyZfs "p") "" "" in
  let o : Oracle := fun _ cmd =>
    match cmd with NewUUID => mkResp "1b4e28ba" true | _ => mkResp "" true end in
  exists d',
    fst (SendWhileRunning (H := lxdHost) d o []) = Ret (d', None) /\
    runningSnapName d' = "migration-send-1b4e28ba" /\
    map fst (snd (SendWhileRunning (H := lxdHost) d o [])) =
      [SendStream "zfs" ["send"; "p/containers/c1@snapshot-s1"];
       SendStream "zfs" ["send"; "p/containers/c1@snapshot-s2";
                         "-i"; "p/containers/c1@snapshot-s1"];
       NewUUID;
       CombinedOutput "zfs" ["snapshot"; "-r"; "p/containers/c1@migration-send-1b4e28ba"];
       SendStream "zfs" ["send"; "p/containers/c1@migration-send-1b4e28ba";
                         "-i"; "p/containers/c1@snapshot-s2"]].
Proof.
  intros c d o.
  destruct (C5_SendWhileRunning_order (H := lxdHost) d o []) as (d' & sends & ru & rc & rs & E & _).
  - reflexivity.
  - reflexivity.
  - repeat constructor; discriminate.
  - intros h cmd. destruct cmd; reflexivity.
  - exists d'. split; [rewrite E; reflexivity|].
    vm_compute in E. injection E as <- _. split; reflexivity.
Defined.

Lemma loadSnapshots_names `{Host} (ct : container) (o : Oracle) :
  forall (snapshots : list string) (d d' : zfsMigrationSourceDriver) (h tr : Trace),
    Forall (fun n => HasPrefix n "snapshot-" = true) (zfsSnapshotNames d) ->
    loadSnapshots ct d snapshots o h = (Ret (Some d', None), tr) ->
    Forall (fun n => HasPrefix n "snapshot-" = true) (zfsSnapshotNames d').
Proof.
  induction snapshots as [|snap rest IH]; intros d d' h tr Hd.
  - cbn [loadSnapshots]. rewrite ret_unfold. intros E. injection E as <- _. exact Hd.
  - cbn [loadSnapshots]. destruct (HasPrefix snap "snapshot-") eqn:Ep; cbn [negb].
    + mstep. mstep. destruct (ok (o h _)).
      * destruct (loadSnapshots ct _ rest o _) as [res tr'] eqn:El.
        intros E. injection E as -> _.
        eapply IH; [|exact El]. cbn [zfsSnapshotNames].
        apply Forall_app. split; [exact Hd | constructor; [exact Ep | constructor]].
      * rewrite ret_unfold. discriminate.
    + apply IH. exact Hd.
Qed.

(** The names kept by [MigrationSource] all start with [snapshot-]; in
    particular none is empty. *)
Lemma MigrationSource_names `{Host} (s : storageZfs) (ct : container) (o : Oracle)
    (h tr : Trace) (d : zfsMigrationSourceDriver) :
  MigrationSource s ct o h = (Ret (Some d, None), tr) ->
  Forall (fun n => HasPrefix n "snapshot-" = true) (zfsSnapshotNames d) /\
  Forall (fun n => n <> "") (zfsSnapshotNames d).
Proof.
  intros E.
  assert (Hp : Forall (fun n => HasPrefix n "snapshot-" = true) (zfsSnapshotNames d)).
  { revert E. unfold MigrationSource. destruct (IsSnapshot ct).
    - rewrite ret_unfold. intros E. injection E as <- _. constructor.
    - mstep. destruct (zfsPoolListSnapshots s _ o h) as [[[snaps [e|]]| |] e1]; try discriminate.
      destruct (loadSnapshots ct _ snaps o _) as [res tr'] eqn:El.
      intros E. injection E as -> _.
      eapply loadSnapshots_names; [|exact El]. constructor. }
  split; [exact Hp|].
  eapply Forall_impl; [|exact Hp]. intros n Hn ->. discriminate Hn.
Qed.

(** ** Restore *)

Lemma tryExecFrom_ok (n : nat) (last : Resp) (name : string) (args : list string)
    (o : Oracle) (h : Trace) :
  ok (o h (CombinedOutput name args)) = true ->
  tryExecFrom (S n) last name args o h =
    (Ret (o h (CombinedOutput name args)),
     [(CombinedOutput name args, o h (CombinedOutput name args))]).
Proof.
  intros E. cbn [tryExecFrom]. mstep. mstep. rewrite E. mstep. reflexivity.
Qed.

Lemma tryExec_ok (name : string) (args : list string) (o : Oracle) (h : Trace) :
  ok (o h (CombinedOutput name args)) = true ->
  tryExec name args o h =
    (Ret (o h (CombinedOutput name args)),
     [(CombinedOutput name args, o h (CombinedOutput name args))]).
Proof. apply tryExecFrom_ok. Qed.

Lemma zfsPoolListSubvolumes_run (s : storageZfs) (path : string) (o : Oracle) (h : Trace) :
  zfsPoolListSubvolumes s path o h =
    let r := o h (listSubvolumesCmd path) in
    (Ret (if ok r then (subvolumeEntries s path (out r), None)
          else ([], Some ("Failed to list ZFS filesystems: " ++ out r))),
     [(listSubvolumesCmd path, r)]).
Proof.
  unfold zfsPoolListSubvolumes. mstep. mstep. destruct (ok _); reflexivity.
Qed.

Lemma zfsPoolListSnapshots_run (s : storageZfs) (path : string) (o : Oracle) (h : Trace) :
  zfsPoolListSnapshots s path o h =
    let fullPath := snapshotsFullPath s path in
    let r := o h (listSnapshotsCmd fullPath) in
    (if ok r then
       match snapshotEntries fullPath (Split (out r) nl) with
       | Some children => Ret (children, None)
       | None => Panic
       end
     else Ret ([], Some ("Failed to list ZFS snapshots: " ++ out r)),
     [(listSnapshotsCmd fullPath, r)]).
Proof.
  unfold zfsPoolListSnapshots. mstep. mstep.
  destruct (ok _); [|reflexivity].
  destruct (snapshotEntries _ _); reflexivity.
Qed.

Lemma restoreSubvolumes_ok (s : storageZfs) (name : string) (o : Oracle) :
  (forall h c, ok (o h c) = true) -> listingsWellFormed o ->
  forall (subvols : list string) (h : Trace),
  exists tr, restoreSubvolumes s name subvols o h = (Ret None, tr) /\
             subBlocks s name subvols tr.
Proof.
  intros Hok Hwf. induction subvols as [|sub rest IH]; intros h.
  - exists []. split; [reflexivity | constructor].
  - cbn [restoreSubvolumes]. mstep. rewrite zfsPoolListSnapshots_run. cbv zeta.
    rewrite Hok.
    destruct (snapshotEntries _ _) as [snaps|] eqn:Es; [|exfalso; exact (Hwf _ _ Es)].
    cbv iota beta.
    destruct (StringInSlice name snaps) eqn:Ein; cbn [negb].
    + mstep. rewrite tryExec_ok by apply Hok. cbv iota beta. rewrite Hok.
      match goal with |- context [restoreSubvolumes s name rest o ?h'] =>
        destruct (IH h') as (tr & Er & Hb); rewrite Er end.
      eexists. split; [reflexivity|].
      cbn [app]. eapply sb_roll; eauto. apply StringInSlice_In. exact Ein.
    + match goal with |- context [restoreSubvolumes s name rest o ?h'] =>
        destruct (IH h') as (tr & Er & Hb); rewrite Er end.
      eexists. split; [reflexivity|].
      cbn [app]. eapply sb_skip; eauto. apply StringInSlice_not_In. exact Ein.
Qed.

Lemma firstn_S_nth {A} (l : list A) (n : nat) (x : A) :
  nth_error l n = Some x -> firstn (S n) l = (firstn n l ++ [x])%list.
Proof.
  revert n. induction l as [|y l IH]; intros [|n] E; try discriminate.
  - injection E as ->. reflexivity.
  - cbn [firstn app]. f_equal. apply IH. exact E.
Qed.

Lemma nth_error_skipn {A} (l : list A) (k n : nat) :
  nth_error (skipn k l) n = nth_error l (k + n).
Proof.
  revert l. induction k as [|k IH]; intros [|y l]; try reflexivity.
  - destruct n; reflexivity.
  - apply IH.
Qed.

(** The snapshots of index above [k] up to [i], newest first. *)
Lemma deleteNewerFrom_ok (snaps : list string) (sourceName : string) (k : nat) (o : Oracle) :
  (forall h c, ok (o h c) = true) ->
  nth_error snaps k = Some sourceName ->
  (forall j, k < j -> nth_error snaps j <> Some sourceName) ->
  forall (i : nat) (h : Trace),
    k <= i < List.length snaps ->
    exists tr,
      deleteNewerFrom snaps i sourceName o h = (Ret None, tr) /\
      map fst tr = map SnapshotDelete (rev (firstn (i - k) (skipn (S k) snaps))).
Proof.
  intros Hok Hk Huniq. induction i as [|i IH]; intros h Hi.
  - exists []. split; [reflexivity|]. replace (0 - k) with 0 by lia. reflexivity.
  - cbn [deleteNewerFrom].
    destruct (nth_error snaps (S i)) as [name|] eqn:En.
    2:{ apply nth_error_None in En. lia. }
    destruct (String.eqb_spec name sourceName) as [-> | Hne].
    + assert (k = S i).
      { destruct (Nat.eq_dec k (S i)); [assumption|].
        exfalso. apply (Huniq (S i)); [lia | exact En]. }
      subst k. exists []. split; [reflexivity|].
      replace (S i - S i) with 0 by lia. reflexivity.
    + assert (Hk' : k <= i).
      { destruct (Nat.eq_dec k (S i)) as [-> |]; [|lia]. congruence. }
      mstep. mstep. rewrite Hok.
      match goal with |- context [deleteNewerFrom snaps i sourceName o ?h'] =>
        destruct (IH h') as (tr & Er & Etr); [lia|]; rewrite Er end.
      eexists. split; [reflexivity|].
      cbn [map fst app]. rewrite Etr.
      replace (S i - k) with (S (i - k)) by lia.
      rewrite (firstn_S_nth _ (i - k) name).
      * rewrite rev_app_distr. reflexivity.
      * rewrite nth_error_skipn. replace (S k + (i - k)) with (S i) by lia. exact En.
Qed.

Lemma deleteNewer_ok (snaps : list string) (sourceName : string) (k : nat)
    (o : Oracle) (h : Trace) :
  (forall h c, ok (o h c) = true) ->
  nth_error snaps k = Some sourceName ->
  (forall j, k < j -> nth_error snaps j <> Some sourceName) ->
  exists tr,
    deleteNewer snaps sourceName o h = (Ret None, tr) /\
    map fst tr = map SnapshotDelete (rev (skipn (S k) snaps)).
Proof.
  intros Hok Hk Huniq.
  assert (Hlen : k < List.length snaps) by (apply nth_error_Some; congruence).
  unfold deleteNewer.
  destruct (Z.of_nat (List.length snaps) - 1)%Z as [|p|p] eqn:Ez; try lia.
  - destruct (deleteNewerFrom_ok snaps sourceName k o Hok Hk Huniq (Z.to_nat 0) h)
      as (tr & Er & Etr); [simpl; lia|].
    exists tr. split; [exact Er|]. rewrite Etr. f_equal. f_equal.
    apply firstn_all2. rewrite length_skipn. simpl. lia.
  - destruct (deleteNewerFrom_ok snaps sourceName k o Hok Hk Huniq (Z.to_nat (Z.pos p)) h)
      as (tr & Er & Etr); [lia|].
    exists tr. split; [exact Er|]. rewrite Etr. f_equal. f_equal.
    apply firstn_all2. rewrite length_skipn. lia.
Qed.

Lemma cut_delimiter (d : ascii) (a b : string) :
  Contains a (String d EmptyString) = false ->
  cut (a ++ String d b) (String d EmptyString) = Some (a, b).
Proof.
  induction a as [|c a IH]; intros E.
  - cbn. rewrite Ascii.eqb_refl. reflexivity.
  - cbn in E. apply orb_false_iff in E as [E1 E2].
    rewrite andb_true_r in E1.
    cbn. rewrite E1. cbn. rewrite (IH E2). reflexivity.
Qed.

Lemma SplitN2_snapshot_name `{Host} (cName sName : string) :
  Contains cName snapshotDelimiter = false ->
  SplitN2 (cName ++ snapshotDelimiter ++ sName) snapshotDelimiter = [cName; sName].
Proof.
  intros E. unfold SplitN2, snapshotDelimiter in *.
  change (String SnapshotDelimiter EmptyString ++ sName) with (String SnapshotDelimiter sName).
  rewrite (cut_delimiter _ _ _ E). reflexivity.
Qed.

Lemma TrimPrefix_restores (e p : string) : HasPrefix e p = true -> p ++ TrimPrefix e p = e.
Proof.
  unfold TrimPrefix. intros E. rewrite E. unfold HasPrefix in E.
  revert e E. induction p as [|c p IH]; intros e E; [reflexivity|].
  destruct e as [|b e]; [discriminate|].
  cbn in E. apply andb_true_iff in E as [Ec Ep]. apply Ascii.eqb_eq in Ec as ->.
  cbn. f_equal. apply IH. exact Ep.
Qed.

Lemma In_skipn_nth {A} (l : list A) (k : nat) (x : A) :
  In x (skipn k l) -> exists m, nth_error l (k + m) = Some x.
Proof.
  intros Hin. apply In_nth_error in Hin as (m & Hm).
  exists m. rewrite <- nth_error_skipn. exact Hm.
Qed.

(** X15.  What [ContainerRestore] runs when the chosen snapshot is in the list
    and every command succeeds: the deletions of the snapshots after the
    chosen one, newest first (none at or before it); the rollback of
    [containers/<n>@snapshot-<s>]; the listing of the datasets below it;
    and for each entry kept from that listing the listing of its
    snapshots, with a rollback exactly when the name is among them. *)
Lemma ContainerRestore_runs `{Host} (s : storageZfs) (c sourceContainer : container)
    (snaps : list string) (k : nat) (cName sName : string) (o : Oracle) (h : Trace) :
  Snapshots c = (snaps, None) ->
  nth_error snaps k = Some (Name sourceContainer) ->
  NoDup snaps ->
  Name sourceContainer = cName ++ snapshotDelimiter ++ sName ->
  Contains cName snapshotDelimiter = false ->
  (forall h c, ok (o h c) = true) -> listingsWellFormed o ->
  let root := "containers/" ++ cName in
  let name := "snapshot-" ++ sName in
  exists deletes rr rl subs,
    ContainerRestore s c sourceContainer o h =
      (Ret None,
       (deletes ++
        [(CombinedOutput "zfs" (rollbackArgs s root name), rr);
         (listSubvolumesCmd (onDiskPoolName s ++ "/" ++ root), rl)] ++ subs)%list) /\
    map fst deletes = map SnapshotDelete (rev (skipn (S k) snaps)) /\
    (forall j x, j <= k -> nth_error snaps j = Some x ->
                 ~ In (SnapshotDelete x) (map fst deletes)) /\
    subBlocks s name (subvolumeEntries s (onDiskPoolName s ++ "/" ++ root) (out rl)) subs.
Proof.
  intros Esnaps Hk Hnodup Ename Ec Hok Hwf root name.
  assert (Huniq : forall j, k < j -> nth_error snaps j <> Some (Name sourceContainer)).
  { intros j Hj Ej. rewrite <- Hk in Ej.
    assert (j = k); [|lia].
    apply (proj1 (NoDup_nth_error snaps) Hnodup); [|exact Ej].
    apply nth_error_Some. rewrite Ej, Hk. discriminate. }
  destruct (deleteNewer_ok snaps _ k o h Hok Hk Huniq) as (deletes & Ed & Edel).
  unfold ContainerRestore, orReturn. rewrite Esnaps. mstep. rewrite Ed. cbv iota beta.
  rewrite Ename, (SplitN2_snapshot_name _ _ Ec). cbn [nth_error hd].
  fold root. fold name.
  mstep. unfold zfsPoolVolumeSnapshotRestore. mstep.
  rewrite tryExec_ok by apply Hok. cbv iota beta. rewrite Hok.
  mstep. rewrite zfsPoolListSubvolumes_run. cbv zeta iota beta. rewrite Hok.
  match goal with |- context [restoreSubvolumes s name ?subvols o ?h'] =>
    destruct (restoreSubvolumes_ok s name o Hok Hwf subvols h') as (subs & Er & Hb);
    rewrite Er end.
  mstep.
  eexists deletes, _, _, subs. split; [|split; [exact Edel | split; [|exact Hb]]].
  - rewrite !app_nil_r. reflexivity.
  - intros j x Hj Ex Hin. rewrite Edel in Hin.
    apply in_map_iff in Hin as (y & Ey & Hin). injection Ey as ->.
    apply in_rev in Hin. apply In_skipn_nth in Hin as (m & Hm).
    assert (j = S k + m); [|lia].
    apply (proj1 (NoDup_nth_error snaps) Hnodup).
    + apply nth_error_Some. rewrite Ex. discriminate.
    + rewrite Ex, Hm. reflexivity.
Qed.

(** C3: with a dataset as pool source ([tank/lxd], pool name [default]),
    a container [c1] whose sub-dataset [tank/lxd/containers/c1/sub] has
    the snapshot [snapshot-s1], and the restore of [c1/s1]:
    [ContainerRestore] rolls back the root dataset, then asks for the
    snapshots of [tank/lxd/tank/lxd/containers/c1/sub], which does not
    exist, and returns that error; the sub-dataset is not rolled back. *)
Theorem C3_restore_misses_sub_dataset_of_dataset_pool :
  let r := run (ContainerRestore (H := lxdHost) datasetPool c1 c1s1) subDatasetOracle in
  onDiskPoolName datasetPool = "tank/lxd" /\
  pool_Name datasetPool = "default" /\
  (exists e, fst r = Ret (Some e)) /\
  In (CombinedOutput "zfs" ["rollback"; "tank/lxd/containers/c1@snapshot-s1"])
     (map fst (snd r)) /\
  In (listSnapshotsCmd "tank/lxd/tank/lxd/containers/c1/sub") (map fst (snd r)) /\
  ~ In (CombinedOutput "zfs" ["rollback"; "tank/lxd/containers/c1/sub@snapshot-s1"])
       (map fst (snd r)).
Proof.
  vm_compute. repeat split; eauto 6.
  intros [E | [E | [E | []]]]; discriminate E.
Qed.

(** With the pool itself as prefix the same restore reaches the
    sub-dataset. *)
Example ContainerRestore_pool_reaches_sub_dataset :
  let o : Oracle := fun _ cmd =>
    match cmd with
    | CombinedOutput _ args =>
        if StringInSlice "filesystem" args then
          mkResp ("tank/containers/c1" ++ nl ++ "tank/containers/c1/sub" ++ nl) true
        else if StringInSlice "list" args then
          if StringInSlice "tank/containers/c1/sub" args then
            mkResp ("tank/containers/c1/sub@snapshot-s1" ++ nl) true
          else mkResp ("cannot open: dataset does not exist" ++ nl) false
        else mkResp "" true
    | _ => mkResp "" true
    end in
  map fst (snd (run (ContainerRestore (H := lxdHost) (emptyZfs "tank") c1 c1s1) o)) =
    [CombinedOutput "zfs" ["rollback"; "tank/containers/c1@snapshot-s1"];
     listSubvolumesCmd "tank/containers/c1";
     listSnapshotsCmd "tank/containers/c1/sub";
     CombinedOutput "zfs" ["rollback"; "tank/containers/c1/sub@snapshot-s1"]].
Proof. reflexivity. Qed.

(** ** Which commands an operation can run *)

Lemma emitsOnly_ret {A} (P : Cmd -> Prop) (a : A) : emitsOnly P (ret a).
Proof. intros o h. constructor. Qed.

Lemma emitsOnly_panic {A} (P : Cmd -> Prop) : emitsOnly P (@panic A).
Proof. intros o h. constructor. Qed.

Lemma emitsOnly_outOfFuel {A} (P : Cmd -> Prop) : emitsOnly P (@outOfFuel A).
Proof. intros o h. constructor. Qed.

Lemma emitsOnly_call (P : Cmd -> Prop) (c : Cmd) : P c -> emitsOnly P (call c).
Proof. intros Hc o h. repeat constructor. exact Hc. Qed.

Lemma emitsOnly_bind {A B} (P : Cmd -> Prop) (m : M A) (k : A -> M B) :
  emitsOnly P m -> (forall a, emitsOnly P (k a)) -> emitsOnly P (bind m k).
Proof.
  intros Hm Hk o h. rewrite bind_unfold. specialize (Hm o h).
  destruct (m o h) as [[a| |] e1]; cbn [snd] in *; try exact Hm.
  specialize (Hk a o (h ++ e1)%list).
  destruct (k a o (h ++ e1)%list) as [r e2]. cbn [snd] in *.
  apply Forall_app. split; assumption.
Qed.

Lemma emitsOnly_orReturn (P : Cmd -> Prop) (m k : M error) :
  emitsOnly P m -> emitsOnly P k -> emitsOnly P (orReturn m k).
Proof.
  intros Hm Hk. unfold orReturn. apply emitsOnly_bind; [exact Hm|].
  intros [e|]; [apply emitsOnly_ret | exact Hk].
Qed.

Lemma emitsOnly_if {A} (P : Cmd -> Prop) (b : bool) (m1 m2 : M A) :
  emitsOnly P m1 -> emitsOnly P m2 -> emitsOnly P (if b then m1 else m2).
Proof. destruct b; auto. Qed.

Lemma emitsOnly_weaken {A} (P Q : Cmd -> Prop) (m : M A) :
  (forall c, P c -> Q c) -> emitsOnly P m -> emitsOnly Q m.
Proof.
  intros HPQ Hm o h. eapply Forall_impl; [|apply Hm]. intros ev. apply HPQ.
Qed.

Lemma emitsOnly_In {A} (P : Cmd -> Prop) (m : M A) (o : Oracle) (h : Trace) (c : Cmd) :
  emitsOnly P m -> In c (map fst (snd (m o h))) -> P c.
Proof.
  intros Hm Hin. apply in_map_iff in Hin as (ev & <- & Hin).
  exact (proj1 (Forall_forall _ _) (Hm o h) ev Hin).
Qed.

(** Break an [emitsOnly] goal down along the structure of the operation. *)
Ltac emits :=
  repeat lazymatch goal with
  | |- emitsOnly _ (ret _) => apply emitsOnly_ret
  | |- emitsOnly _ panic => apply emitsOnly_panic
  | |- emitsOnly _ outOfFuel => apply emitsOnly_outOfFuel
  | |- emitsOnly _ (orReturn _ _) => apply emitsOnly_orReturn
  | |- emitsOnly _ (bind _ _) => apply emitsOnly_bind; [|intros ?]
  | |- emitsOnly _ (call _) => apply emitsOnly_call
  | |- emitsOnly _ (if _ then _ else _) => apply emitsOnly_if
  | |- emitsOnly _ (match ?x with _ => _ end) => destruct x
  | |- emitsOnly _ (let _ := _ in _) => cbv zeta
  end.

Lemma zfsPoolVolumeGet_emits (P : Cmd -> Prop) (s : storageZfs) (path key : string) :
  P (getCmd s path key) -> emitsOnly P (zfsPoolVolumeGet s path key).
Proof. intros Hp. unfold zfsPoolVolumeGet. emits. exact Hp. Qed.

Lemma zfsPoolVolumeExists_emits (P : Cmd -> Prop) (s : storageZfs) (path : string) :
  P (getCmd s path "name") -> emitsOnly P (zfsPoolVolumeExists s path).
Proof.
  intros Hp. unfold zfsPoolVolumeExists. emits. apply zfsPoolVolumeGet_emits. exact Hp.
Qed.

Lemma zfsPoolVolumeSet_emits (P : Cmd -> Prop) (s : storageZfs) (path key value : string) :
  P (setCmd s path key value) -> emitsOnly P (zfsPoolVolumeSet s path key value).
Proof. intros Hp. unfold zfsPoolVolumeSet. emits. exact Hp. Qed.

Lemma tryExecFrom_emits (P : Cmd -> Prop) (name : string) (args : list string) :
  P (CombinedOutput name args) -> P (Sleep 500) ->
  forall n last, emitsOnly P (tryExecFrom n last name args).
Proof.
  intros Hc Hs. induction n as [|n IH]; intros last; cbn [tryExecFrom]; emits; auto.
Qed.

Lemma zfsPoolVolumeDestroy_emits (P : Cmd -> Prop) (s : storageZfs) (path : string) :
  P (getCmd s path "mountpoint") ->
  (forall p, P (IsMountPoint p)) -> (forall p, P (Unmount p)) ->
  P (CombinedOutput "zfs" (destroyArgs s path)) -> P (Sleep 500) ->
  emitsOnly P (zfsPoolVolumeDestroy s path).
Proof.
  intros Hg Hm Hu Hd Hs. unfold zfsPoolVolumeDestroy. emits; auto.
  - apply zfsPoolVolumeGet_emits; exact Hg.
  - apply tryExecFrom_emits; assumption.
Qed.

Lemma zfsPoolVolumeRenameLoop_emits (P : Cmd -> Prop) (s : storageZfs) (source dest : string) :
  P (renameCmd s source dest) -> P (getCmd s source "name") -> P (getCmd s dest "name") ->
  P (Sleep 500) ->
  forall n output, emitsOnly P (zfsPoolVolumeRenameLoop n s source dest output).
Proof.
  intros Hr Hs Hd Hsl. induction n as [|n IH]; intros output; cbn [zfsPoolVolumeRenameLoop].
  - emits.
  - emits; auto; try (apply zfsPoolVolumeExists_emits; assumption).
Qed.

Lemma zfsPoolListSnapshots_emits (P : Cmd -> Prop) (s : storageZfs) (path : string) :
  P (listSnapshotsCmd (snapshotsFullPath s path)) ->
  emitsOnly P (zfsPoolListSnapshots s path).
Proof. intros Hp. unfold zfsPoolListSnapshots. emits. exact Hp. Qed.

Lemma zfsPoolVolumeSnapshotRemovable_emits (P : Cmd -> Prop) (s : storageZfs)
    (path name : string) :
  (forall snap, P (getCmd s snap "clones")) ->
  emitsOnly P (zfsPoolVolumeSnapshotRemovable s path name).
Proof.
  intros Hp. unfold zfsPoolVolumeSnapshotRemovable. emits.
  apply zfsPoolVolumeGet_emits; apply Hp.
Qed.

(** ** Container deletion *)

Lemma zfsPoolVolumeCleanup_emits (s : storageZfs) :
  forall (depth : nat) (path : string),
    emitsOnly (fun c => cleanupCmd c = true) (zfsPoolVolumeCleanup depth s path).
Proof.
  induction depth as [|d IH]; intros path; cbn [zfsPoolVolumeCleanup].
  - emits.
  - emits; auto;
      try (apply zfsPoolVolumeDestroy_emits; intros; reflexivity);
      try (apply zfsPoolVolumeGet_emits; reflexivity);
      try (apply zfsPoolListSnapshots_emits; reflexivity);
      try (apply zfsPoolVolumeSnapshotRemovable_emits; intros; reflexivity).
Qed.






Lemma zfsPoolVolumeGet_run (s : storageZfs) (path key : string) (o : Oracle) (h : Trace) :
  zfsPoolVolumeGet s path key o h =
    let r := o h (getCmd s path key) in
    (Ret (if ok r then (TrimRight (out r) nl, None)
          else (out r, Some ("Failed to get ZFS config: " ++ out r))),
     [(getCmd s path key, r)]).
Proof.
  unfold zfsPoolVolumeGet. fold (getCmd s path key). mstep. mstep.
  destruct (ok _); reflexivity.
Qed.

Lemma zfsPoolVolumeSnapshotRemovable_run (s : storageZfs) (path name : string)
    (o : Oracle) (h : Trace) :
  zfsPoolVolumeSnapshotRemovable s path name o h =
    let r := o h (getCmd s (snapshotPath path name) "clones") in
    (Ret (if ok r then (removableValue (TrimRight (out r) nl), None)
          else (false, Some ("Failed to get ZFS config: " ++ out r))),
     [(getCmd s (snapshotPath path name) "clones", r)]).
Proof.
  unfold zfsPoolVolumeSnapshotRemovable. cbv zeta. fold (snapshotPath path name).
  mstep. rewrite zfsPoolVolumeGet_run. cbv zeta iota beta.
  destruct (ok _); [|reflexivity]. cbv iota beta.
  unfold removableValue. destruct (_ || _); reflexivity.
Qed.








Lemma cleanupCmd_verb (c : Cmd) :
  cleanupCmd c = true -> zfsVerb c <> Some "set" /\ zfsVerb c <> Some "rename".
Proof.
  destruct c as [name args| | | | | | | | | | | | | | |]; cbn; try (split; discriminate).
  destruct args as [|verb args]; [split; discriminate|].
  destruct (String.eqb name "zfs"); [|split; discriminate].
  intros E. split; intros Ev; injection Ev as ->; discriminate E.
Qed.






(** Without clones the dataset is destroyed, and so is its origin in the
    graveyard. *)
Example ContainerDelete_without_clones :
  map fst (snd (ContainerDelete (H := lxdHost) 5 (emptyZfs "p") c1
                  (fun _ cmd =>
                     match cmd with
                     | CombinedOutput _ args =>
                         if StringInSlice "list" args
                         then mkResp ("p/containers/c1@snapshot-s1" ++ nl) true
                         else if StringInSlice "name" args
                         then mkResp ("p/containers/c1" ++ nl) true
                         else if StringInSlice "clones" args then mkResp ("-" ++ nl) true
                         else if StringInSlice "origin" args
                         then mkResp ("p/deleted/images/abc@readonly" ++ nl) true
                         else if StringInSlice "mountpoint" args
                         then mkResp ("none" ++ nl) true
                         else mkResp "" true
                     | PathExists _ => mkResp "" false
                     | _ => mkResp "" true
                     end) [])) =
  [getCmd (emptyZfs "p") "containers/c1" "name";
   listSnapshotsCmd "p/containers/c1";
   getCmd (emptyZfs "p") "containers/c1@snapshot-s1" "clones";
   getCmd (emptyZfs "p") "containers/c1" "origin";
   getCmd (emptyZfs "p") "containers/c1" "mountpoint";
   CombinedOutput "zfs" ["destroy"; "-r"; "p/containers/c1"];
   getCmd (emptyZfs "p") "deleted/images/abc@readonly" "clones";
   getCmd (emptyZfs "p") "deleted/images/abc@readonly" "mountpoint";
   CombinedOutput "zfs" ["destroy"; "-r"; "p/deleted/images/abc@readonly"];
   listSnapshotsCmd "p/deleted/images/abc";
   DeleteContainerMountpoint "/var/lib/lxd/storage-pools/p/containers/c1"
     "/var/lib/lxd/containers/c1" "zfs";
   getCmd (emptyZfs "p") "snapshots/c1" "mountpoint";
   CombinedOutput "zfs" ["destroy"; "-r"; "p/snapshots/c1"];
   PathExists "/var/lib/lxd/storage-pools/p/snapshots/c1";
   PathExists "/var/lib/lxd/snapshots/c1"].
Proof. reflexivity. Qed.

(** ** The mount coordinator *)

Lemma nth_error_setNth_eq {A} (l : list A) (i : nat) (x y : A) :
  nth_error l i = Some y -> nth_error (setNth i x l) i = Some x.
Proof.
  revert i. induction l as [|z l IH]; intros [|i] E; try discriminate; cbn in *; auto.
Qed.

Lemma nth_error_setNth_neq {A} (l : list A) (i j : nat) (x : A) :
  i <> j -> nth_error (setNth i x l) j = nth_error l j.
Proof.
  revert i j. induction l as [|z l IH]; intros [|i] [|j] Hne; cbn; try reflexivity.
  - contradiction.
  - apply IH. congruence.
Qed.

Lemma count_setNth (P : pc -> bool) (l : list pc) (i : nat) (p p' : pc) :
  nth_error l i = Some p ->
  count P (setNth i p' l) + (if P p then 1 else 0) = count P l + (if P p' then 1 else 0).
Proof.
  revert i. induction l as [|z l IH]; intros [|i] E; try discriminate; cbn in *.
  - injection E as ->. lia.
  - specialize (IH i E). lia.
Qed.

Lemma count_one (P : pc -> bool) (l : list pc) (i : nat) (p : pc) :
  nth_error l i = Some p -> P p = true -> 1 <= count P l.
Proof.
  revert i. induction l as [|z l IH]; intros [|i] E Hp; try discriminate; cbn in *.
  - injection E as ->. rewrite Hp. lia.
  - specialize (IH i E Hp). lia.
Qed.

Lemma count_two (P : pc -> bool) (l : list pc) (i j : nat) (p q : pc) :
  nth_error l i = Some p -> nth_error l j = Some q -> i <> j ->
  P p = true -> P q = true -> 2 <= count P l.
Proof.
  revert i j. induction l as [|z l IH]; intros [|i] [|j] Ei Ej Hne Hp Hq;
    try discriminate; cbn in *.
  - contradiction.
  - injection Ei as ->. rewrite Hp. pose proof (count_one P l j q Ej Hq). lia.
  - injection Ej as ->. rewrite Hq. pose proof (count_one P l i p Ei Hp). lia.
  - assert (Hne' : i <> j) by congruence.
    specialize (IH i j Ei Ej Hne' Hp Hq). lia.
Qed.

Lemma count_exists (P : pc -> bool) (l : list pc) :
  1 <= count P l -> exists i p, nth_error l i = Some p /\ P p = true.
Proof.
  induction l as [|z l IH]; cbn; [lia|].
  destruct (P z) eqn:E.
  - intros _. exists 0, z. auto.
  - intros Hc. destruct (IH Hc) as (i & p & Ei & Hp). exists (S i), p. auto.
Qed.


Lemma count_repeat (P : pc -> bool) (p : pc) (n : nat) :
  P p = false -> count P (repeat p n) = 0.
Proof. intros E. induction n as [|n IH]; cbn; [reflexivity|]. rewrite E, IH. reflexivity. Qed.

Lemma Inv_init (n : nat) (isMounted : bool) : Inv isMounted (initSys n isMounted).
Proof.
  constructor; cbn; rewrite ?count_repeat by reflexivity; try lia; try tauto.
  - congruence.
  - intros j q E. apply nth_error_In, repeat_spec in E. subst q. exact I.
Qed.

Lemma Inv_step (isMounted : bool) (st st' : Sys) (i : nat) (mountOk : bool) :
  Inv isMounted st -> step i mountOk st = Some st' -> Inv isMounted st'.
Proof.
  intros [Hlock Hentry Hmounts Hwon Hwm Hmw Hm0 Hclosed Hlocal] Hstep.
  destruct st as [sh ths]. cbn [shared callers] in *.
  unfold step in Hstep. cbn [shared callers] in Hstep.
  destruct (nth_error ths i) as [p|] eqn:Ei; [|discriminate].
  destruct (stepCaller mountOk sh p) as [[sh' p']|] eqn:Es; [|discriminate].
  injection Hstep as <-.
  pose proof (count_setNth holdsLock ths i p p' Ei) as CL.
  pose proof (count_setNth holdsEntry ths i p p' Ei) as CE.
  pose proof (count_setNth won ths i p p' Ei) as CW.
  pose proof (Hlocal i p Ei) as Lp.
  assert (Hother : forall j q, nth_error (setNth i p' ths) j = Some q ->
            (j = i /\ q = p') \/ (j <> i /\ nth_error ths j = Some q)).
  { intros j q E. destruct (Nat.eq_dec j i) as [-> | Hne].
    - left. rewrite (nth_error_setNth_eq _ _ _ _ Ei) in E. injection E as <-. auto.
    - right. rewrite nth_error_setNth_neq in E by congruence. auto. }
  assert (Xlock : forall j q, j <> i -> nth_error ths j = Some q ->
            holdsLock p = true -> holdsLock q = true -> False).
  { intros j q Hne Ej Hp Hq.
    pose proof (count_two holdsLock ths i j p q Ei Ej ltac:(congruence) Hp Hq).
    destruct (lockHeld sh); lia. }
  assert (Xentry : forall j q, j <> i -> nth_error ths j = Some q ->
            holdsEntry p = true -> holdsEntry q = true -> False).
  { intros j q Hne Ej Hp Hq.
    pose proof (count_two holdsEntry ths i j p q Ei Ej ltac:(congruence) Hp Hq).
    destruct (entry sh); lia. }
  destruct sh as [lk en cl nx mt ms fm]. cbn [lockHeld entry closed nextChan mounted mounts failedMounts] in *.
  destruct p; cbn in Es;
    repeat match type of Es with
           | context [if ?c then _ else _] => destruct c eqn:?
           | context [match ?c with _ => _ end] => destruct c eqn:?
           end;
    try discriminate; injection Es as <- <-;
    cbn [holdsLock holdsEntry won localInv] in *.
  all: constructor; cbn [shared callers lockHeld entry closed nextChan mounted mounts failedMounts].
  all: try match goal with
           | H : existsb _ ?cl = true |- _ =>
               assert (cl <> []) by (destruct cl; [discriminate H | discriminate])
           end.
  all: lazymatch goal with
       | |- forall j q, _ -> localInv _ _ =>
           intros j q E; destruct (Hother j q E) as [[-> ->] | [Hne Ej]];
           [ cbn; repeat match goal with
                         | b : bool |- _ => destruct b
                         | e : error |- _ => destruct e
                         end; cbn in *; try tauto; try (right; lia);
             try (intuition congruence)
           | pose proof (Hlocal j q Ej) as Lq;
             destruct q as [| |ch'|ch'| | | | |w' e'|w' e'|w' e'|[|] d' e'];
             cbn in *; try tauto;
             try (exfalso; eapply Xlock; eauto; reflexivity);
             try (exfalso; eapply Xentry; eauto; reflexivity);
             try (intuition (auto; try congruence; try discriminate)) ]
       | |- _ =>
           repeat match goal with
                  | b : bool |- _ => destruct b
                  | e : error |- _ => destruct e
                  | e : option chan |- _ => destruct e
                  end;
           cbn in *;
           try match goal with
               | Hf : ?mt = false, Hwm' : 1 <= ?c -> ?mt = true |- _ =>
                   assert (c = 0)
                     by (destruct (Nat.eq_dec c 0) as [|Hc]; [assumption | exfalso;
                         assert (Hc1 : 1 <= c) by lia; specialize (Hwm' Hc1); congruence])
               end;
           first [lia | tauto | congruence | intuition (lia || congruence)]
       end.
Qed.

Lemma Inv_reachable (n : nat) (isMounted : bool) (st : Sys) :
  reachable (initSys n isMounted) st -> Inv isMounted st.
Proof.
  induction 1 as [|st i mountOk st' _ IH Hstep]; [apply Inv_init|].
  exact (Inv_step _ _ _ _ _ IH Hstep).
Qed.



Lemma exec_reachable (schedule : list (nat * bool)) :
  forall st0 st1 st, reachable st0 st1 -> exec schedule st1 = Some st -> reachable st0 st.
Proof.
  induction schedule as [|[i b] rest IH]; intros st0 st1 st Hr E; cbn in E.
  - injection E as <-. exact Hr.
  - destruct (step i b st1) as [st2|] eqn:Es; [|discriminate].
    apply (IH st0 st2 st); [|exact E]. eapply reach_step; eauto.
Qed.

Lemma not_all_returned (l : list pc) :
  Forall (fun p => isReturned p = true) l \/
  exists i p, nth_error l i = Some p /\ isReturned p = false.
Proof.
  induction l as [|z l [IH | (i & p & Ei & Hp)]].
  - left. constructor.
  - destruct (isReturned z) eqn:E.
    + left. constructor; assumption.
    + right. exists 0, z. auto.
  - right. exists (S i), p. auto.
Qed.

Lemma existsb_eqb_In (ch : chan) (l : list chan) :
  In ch l -> existsb (Nat.eqb ch) l = true.
Proof.
  intros Hin. apply existsb_exists. exists ch. split; [exact Hin | apply Nat.eqb_refl].
Qed.

(** No deadlock: in a state the invariant holds of, either every caller
    has returned or some caller can take a step. *)
Lemma coordinator_progress (isMounted : bool) (st : Sys) :
  Inv isMounted st ->
  Forall (fun p => isReturned p = true) (callers st) \/
  exists i mountOk st', step i mountOk st = Some st'.
Proof.
  intros [Hlock Hentry _ _ _ _ _ _ Hlocal].
  destruct st as [sh ths]. cbn [shared callers] in *.
  assert (Hstep : forall i p, nth_error ths i = Some p ->
            (exists r, stepCaller true sh p = Some r) ->
            exists i mountOk st', step i mountOk (mkSys sh ths) = Some st').
  { intros i p Ei ([sh' p'] & Er). exists i, true. unfold step. cbn [shared callers].
    rewrite Ei, Er. eauto. }
  destruct (lockHeld sh) eqn:Elk.
  - (* the holder of the mutex can go on *)
    right. destruct (count_exists holdsLock ths) as (i & p & Ei & Hp); [lia|].
    apply (Hstep i p Ei).
    destruct p; try discriminate Hp; cbn; try (eexists; reflexivity).
    + destruct (entry sh); eexists; reflexivity.
    + destruct (entry sh); eexists; reflexivity.
  - destruct (not_all_returned ths) as [Hall | (i & p & Ei & Hp)]; [left; exact Hall|].
    right.
    assert (Hnl : forall j q, nth_error ths j = Some q -> holdsLock q = false).
    { intros j q Ej. destruct (holdsLock q) eqn:Eq; [|reflexivity].
      pose proof (count_one holdsLock ths j q Ej Eq). lia. }
    pose proof (Hnl i p Ei) as Hpl.
    destruct p; try discriminate Hp; try discriminate Hpl.
    + apply (Hstep i _ Ei). cbn. rewrite Elk. eexists; reflexivity.
    + (* waiting on [ch] *)
      destruct (existsb (Nat.eqb ch) (closed sh)) eqn:Ecl.
      * apply (Hstep i _ Ei). cbn. rewrite Ecl. eexists; reflexivity.
      * destruct (Hlocal i _ Ei) as [Hin | Hen].
        { rewrite (existsb_eqb_In _ _ Hin) in Ecl. discriminate. }
        rewrite Hen in Hentry.
        destruct (count_exists holdsEntry ths) as (j & q & Ej & Hq); [lia|].
        pose proof (Hnl j q Ej) as Hql.
        apply (Hstep j q Ej).
        destruct q; try discriminate Hq; try discriminate Hql; cbn.
        -- destruct (mounted sh); eexists; reflexivity.
        -- eexists; reflexivity.
        -- rewrite Elk. eexists; reflexivity.
    + apply (Hstep i _ Ei). cbn. destruct (mounted sh); eexists; reflexivity.
    + apply (Hstep i _ Ei). cbn. eexists; reflexivity.
    + apply (Hstep i _ Ei). cbn. rewrite Elk. eexists; reflexivity.
Qed.



Lemma stepCaller_stepsLeft (mountOk : bool) (sh sh' : Shared) (p p' : pc) :
  stepCaller mountOk sh p = Some (sh', p') -> S (stepsLeft p') <= stepsLeft p.
Proof.
  destruct p; cbn; intros E;
    repeat match type of E with
           | context [if ?c then _ else _] => destruct c
           | context [match ?c with _ => _ end] => destruct c
           end;
    try discriminate; injection E as <- <-; cbn; lia.
Qed.

Lemma totalStepsLeft_setNth (l : list pc) (i : nat) (p p' : pc) :
  nth_error l i = Some p ->
  totalStepsLeft (setNth i p' l) + stepsLeft p = totalStepsLeft l + stepsLeft p'.
Proof.
  revert i. induction l as [|z l IH]; intros [|i] E; try discriminate; cbn in *.
  - injection E as ->. lia.
  - specialize (IH i E). lia.
Qed.

Lemma step_totalStepsLeft (i : nat) (mountOk : bool) (st st' : Sys) :
  step i mountOk st = Some st' ->
  S (totalStepsLeft (callers st')) <= totalStepsLeft (callers st).
Proof.
  unfold step. intros E.
  destruct (nth_error (callers st) i) as [p|] eqn:Ei; [|discriminate].
  destruct (stepCaller mountOk (shared st) p) as [[sh' p']|] eqn:Es; [|discriminate].
  injection E as <-. cbn.
  pose proof (stepCaller_stepsLeft _ _ _ _ _ Es).
  pose proof (totalStepsLeft_setNth _ _ _ p' Ei). lia.
Qed.

Lemma exec_totalStepsLeft (schedule : list (nat * bool)) :
  forall st st', exec schedule st = Some st' ->
    List.length schedule + totalStepsLeft (callers st') <= totalStepsLeft (callers st).
Proof.
  induction schedule as [|[i b] rest IH]; intros st st' E; cbn in E.
  - injection E as <-. cbn. lia.
  - destruct (step i b st) as [st1|] eqn:Es; [|discriminate].
    pose proof (step_totalStepsLeft _ _ _ _ Es). specialize (IH _ _ E). cbn. lia.
Qed.

Lemma totalStepsLeft_repeat (n : nat) : totalStepsLeft (repeat AtLock1 n) = 9 * n.
Proof. induction n as [|n IH]; [reflexivity|]. cbn [repeat totalStepsLeft stepsLeft]. lia. Qed.

Lemma reachable_trans (st0 st1 st2 : Sys) :
  reachable st0 st1 -> reachable st1 st2 -> reachable st0 st2.
Proof.
  intros H01 H12. induction H12 as [|st i b st' _ IH Hs]; [exact H01|].
  eapply reach_step; eauto.
Qed.

Lemma holds_at_most_one (P : pc -> bool) (l : list pc) (i j : nat) (p q : pc) :
  count P l <= 1 ->
  nth_error l i = Some p -> nth_error l j = Some q -> P p = true -> P q = true -> i = j.
Proof.
  intros Hc Ei Ej Hp Hq. destruct (Nat.eq_dec i j) as [|Hne]; [assumption|].
  pose proof (count_two P l i j p q Ei Ej Hne Hp Hq). lia.
Qed.

(** X1.  Mutual exclusion in [ContainerMount]: in every state that
    concurrent callers for one container can reach, two callers that are both
    inside a section guarded by [lxdStorageMapLock] are the same caller, and
    so are two callers that are both between inserting their channel into
    [lxdStorageOngoingOperationMap] and removing it; the table holds an entry
    exactly while some caller is in that window. *)
Theorem ContainerMount_mutual_exclusion (n : nat) (isMounted : bool) (st : Sys)
    (i j : nat) (p q : pc) :
  reachable (initSys n isMounted) st ->
  nth_error (callers st) i = Some p ->
  nth_error (callers st) j = Some q ->
  (holdsLock p = true -> holdsLock q = true -> i = j) /\
  (holdsEntry p = true -> holdsEntry q = true -> i = j) /\
  (holdsEntry p = true -> entry (shared st) <> None) /\
  (holdsLock p = true -> lockHeld (shared st) = true).
Proof.
  intros Hr Ei Ej. destruct (Inv_reachable _ _ _ Hr) as [Hlock Hentry _ _ _ _ _ _ _].
  repeat apply conj.
  - apply (holds_at_most_one holdsLock (callers st) i j p q); auto.
    destruct (lockHeld (shared st)); lia.
  - apply (holds_at_most_one holdsEntry (callers st) i j p q); auto.
    destruct (entry (shared st)); lia.
  - intros Hp. pose proof (count_one holdsEntry _ _ _ Ei Hp).
    destruct (entry (shared st)); [discriminate | lia].
  - intros Hp. pose proof (count_one holdsLock _ _ _ Ei Hp).
    destruct (lockHeld (shared st)); [reflexivity | lia].
Qed.

Lemma midMountState_reachable : reachable (initSys 2 false) midMountState.
Proof.
  apply (exec_reachable [(0, true); (0, true); (0, true); (0, true); (0, true); (1, true)]
           _ _ _ (reach_init _)).
  reflexivity.
Qed.

Lemma ContainerMount_mutual_exclusion_witness :
  (holdsLock AtMount = true -> holdsLock AtLookup = true -> 0 = 1) /\
  (holdsEntry AtMount = true -> holdsEntry AtLookup = true -> 0 = 1) /\
  (holdsEntry AtMount = true -> entry (shared midMountState) <> None) /\
  (holdsLock AtMount = true -> lockHeld (shared midMountState) = true).
Proof.
  apply (ContainerMount_mutual_exclusion 2 false midMountState 0 1 AtMount AtLookup).
  - exact midMountState_reachable.
  - reflexivity.
  - reflexivity.
Defined.




Lemma complete_from (isMounted : bool) (k : nat) :
  forall st, Inv isMounted st -> totalStepsLeft (callers st) <= k ->
    exists schedule st', exec schedule st = Some st' /\
      Forall (fun p => isReturned p = true) (callers st').
Proof.
  induction k as [|k IH]; intros st HI Hk.
  - destruct (coordinator_progress _ _ HI) as [Hall | (i & b & st' & Hs)].
    + exists [], st. auto.
    + pose proof (step_totalStepsLeft _ _ _ _ Hs). lia.
  - destruct (coordinator_progress _ _ HI) as [Hall | (i & b & st' & Hs)].
    + exists [], st. auto.
    + pose proof (step_totalStepsLeft _ _ _ _ Hs).
      destruct (IH st' (Inv_step _ _ _ _ _ HI Hs) ltac:(lia)) as (sch & st2 & E & Hall).
      exists ((i, b) :: sch), st2. cbn. rewrite Hs. auto.
Qed.

(** X3.  [ContainerMount] does not deadlock: in every state concurrent
    callers for one container can reach, either every caller has returned or
    some caller can take its next step. *)
Theorem ContainerMount_never_deadlocks (n : nat) (isMounted : bool) (st : Sys) :
  reachable (initSys n isMounted) st ->
  Forall (fun p => isReturned p = true) (callers st) \/
  exists i mountOk st', step i mountOk st = Some st'.
Proof.
  intros Hr. exact (coordinator_progress _ _ (Inv_reachable _ _ _ Hr)).
Qed.

Lemma ContainerMount_never_deadlocks_witness :
  Forall (fun p => isReturned p = true) (callers midMountState) \/
  exists i mountOk st', step i mountOk midMountState = Some st'.
Proof.
  apply (ContainerMount_never_deadlocks 2 false midMountState).
  exact midMountState_reachable.
Defined.

(** X4.  Every run of concurrent [ContainerMount] calls is finite and can
    be completed: a run of [n] callers has at most [9 * n] steps, and from
    every state it reaches some further steps lead to a state in which all
    callers have returned. *)
Theorem ContainerMount_runs_complete (n : nat) (isMounted : bool)
    (schedule : list (nat * bool)) (st : Sys) :
  exec schedule (initSys n isMounted) = Some st ->
  List.length schedule <= 9 * n /\
  exists rest st', exec rest st = Some st' /\
    Forall (fun p => isReturned p = true) (callers st').
Proof.
  intros E. split.
  - pose proof (exec_totalStepsLeft _ _ _ E) as H. cbn [initSys callers] in H.
    rewrite totalStepsLeft_repeat in H. lia.
  - apply (complete_from isMounted (totalStepsLeft (callers st))); [|lia].
    apply (Inv_reachable n). exact (exec_reachable _ _ _ _ (reach_init _) E).
Qed.

Lemma ContainerMount_runs_complete_witness :
  6 <= 9 * 2 /\
  exists rest st', exec rest midMountState = Some st' /\
    Forall (fun p => isReturned p = true) (callers st').
Proof.
  apply (ContainerMount_runs_complete 2 false
           [(0, true); (0, true); (0, true); (0, true); (0, true); (1, true)] midMountState).
  reflexivity.
Defined.








Lemma step_at (l1 l2 : list pc) (p p' : pc) (sh sh' : Shared) (mountOk : bool) :
  stepCaller mountOk sh p = Some (sh', p') ->
  step (List.length l1) mountOk (mkSys sh (l1 ++ p :: l2)%list) =
  Some (mkSys sh' (l1 ++ p' :: l2)%list).
Proof.
  intros E. unfold step. cbn [shared callers].
  rewrite nth_error_app2, Nat.sub_diag by lia. cbn [nth_error]. rewrite E.
  do 2 f_equal. induction l1 as [|z l1 IH]; cbn; [reflexivity | now rewrite IH].
Qed.

Lemma sweep (sh : Shared) (a b : pc) :
  (forall l1 l2, reachable (mkSys sh (l1 ++ a :: l2)%list) (mkSys sh (l1 ++ b :: l2)%list)) ->
  forall k pre,
    reachable (mkSys sh (pre ++ repeat a k)%list) (mkSys sh (pre ++ repeat b k)%list).
Proof.
  intros Hone. induction k as [|k IH]; intros pre; [apply reach_init|].
  cbn [repeat]. eapply reachable_trans; [apply Hone|].
  change (pre ++ b :: repeat a k)%list with (pre ++ [b] ++ repeat a k)%list.
  change (pre ++ b :: repeat b k)%list with (pre ++ [b] ++ repeat b k)%list.
  rewrite !app_assoc. apply IH.
Qed.

Lemma waiter_queues (l1 l2 : list pc) :
  reachable (mkSys failedOpen (l1 ++ AtLock1 :: l2)%list)
            (mkSys failedOpen (l1 ++ AtRecv 0 :: l2)%list).
Proof.
  eapply reach_step; [eapply reach_step; [eapply reach_step; [apply reach_init|] |] |].
  - eapply (step_at l1 l2 AtLock1 AtLookup failedOpen _ true). reflexivity.
  - eapply (step_at l1 l2 AtLookup (AtUnlockWait 0) _ _ true). reflexivity.
  - eapply (step_at l1 l2 (AtUnlockWait 0) (AtRecv 0) _ _ true). reflexivity.
Qed.

Lemma waiter_returns (l1 l2 : list pc) :
  reachable (mkSys failedClosed (l1 ++ AtRecv 0 :: l2)%list)
            (mkSys failedClosed (l1 ++ Returned true false None :: l2)%list).
Proof.
  eapply reach_step; [apply reach_init|].
  eapply (step_at l1 l2 (AtRecv 0) (Returned true false None) failedClosed _ true). reflexivity.
Qed.

(** X7.  The benefit of the doubt in [ContainerMount]: for every number
    [k] of further callers there is a run of [k + 1] concurrent calls in
    which the one call of [zfsPoolVolumeMount] fails, its caller returns the
    error, and each of the [k] others returns [(false, nil)] although the
    mount point is not mounted when all have returned. *)
Theorem ContainerMount_waiters_miss_failure (k : nat) :
  exists st,
    reachable (initSys (S k) false) st /\
    callers st = Returned false false (Some mountError) :: repeat (Returned true false None) k /\
    mounted (shared st) = false /\
    mounts (shared st) = 1.
Proof.
  exists (mkSys failedClosed
            (Returned false false (Some mountError) :: repeat (Returned true false None) k)).
  split; [|repeat split].
  (* the first caller inserts its channel and fails to mount *)
  assert (H1 : reachable (initSys (S k) false)
                 (mkSys failedOpen ([AtLock2 true (Some mountError)] ++ repeat AtLock1 k)%list)).
  { apply (exec_reachable [(0, true); (0, true); (0, true); (0, true); (0, true); (0, false)]
             _ _ _ (reach_init _)).
    reflexivity. }
  (* the others find the channel and wait *)
  pose proof (sweep failedOpen AtLock1 (AtRecv 0) waiter_queues k
                [AtLock2 true (Some mountError)]) as H2.
  (* the first caller closes the channel and returns the error *)
  assert (H3 : reachable
                 (mkSys failedOpen ([AtLock2 true (Some mountError)] ++ repeat (AtRecv 0) k)%list)
                 (mkSys failedClosed
                    ([Returned false false (Some mountError)] ++ repeat (AtRecv 0) k)%list)).
  { apply (exec_reachable [(0, true); (0, true); (0, true)] _ _ _ (reach_init _)).
    reflexivity. }
  (* the waiters return *)
  pose proof (sweep failedClosed (AtRecv 0) (Returned true false None) waiter_returns k
                [Returned false false (Some mountError)]) as H4.
  exact (reachable_trans _ _ _ (reachable_trans _ _ _ (reachable_trans _ _ _ H1 H2) H3) H4).
Qed.

(** ** The unmount coordinator *)

Lemma stepCallerUmount_mirror (ok : bool) (sh : Shared) (p : pc) :
  stepCaller ok (flipMounted sh) (asMount p) =
  match stepCallerUmount ok sh p with
  | Some (sh', p') => Some (flipMounted sh', asMount p')
  | None => None
  end.
Proof.
  destruct sh as [lk en cl nx mt ms fm].
  destruct p as [| |ch|ch| | | | |w e|w e|w e|w d e];
    cbn [asMount asMountError stepCaller stepCallerUmount flipMounted
         lockHeld entry closed nextChan mounted mounts failedMounts].
  all: try (destruct (existsb (Nat.eqb ch) cl); reflexivity).
  all: try (destruct e); destruct lk, en, mt, ok; reflexivity.
Qed.

Lemma setNth_map {A B} (f : A -> B) (i : nat) (x : A) (l : list A) :
  setNth i (f x) (map f l) = map f (setNth i x l).
Proof.
  revert i. induction l as [|y l IH]; intros [|i]; cbn; try reflexivity. now rewrite IH.
Qed.

Lemma stepUmount_mirror (i : nat) (ok : bool) (st : Sys) :
  step i ok (mirror st) =
  match stepUmount i ok st with Some st' => Some (mirror st') | None => None end.
Proof.
  unfold step, stepUmount, mirror. cbn [shared callers].
  rewrite nth_error_map. destruct (nth_error (callers st) i) as [p|]; [|reflexivity].
  cbn [option_map]. rewrite stepCallerUmount_mirror.
  destruct (stepCallerUmount ok (shared st) p) as [[sh' p']|]; [|reflexivity].
  cbn [shared callers]. now rewrite setNth_map.
Qed.

Lemma reachableUmount_mirror (n : nat) (isMounted : bool) (st : Sys) :
  reachableUmount (initSys n isMounted) st ->
  reachable (initSys n (negb isMounted)) (mirror st).
Proof.
  induction 1 as [|st i ok st' _ IH Hs].
  - unfold mirror, initSys. cbn. rewrite map_repeat. apply reach_init.
  - eapply reach_step; [exact IH|]. rewrite stepUmount_mirror, Hs. reflexivity.
Qed.




Lemma isReturned_asMount (p : pc) : isReturned (asMount p) = isReturned p.
Proof. destruct p; reflexivity. Qed.

Lemma execUmount_reachable (schedule : list (nat * bool)) :
  forall st0 st1 st, reachableUmount st0 st1 ->
    fold_left (fun o '(i, ok) => match o with Some s => stepUmount i ok s | None => None end)
              schedule (Some st1) = Some st ->
    reachableUmount st0 st.
Proof.
  induction schedule as [|[i b] rest IH]; intros st0 st1 st Hr E; cbn in E.
  - injection E as <-. exact Hr.
  - destruct (stepUmount i b st1) as [st2|] eqn:Es.
    + apply (IH st0 st2 st); [|exact E]. eapply reachU_step; eauto.
    + exfalso. clear -E. induction rest as [|[j c] rest IH]; cbn in E; [discriminate | auto].
Qed.


Lemma umountFinal_reachable : reachableUmount (initSys 2 true) umountFinal.
Proof.
  apply (execUmount_reachable oneWorkerSchedule _ _ _ (reachU_init _)). reflexivity.
Qed.


(** X9.  [ContainerUmount] does not deadlock: in every state concurrent
    callers for one container can reach, either every caller has returned or
    some caller can take its next step. *)
Theorem ContainerUmount_never_deadlocks (n : nat) (isMounted : bool) (st : Sys) :
  reachableUmount (initSys n isMounted) st ->
  Forall (fun p => isReturned p = true) (callers st) \/
  exists i umountOk st', stepUmount i umountOk st = Some st'.
Proof.
  intros Hr. apply reachableUmount_mirror in Hr.
  destruct (coordinator_progress _ _ (Inv_reachable _ _ _ Hr)) as [Hall | (i & ok & st' & Hs)].
  - left. cbn [mirror callers] in Hall. rewrite Forall_map in Hall.
    eapply Forall_impl; [|exact Hall]. cbn. intros p. now rewrite isReturned_asMount.
  - right. rewrite stepUmount_mirror in Hs.
    destruct (stepUmount i ok st) as [st2|] eqn:E; [|discriminate]. eauto.
Qed.

Lemma ContainerUmount_never_deadlocks_witness :
  Forall (fun p => isReturned p = true) (callers umountFinal) \/
  exists i umountOk st', stepUmount i umountOk umountFinal = Some st'.
Proof.
  apply (ContainerUmount_never_deadlocks 2 true umountFinal).
  exact umountFinal_reachable.
Defined.

(** ** Run equations of the one-command adapter functions *)

Lemma zfsPoolVolumeSnapshotCreate_run (s : storageZfs) (path name : string)
    (o : Oracle) (h : Trace) :
  zfsPoolVolumeSnapshotCreate s path name o h =
  let r := o h (snapshotCreateCmd s path name) in
  (Ret (if ok r then None else Some ("Failed to create ZFS snapshot: " ++ out r)),
   [(snapshotCreateCmd s path name, r)]).
Proof.
  unfold zfsPoolVolumeSnapshotCreate, snapshotCreateCmd. mstep. mstep.
  destruct (ok (o h _)); reflexivity.
Qed.

Lemma zfsPoolVolumeSet_run (s : storageZfs) (path key value : string) (o : Oracle) (h : Trace) :
  zfsPoolVolumeSet s path key value o h =
  let r := o h (setCmd s path key value) in
  (Ret (if ok r then None else Some ("Failed to set ZFS config: " ++ out r)),
   [(setCmd s path key value, r)]).
Proof.
  unfold zfsPoolVolumeSet, setCmd. mstep. mstep. destruct (ok (o h _)); reflexivity.
Qed.

Lemma zfsPoolVolumeCreate_run (s : storageZfs) (path : string) (o : Oracle) (h : Trace) :
  zfsPoolVolumeCreate s path o h =
  let c := CombinedOutput "zfs" ["create"; "-p"; onDiskPoolName s ++ "/" ++ path] in
  let r := o h c in
  (Ret (if ok r then None else Some ("Failed to create ZFS filesystem: " ++ out r)), [(c, r)]).
Proof.
  unfold zfsPoolVolumeCreate. mstep. mstep. destruct (ok (o h _)); reflexivity.
Qed.

Lemma zfsPoolVolumeSnapshotDestroy_run (s : storageZfs) (path name : string)
    (o : Oracle) (h : Trace) :
  zfsPoolVolumeSnapshotDestroy s path name o h =
  let r := o h (snapshotDestroyCmd s path name) in
  (Ret (if ok r then None else Some ("Failed to destroy ZFS snapshot: " ++ out r)),
   [(snapshotDestroyCmd s path name, r)]).
Proof.
  unfold zfsPoolVolumeSnapshotDestroy. mstep. mstep. destruct (ok (o h _)); reflexivity.
Qed.

Lemma zfsPoolVolumeSnapshotRename_run (s : storageZfs) (path oldName newName : string)
    (o : Oracle) (h : Trace) :
  zfsPoolVolumeSnapshotRename s path oldName newName o h =
  let r := o h (snapshotRenameCmd s path oldName newName) in
  (Ret (if ok r then None else Some ("Failed to rename ZFS snapshot: " ++ out r)),
   [(snapshotRenameCmd s path oldName newName, r)]).
Proof.
  unfold zfsPoolVolumeSnapshotRename. mstep. mstep. destruct (ok (o h _)); reflexivity.
Qed.

(** Symbolic execution up to the next command whose answer matters. *)
Ltac mrun :=
  repeat (first [ rewrite bind_unfold | rewrite call_unfold | rewrite ret_unfold
                | rewrite send_run
                | rewrite zfsPoolVolumeSnapshotCreate_run
                | rewrite zfsPoolVolumeSnapshotDestroy_run
                | rewrite zfsPoolVolumeSnapshotRename_run
                | rewrite zfsPoolVolumeCreate_run
                | rewrite zfsPoolVolumeSet_run
                | rewrite zfsPoolVolumeGet_run
                | rewrite zfsPoolVolumeExists_run
                | rewrite zfsPoolVolumeSnapshotRemovable_run
                | rewrite zfsPoolListSubvolumes_run ];
          cbv beta iota zeta).

(** ** Migration source: loading, failures and cleanup *)

Lemma loadSnapshots_run `{Host} (ct : container) (o : Oracle) :
  forall (snapshots : list string) (d d' : zfsMigrationSourceDriver) (h tr : Trace),
    loadSnapshots ct d snapshots o h = (Ret (Some d', None), tr) ->
    let kept := filter (fun n => HasPrefix n "snapshot-") snapshots in
    zfsSnapshotNames d' = (zfsSnapshotNames d ++ kept)%list /\
    drv_snapshots d' = (drv_snapshots d ++ map (lxdSnapshotName ct) kept)%list /\
    drv_container d' = drv_container d /\ zfs d' = zfs d /\
    runningSnapName d' = runningSnapName d /\ stoppedSnapName d' = stoppedSnapName d /\
    map fst tr = map (fun n => ContainerLoadByName (lxdSnapshotName ct n)) kept /\
    Forall (fun ev => ok (snd ev) = true) tr.
Proof.
  induction snapshots as [|snap rest IH]; intros d d' h tr.
  - cbn [loadSnapshots]. rewrite ret_unfold. intros E. injection E as <- <-.
    cbn. rewrite !app_nil_r. repeat split; constructor.
  - cbn [loadSnapshots filter]. destruct (HasPrefix snap "snapshot-") eqn:Ep; cbn [negb].
    + mstep. mstep. destruct (ok (o h _)) eqn:Eok.
      * destruct (loadSnapshots ct _ rest o _) as [res tr'] eqn:El.
        intros E. injection E as -> <-.
        destruct (IH _ _ _ _ El) as (H1 & H2 & H3 & H4 & H5 & H6 & H7 & H8).
        cbn [zfsSnapshotNames drv_snapshots drv_container zfs runningSnapName
             stoppedSnapName] in *.
        rewrite H1, H2, <- !app_assoc. cbn [app map fst].
        repeat split; auto; try (now rewrite H7).
      * rewrite ret_unfold. discriminate.
    + apply IH.
Qed.

(** X10.  What [MigrationSource] loads for a container that is not a
    snapshot: when it returns a driver, the ZFS snapshot names it keeps are
    the listed snapshots whose name starts with [snapshot-], in the order of
    the listing; the LXD snapshots are loaded under the container's name, the
    delimiter and the rest of each name, in the same order and one load per
    kept name; no migration snapshot is recorded yet. *)
Theorem MigrationSource_loads_snapshots `{Host} (s : storageZfs) (ct : container)
    (o : Oracle) (h tr : Trace) (d : zfsMigrationSourceDriver) :
  IsSnapshot ct = false ->
  MigrationSource s ct o h = (Ret (Some d, None), tr) ->
  exists (listed : list string) (rl : Resp),
    let kept := filter (fun n => HasPrefix n "snapshot-") listed in
    zfsPoolListSnapshots s ("containers/" ++ Name ct) o h =
      (Ret (listed, None), [(listSnapshotsCmd (snapshotsFullPath s ("containers/" ++ Name ct)), rl)]) /\
    zfsSnapshotNames d = kept /\
    drv_snapshots d = map (lxdSnapshotName ct) kept /\
    drv_container d = ct /\ zfs d = s /\ noMigrationSnapshots d /\
    map fst tr =
      listSnapshotsCmd (snapshotsFullPath s ("containers/" ++ Name ct)) ::
      map (fun n => ContainerLoadByName (lxdSnapshotName ct n)) kept.
Proof.
  intros Hs. unfold MigrationSource. rewrite Hs. mstep.
  rewrite zfsPoolListSnapshots_run. cbv zeta.
  set (cmd := listSnapshotsCmd _). set (rl := o h cmd).
  destruct (ok rl).
  - destruct (snapshotEntries _ _) as [listed|]; [|discriminate].
    destruct (loadSnapshots ct _ listed o _) as [res tr'] eqn:El.
    intros E. injection E as -> <-.
    destruct (loadSnapshots_run _ _ _ _ _ _ _ El) as (H1 & H2 & H3 & H4 & H5 & H6 & H7 & _).
    exists listed, rl. cbn in H1, H2, H3, H4, H5, H6.
    repeat split; auto. cbn [map fst app]. now rewrite H7.
  - rewrite ret_unfold. discriminate.
Qed.

Lemma MigrationSource_loads_snapshots_witness :
  exists (listed : list string) (rl : Resp),
    let kept := filter (fun n => HasPrefix n "snapshot-") listed in
    zfsPoolListSnapshots (emptyZfs "p") ("containers/" ++ Name c1) twoSnapshotsOracle [] =
      (Ret (listed, None),
       [(listSnapshotsCmd (snapshotsFullPath (emptyZfs "p") ("containers/" ++ Name c1)), rl)]) /\
    zfsSnapshotNames twoSnapshotsDriver = kept /\
    drv_snapshots twoSnapshotsDriver = map (lxdSnapshotName (H := lxdHost) c1) kept /\
    drv_container twoSnapshotsDriver = c1 /\ zfs twoSnapshotsDriver = emptyZfs "p" /\
    noMigrationSnapshots twoSnapshotsDriver /\
    map fst (snd (MigrationSource (H := lxdHost) (emptyZfs "p") c1 twoSnapshotsOracle [])) =
      listSnapshotsCmd (snapshotsFullPath (emptyZfs "p") ("containers/" ++ Name c1)) ::
      map (fun n => ContainerLoadByName (lxdSnapshotName (H := lxdHost) c1 n)) kept.
Proof.
  apply (MigrationSource_loads_snapshots (H := lxdHost) (emptyZfs "p") c1 twoSnapshotsOracle
           [] _ twoSnapshotsDriver).
  - reflexivity.
  - vm_compute. reflexivity.
Defined.

(** X11.  [SendWhileRunning] for a snapshot: the one command is a full
    [zfs send] of the snapshot's dataset under the parent container, no
    migration snapshot is made or recorded, and the error is that of the
    send. *)
Theorem SendWhileRunning_snapshot_sends_once `{Host} (d : zfsMigrationSourceDriver)
    (cName sName : string) (o : Oracle) (h : Trace) :
  IsSnapshot (drv_container d) = true ->
  Name (drv_container d) = cName ++ snapshotDelimiter ++ sName ->
  Contains cName snapshotDelimiter = false ->
  let cmd := SendStream "zfs"
               ["send"; onDiskPoolName (zfs d) ++ "/containers/" ++ cName ++ "@snapshot-" ++ sName] in
  SendWhileRunning d o h =
  (Ret (d, if ok (o h cmd) then None else Some (out (o h cmd))), [(cmd, o h cmd)]).
Proof.
  intros Hs Hn Hc cmd. unfold SendWhileRunning. rewrite Hs, Hn.
  rewrite (SplitN2_snapshot_name _ _ Hc). cbn [nth_error].
  mstep. rewrite send_run. cbv zeta.
  assert (Ea : SendStream "zfs" (sendArgs d ("snapshot-" ++ sName) "") = cmd).
  { unfold sendArgs, cmd. rewrite Hn, (SplitN2_snapshot_name _ _ Hc). reflexivity. }
  rewrite Ea. mstep. rewrite app_nil_r. reflexivity.
Qed.

Lemma SendWhileRunning_snapshot_sends_once_witness :
  let d := mkSourceDriver c1s1 [] [] (emptyZfs "p") "" "" in
  let cmd := SendStream "zfs" ["send"; "p/containers/c1@snapshot-s1"] in
  SendWhileRunning (H := lxdHost) d yesOracle [] =
  (Ret (d, if ok (yesOracle [] cmd) then None else Some (out (yesOracle [] cmd))),
   [(cmd, yesOracle [] cmd)]).
Proof.
  apply (SendWhileRunning_snapshot_sends_once (H := lxdHost)
           (mkSourceDriver c1s1 [] [] (emptyZfs "p") "" "") "c1" "s1" yesOracle []);
    reflexivity.
Defined.

Lemma okButLast_cons (c : Cmd) (r : Resp) (tr : Trace) :
  (c = NewUUID \/ ok r = true) -> okButLast tr -> okButLast ((c, r) :: tr).
Proof. intros Hc Ht. cbn [okButLast]. destruct tr; auto. Qed.

Lemma lastFailed_cons (ev : Event) (tr : Trace) :
  tr <> [] -> lastFailed (ev :: tr) = lastFailed tr.
Proof.
  intros Hne. unfold lastFailed. cbn [rev].
  destruct (rev tr) as [|[c r] l] eqn:E.
  - apply (f_equal (@rev _)) in E. rewrite rev_involutive in E. contradiction.
  - reflexivity.
Qed.

Lemma sendSnapshots_fails_fast `{Host} (d : zfsMigrationSourceDriver) (o : Oracle) :
  forall (snaps : list string) (prev lastSnap : string) (h : Trace),
  exists (l : string) (err : error) (tr : Trace),
    sendSnapshots d prev lastSnap snaps o h = (Ret (l, err), tr) /\
    snapshotTargets tr = [] /\
    match err with
    | None => Forall (fun ev => ok (snd ev) = true) tr
    | Some _ => okButLast tr /\ lastFailed tr = true
    end.
Proof.
  induction snaps as [|snap rest IH]; intros prev lastSnap h.
  - exists lastSnap, None, []. cbn. repeat split. constructor.
  - cbn [sendSnapshots]. mstep. rewrite send_run. cbv zeta.
    set (c := SendStream _ _). set (r := o h c).
    destruct (ok r) eqn:Eok.
    + destruct (IH snap snap (h ++ [(c, r)])%list) as (l & err & tr & E & Ht & He).
      rewrite E. exists l, err, ((c, r) :: tr). repeat split; [exact Ht|].
      destruct err as [e|].
      * destruct He as [Hb Hl]. split; [apply okButLast_cons; auto|].
        rewrite lastFailed_cons; [exact Hl|]. intros ->. discriminate Hl.
      * constructor; [exact Eok | exact He].
    + mstep. exists snap, (Some (out r)), [(c, r)]. repeat split.
      unfold lastFailed. cbn. now rewrite Eok.
Qed.

Lemma okButLast_app (a b : Trace) :
  Forall (fun ev => fst ev = NewUUID \/ ok (snd ev) = true) a -> okButLast b -> okButLast (a ++ b)%list.
Proof.
  induction 1 as [|[c r] a Hc _ IH]; intros Hb; [exact Hb|].
  cbn [app]. apply okButLast_cons; auto.
Qed.

Lemma lastFailed_app (a b : Trace) : b <> [] -> lastFailed (a ++ b)%list = lastFailed b.
Proof.
  intros Hne. induction a as [|ev a IH]; [reflexivity|].
  cbn [app]. rewrite lastFailed_cons; [exact IH|]. destruct a; [exact Hne | discriminate].
Qed.

Lemma snapshotTargets_app (a b : Trace) :
  snapshotTargets (a ++ b)%list = (snapshotTargets a ++ snapshotTargets b)%list.
Proof.
  induction a as [|[c r] a IH]; [reflexivity|].
  cbn [app snapshotTargets]. destruct c; try exact IH.
  destruct args as [|verb [|flag [|target [|x args]]]]; try exact IH.
  destruct (_ && _); [cbn [app]; now rewrite IH | exact IH].
Qed.

Lemma SendWhileRunning_shape `{Host} (d : zfsMigrationSourceDriver)
    (o : Oracle) (h : Trace) :
  IsSnapshot (drv_container d) = false ->
  exists (d' : zfsMigrationSourceDriver) (err : error) (tr : Trace),
    SendWhileRunning d o h = (Ret (d', err), tr) /\
    okButLast tr /\
    (err <> None <-> lastFailed tr = true) /\
    (err <> None /\ snapshotTargets tr = [] /\ d' = d \/
     snapshotTargets tr =
       [onDiskPoolName (zfs d) ++ "/containers/" ++ Name (drv_container d) ++ "@" ++
        runningSnapName d'] /\
     d' = setRunningSnapName d (runningSnapName d') /\
     HasPrefix (runningSnapName d') "migration-send-" = true).
Proof.
  intros Hs. unfold SendWhileRunning. rewrite Hs. mstep.
  destruct (sendSnapshots_fails_fast d o (zfsSnapshotNames d) "" "" h)
    as (l & err & tr & E & Ht & He).
  rewrite E. destruct err as [e|].
  - (* a send of the loop failed *)
    destruct He as [Hb Hl]. mstep. rewrite app_nil_r.
    exists d, (Some e), tr. repeat split; auto; try discriminate.
    left. repeat split; auto; discriminate.
  - mstep. mstep.
    set (ru := o (h ++ tr)%list NewUUID).
    set (d1 := setRunningSnapName d ("migration-send-" ++ out ru)).
    mstep. rewrite zfsPoolVolumeSnapshotCreate_run. cbv zeta.
    set (cs := snapshotCreateCmd _ _ _).
    set (rs := o _ cs).
    assert (Hpre : Forall (fun ev => fst ev = NewUUID \/ ok (snd ev) = true)
                     (tr ++ [(NewUUID, ru)])%list).
    { apply Forall_app. split.
      - eapply Forall_impl; [|exact He]. cbn. auto.
      - constructor; [left; reflexivity | constructor]. }
    assert (Hst : snapshotTargets (tr ++ [(NewUUID, ru); (cs, rs)])%list =
                  [onDiskPoolName (zfs d) ++ "/containers/" ++ Name (drv_container d) ++ "@" ++
                   runningSnapName d1]).
    { rewrite snapshotTargets_app, Ht. reflexivity. }
    destruct (ok rs) eqn:Eok.
    + mstep. rewrite send_run. cbv zeta.
      set (c2 := SendStream _ _).
      set (r2 := o _ c2).
      exists d1, (if ok r2 then None else Some (out r2)),
             (tr ++ (NewUUID, ru) :: (cs, rs) :: [(c2, r2)])%list.
      split; [|split; [|split]].
      * destruct (ok r2); mstep; reflexivity.
      * change (tr ++ (NewUUID, ru) :: (cs, rs) :: [(c2, r2)])%list
          with (tr ++ [(NewUUID, ru)] ++ [(cs, rs); (c2, r2)])%list.
        rewrite app_assoc. apply okButLast_app; [exact Hpre|].
        cbn. auto.
      * rewrite lastFailed_app by discriminate. unfold lastFailed. cbn.
        destruct (ok r2); cbn; split; congruence.
      * right. split; [|split; reflexivity].
        replace (tr ++ (NewUUID, ru) :: (cs, rs) :: [(c2, r2)])%list
          with ((tr ++ [(NewUUID, ru); (cs, rs)]) ++ [(c2, r2)])%list
          by (rewrite <- app_assoc; reflexivity).
        rewrite snapshotTargets_app, Hst. reflexivity.
    + mstep.
      exists d1, (Some ("Failed to create ZFS snapshot: " ++ out rs)),
             (tr ++ [(NewUUID, ru); (cs, rs)])%list.
      split; [|split; [|split]].
      * reflexivity.
      * change (tr ++ [(NewUUID, ru); (cs, rs)])%list
          with (tr ++ [(NewUUID, ru)] ++ [(cs, rs)])%list.
        rewrite app_assoc. apply okButLast_app; [exact Hpre | exact I].
      * rewrite lastFailed_app by discriminate. unfold lastFailed. cbn. rewrite Eok.
        split; [reflexivity | discriminate].
      * right. split; [exact Hst | split; reflexivity].
Qed.

(** X12.  [SendWhileRunning] for a container that is not a snapshot stops
    at the first failure: it returns (it does not panic), every command
    before the last one succeeded, an error is returned exactly when the last
    command failed, and either a send of the loop over the snapshots failed,
    in which case no [zfs snapshot] was run and the driver is unchanged, or
    [zfs snapshot] was run once, for the migration snapshot whose name the
    driver now records. *)
Theorem SendWhileRunning_stops_at_first_failure `{Host} (d : zfsMigrationSourceDriver)
    (o : Oracle) (h : Trace) :
  IsSnapshot (drv_container d) = false ->
  exists (d' : zfsMigrationSourceDriver) (err : error) (tr : Trace),
    SendWhileRunning d o h = (Ret (d', err), tr) /\
    okButLast tr /\
    (err <> None <-> lastFailed tr = true) /\
    (err <> None /\ snapshotTargets tr = [] /\ d' = d \/
     snapshotTargets tr =
       [onDiskPoolName (zfs d) ++ "/containers/" ++ Name (drv_container d) ++ "@" ++
        runningSnapName d'] /\
     d' = setRunningSnapName d (runningSnapName d') /\
     HasPrefix (runningSnapName d') "migration-send-" = true).
Proof. exact (SendWhileRunning_shape d o h). Qed.

Lemma SendWhileRunning_stops_at_first_failure_witness :
  exists (d' : zfsMigrationSourceDriver) (err : error) (tr : Trace),
    SendWhileRunning (H := lxdHost) twoSnapshotsDriver yesOracle [] = (Ret (d', err), tr) /\
    okButLast tr /\
    (err <> None <-> lastFailed tr = true) /\
    (err <> None /\ snapshotTargets tr = [] /\ d' = twoSnapshotsDriver \/
     snapshotTargets tr =
       [onDiskPoolName (zfs twoSnapshotsDriver) ++ "/containers/" ++
        Name (drv_container twoSnapshotsDriver) ++ "@" ++ runningSnapName d'] /\
     d' = setRunningSnapName twoSnapshotsDriver (runningSnapName d') /\
     HasPrefix (runningSnapName d') "migration-send-" = true).
Proof.
  apply (SendWhileRunning_stops_at_first_failure (H := lxdHost) twoSnapshotsDriver yesOracle []).
  reflexivity.
Defined.

Lemma SendAfterCheckpoint_run `{Host} (d : zfsMigrationSourceDriver) (o : Oracle) (h : Trace) :
  let ru := o h NewUUID in
  let d' := setStoppedSnapName d ("migration-send-" ++ out ru) in
  let cs := snapshotCreateCmd (zfs d) ("containers/" ++ Name (drv_container d))
              (stoppedSnapName d') in
  let rs := o (h ++ [(NewUUID, ru)])%list cs in
  let c2 := SendStream "zfs" (sendArgs d' (stoppedSnapName d') (runningSnapName d)) in
  let r2 := o ((h ++ [(NewUUID, ru)]) ++ [(cs, rs)])%list c2 in
  SendAfterCheckpoint d o h =
  if ok rs then
    (Ret (d', if ok r2 then None else Some (out r2)), [(NewUUID, ru); (cs, rs); (c2, r2)])
  else
    (Ret (d', Some ("Failed to create ZFS snapshot: " ++ out rs)), [(NewUUID, ru); (cs, rs)]).
Proof.
  cbv zeta. unfold SendAfterCheckpoint. mstep. mstep. mstep.
  rewrite zfsPoolVolumeSnapshotCreate_run. cbv zeta.
  cbn [zfs drv_container setStoppedSnapName stoppedSnapName runningSnapName].
  destruct (ok (o (h ++ _)%list (snapshotCreateCmd _ _ _))) eqn:Eok.
  - mstep. rewrite send_run. cbv zeta. destruct (ok (o _ (SendStream _ _))); reflexivity.
  - reflexivity.
Qed.

(** X13.  The second phase sends the increment over the first: after a
    [SendWhileRunning] without error for a container that is not a snapshot,
    [SendAfterCheckpoint] draws an identifier, snapshots the container under
    [migration-send-<id>] and, when that succeeds, sends this snapshot with
    [-i] the migration snapshot of the first phase; both names are recorded
    in the driver. *)
Theorem SendAfterCheckpoint_increment_over_running `{Host} (d d1 : zfsMigrationSourceDriver)
    (o : Oracle) (h1 h2 tr1 : Trace) :
  IsSnapshot (drv_container d) = false ->
  Contains (Name (drv_container d)) snapshotDelimiter = false ->
  SendWhileRunning d o h1 = (Ret (d1, None), tr1) ->
  ok (o (h2 ++ [(NewUUID, o h2 NewUUID)])%list
        (snapshotCreateCmd (zfs d) ("containers/" ++ Name (drv_container d))
           ("migration-send-" ++ out (o h2 NewUUID)))) = true ->
  exists (d2 : zfsMigrationSourceDriver) (err : error) (ru rs r2 : Resp),
    let pool := onDiskPoolName (zfs d) in
    let name := Name (drv_container d) in
    SendAfterCheckpoint d1 o h2 =
      (Ret (d2, err),
       [(NewUUID, ru);
        (snapshotCreateCmd (zfs d) ("containers/" ++ name) (stoppedSnapName d2), rs);
        (sendCmd pool name (stoppedSnapName d2) (Some (runningSnapName d2)), r2)]) /\
    stoppedSnapName d2 = "migration-send-" ++ out ru /\
    runningSnapName d2 = runningSnapName d1 /\
    HasPrefix (runningSnapName d1) "migration-send-" = true /\
    In (pool ++ "/containers/" ++ name ++ "@" ++ runningSnapName d1) (snapshotTargets tr1) /\
    err = (if ok r2 then None else Some (out r2)).
Proof.
  intros Hs Hc E1 Hok.
  destruct (SendWhileRunning_shape d o h1 Hs) as (d1' & err1 & tr1' & E & _ & Hl & Hd).
  rewrite E1 in E. injection E as <- <- <-.
  destruct Hd as [[Hne _] | (Ht & Hd1 & Hp)]; [congruence|].
  pose proof (SendAfterCheckpoint_run d1 o h2) as R. cbv zeta in R.
  assert (Ez : zfs d1 = zfs d) by (rewrite Hd1; reflexivity).
  assert (Ec : drv_container d1 = drv_container d) by (rewrite Hd1; reflexivity).
  rewrite Ez, Ec in R. cbn [stoppedSnapName setStoppedSnapName] in R.
  rewrite Hok in R.
  eexists (setStoppedSnapName d1 ("migration-send-" ++ out (o h2 NewUUID))), _, _, _, _.
  cbv zeta. split; [|split; [reflexivity|split; [reflexivity|split; [|split; [|reflexivity]]]]].
  - rewrite R. rewrite sendArgs_sendCmd by (cbn; rewrite Ec; exact Hc).
      cbn [zfs drv_container setStoppedSnapName stoppedSnapName runningSnapName].
      rewrite Ez, Ec. unfold parentOf.
      replace (String.eqb (runningSnapName d1) "") with false; [reflexivity|].
      symmetry. apply String.eqb_neq. intros En. rewrite En in Hp. discriminate Hp.
  - exact Hp.
  - rewrite Ht. left. reflexivity.
Qed.

Lemma SendAfterCheckpoint_increment_over_running_witness :
  exists (d2 : zfsMigrationSourceDriver) (err : error) (ru rs r2 : Resp),
    let pool := onDiskPoolName (zfs twoSnapshotsDriver) in
    let name := Name (drv_container twoSnapshotsDriver) in
    SendAfterCheckpoint (H := lxdHost) afterRunning yesOracle [] =
      (Ret (d2, err),
       [(NewUUID, ru);
        (snapshotCreateCmd (zfs twoSnapshotsDriver) ("containers/" ++ name)
           (stoppedSnapName d2), rs);
        (sendCmd pool name (stoppedSnapName d2) (Some (runningSnapName d2)), r2)]) /\
    stoppedSnapName d2 = "migration-send-" ++ out ru /\
    runningSnapName d2 = runningSnapName afterRunning /\
    HasPrefix (runningSnapName afterRunning) "migration-send-" = true /\
    In (pool ++ "/containers/" ++ name ++ "@" ++ runningSnapName afterRunning)
       (snapshotTargets (snd (SendWhileRunning (H := lxdHost) twoSnapshotsDriver yesOracle []))) /\
    err = (if ok r2 then None else Some (out r2)).
Proof.
  apply (SendAfterCheckpoint_increment_over_running (H := lxdHost) twoSnapshotsDriver
           afterRunning yesOracle [] []).
  - reflexivity.
  - reflexivity.
  - vm_compute. reflexivity.
  - reflexivity.
Defined.

Lemma Cleanup_run (d : zfsMigrationSourceDriver) (o : Oracle) (h : Trace) :
  map fst (snd (Cleanup d o h)) =
  ((if String.eqb (stoppedSnapName d) "" then []
    else [snapshotDestroyCmd (zfs d) ("containers/" ++ Name (drv_container d))
            (stoppedSnapName d)]) ++
   (if String.eqb (runningSnapName d) "" then []
    else [snapshotDestroyCmd (zfs d) ("containers/" ++ Name (drv_container d))
            (runningSnapName d)]))%list.
Proof.
  unfold Cleanup.
  destruct (String.eqb (stoppedSnapName d) ""), (String.eqb (runningSnapName d) "");
    cbn [negb];
    repeat (first [mstep | rewrite zfsPoolVolumeSnapshotDestroy_run; cbv beta iota zeta]);
    reflexivity.
Qed.

Lemma migration_name_nonempty (u : string) : String.eqb ("migration-send-" ++ u) "" = false.
Proof. reflexivity. Qed.

Lemma SendWhileRunning_targets `{Host} (d d1 : zfsMigrationSourceDriver) (o : Oracle)
    (h tr : Trace) (err : error) :
  SendWhileRunning d o h = (Ret (d1, err), tr) ->
  stoppedSnapName d1 = stoppedSnapName d /\ zfs d1 = zfs d /\
  drv_container d1 = drv_container d /\
  (snapshotTargets tr = [] /\ runningSnapName d1 = runningSnapName d \/
   snapshotTargets tr =
     [onDiskPoolName (zfs d) ++ "/containers/" ++ Name (drv_container d) ++ "@" ++
      runningSnapName d1] /\
   String.eqb (runningSnapName d1) "" = false).
Proof.
  destruct (IsSnapshot (drv_container d)) eqn:Hs.
  - unfold SendWhileRunning. rewrite Hs.
    destruct (nth_error _ 1) as [f1|]; [|discriminate].
    mrun. intros E. injection E as <- _ <-.
    repeat split. left. split; reflexivity.
  - intros E. destruct (SendWhileRunning_shape d o h Hs) as (d' & err' & tr' & E' & _ & _ & Hd).
    rewrite E in E'. injection E' as <- <- <-.
    destruct Hd as [(_ & Ht & ->) | (Ht & Hd1 & Hp)].
    + repeat split. left. split; [exact Ht | reflexivity].
    + rewrite Hd1 at 1 2 3. cbn [stoppedSnapName zfs drv_container setRunningSnapName].
      repeat split. right. split; [exact Ht|].
      apply String.eqb_neq. intros En. rewrite En in Hp. discriminate Hp.
Qed.

(** X14.  [Cleanup] destroys what the two phases snapshotted.  On a driver
    that records no migration snapshot, as [MigrationSource] returns it, run
    [SendWhileRunning] and then [SendAfterCheckpoint], whatever their errors:
    the commands of [Cleanup] afterwards are [zfs destroy -r] of exactly the
    datasets the [zfs snapshot -r] commands of the two phases named, the
    newest first; after the first phase alone they are those of that phase. *)
Theorem Cleanup_destroys_migration_snapshots `{Host} (d d1 d2 : zfsMigrationSourceDriver)
    (o : Oracle) (h1 h2 h3 tr1 tr2 : Trace) (e1 e2 : error) :
  noMigrationSnapshots d ->
  SendWhileRunning d o h1 = (Ret (d1, e1), tr1) ->
  SendAfterCheckpoint d1 o h2 = (Ret (d2, e2), tr2) ->
  map fst (snd (Cleanup d1 o h3)) = map destroyCmdOf (rev (snapshotTargets tr1)) /\
  map fst (snd (Cleanup d2 o h3)) = map destroyCmdOf (rev (snapshotTargets (tr1 ++ tr2)%list)).
Proof.
  intros [Hr Hst] E1 E2.
  destruct (SendWhileRunning_targets _ _ _ _ _ _ E1) as (Hs1 & Ez & Ec & Hd).
  pose proof (SendAfterCheckpoint_run d1 o h2) as R. cbv zeta in R. rewrite E2 in R.
  assert (H2 : d2 = setStoppedSnapName d1 ("migration-send-" ++ out (o h2 NewUUID)) /\
               snapshotTargets tr2 =
                 [onDiskPoolName (zfs d) ++ "/containers/" ++ Name (drv_container d) ++ "@" ++
                  "migration-send-" ++ out (o h2 NewUUID)]).
  { destruct (ok (o (h2 ++ _)%list (snapshotCreateCmd _ _ _)));
      injection R as -> _ ->; rewrite Ez, Ec; split; reflexivity. }
  destruct H2 as [-> Ht2].
  rewrite !Cleanup_run, snapshotTargets_app, Ht2.
  cbn [stoppedSnapName runningSnapName zfs drv_container setStoppedSnapName].
  rewrite migration_name_nonempty, Hs1, Hst, Ez, Ec.
  change (String.eqb "" "") with true. cbv iota.
  destruct Hd as [[Ht Hrn] | [Ht Hne]].
  - rewrite Ht, Hrn, Hr. split; reflexivity.
  - rewrite Ht, Hne. split; reflexivity.
Qed.

Lemma Cleanup_destroys_migration_snapshots_witness :
  let d1 := afterRunning in
  let d2 := setStoppedSnapName afterRunning "migration-send-" in
  let tr1 := snd (SendWhileRunning (H := lxdHost) twoSnapshotsDriver yesOracle []) in
  let tr2 := snd (SendAfterCheckpoint (H := lxdHost) afterRunning yesOracle []) in
  map fst (snd (Cleanup d1 yesOracle [])) = map destroyCmdOf (rev (snapshotTargets tr1)) /\
  map fst (snd (Cleanup d2 yesOracle [])) =
    map destroyCmdOf (rev (snapshotTargets (tr1 ++ tr2)%list)).
Proof.
  apply (Cleanup_destroys_migration_snapshots (H := lxdHost) twoSnapshotsDriver afterRunning
           (setStoppedSnapName afterRunning "migration-send-") yesOracle [] [] []
           _ _ None None).
  - split; reflexivity.
  - vm_compute. reflexivity.
  - vm_compute. reflexivity.
Defined.

(** ** Restore: the pre-check and a run *)

Lemma ContainerRestore_runs_witness :
  let s := emptyZfs "p" in
  let root := "containers/" ++ "c1" in
  let name := "snapshot-" ++ "s1" in
  exists deletes rr rl subs,
    ContainerRestore (H := lxdHost) s c1Two c1s1 yesOracle [] =
      (Ret None,
       (deletes ++
        [(CombinedOutput "zfs" (rollbackArgs s root name), rr);
         (listSubvolumesCmd (onDiskPoolName s ++ "/" ++ root), rl)] ++ subs)%list) /\
    map fst deletes = map SnapshotDelete (rev (skipn (S 0) ["c1/s1"; "c1/s2"])) /\
    (forall j x, j <= 0 -> nth_error ["c1/s1"; "c1/s2"] j = Some x ->
                 ~ In (SnapshotDelete x) (map fst deletes)) /\
    subBlocks s name (subvolumeEntries s (onDiskPoolName s ++ "/" ++ root) (out rl)) subs.
Proof.
  apply (ContainerRestore_runs (H := lxdHost) (emptyZfs "p") c1Two c1s1 ["c1/s1"; "c1/s2"] 0
           "c1" "s1" yesOracle []).
  - reflexivity.
  - reflexivity.
  - repeat constructor; cbn; intuition discriminate.
  - reflexivity.
  - reflexivity.
  - reflexivity.
  - intros h fullPath. cbn. discriminate.
Defined.

(** X16.  [ContainerCanRestore] on a non-empty snapshot list looks at the
    last entry only: it allows the restore exactly when that entry is the
    source snapshot or [zfs.remove_snapshots] of the volume is true, wherever
    else in the list the source may be, and it runs no command. *)
Theorem ContainerCanRestore_latest_or_remove_snapshots `{Host} (s : storageZfs)
    (c sourceContainer : container) (older : list string) (latest : string)
    (o : Oracle) (h : Trace) :
  Snapshots c = ((older ++ [latest])%list, None) ->
  ContainerCanRestore s c sourceContainer o h =
  (Ret (if String.eqb latest (Name sourceContainer) ||
           IsTrue (lookup (volume_Config s) "zfs.remove_snapshots")
        then None else Some restoreRefused), []).
Proof.
  intros E. unfold ContainerCanRestore. rewrite E.
  rewrite length_app. cbn [List.length].
  replace (Z.of_nat (List.length older + 1) - 1)%Z with (Z.of_nat (List.length older)) by lia.
  assert (En : nth_error (older ++ [latest])%list (List.length older) = Some latest).
  { rewrite nth_error_app2, Nat.sub_diag by lia. reflexivity. }
  destruct (Z.of_nat (List.length older)) eqn:Ez.
  - change (Z.to_nat 0) with 0. replace 0 with (List.length older) by lia. rewrite En.
    destruct (String.eqb latest (Name sourceContainer)), (IsTrue _); reflexivity.
  - rewrite <- Ez, Nat2Z.id, En.
    destruct (String.eqb latest (Name sourceContainer)), (IsTrue _); reflexivity.
  - lia.
Qed.

Lemma ContainerCanRestore_latest_or_remove_snapshots_witness :
  ContainerCanRestore (H := lxdHost) (emptyZfs "p") c1Two c1s1 yesOracle [] =
  (Ret (if String.eqb "c1/s2" (Name c1s1) ||
           @IsTrue lxdHost (lookup (volume_Config (emptyZfs "p")) "zfs.remove_snapshots")
        then None else Some restoreRefused), []).
Proof.
  apply (ContainerCanRestore_latest_or_remove_snapshots (H := lxdHost) (emptyZfs "p") c1Two c1s1
           ["c1/s1"] "c1/s2" yesOracle []).
  reflexivity.
Defined.

(** ** What the adapter destroys, and when *)

Lemma zfsPoolVolumeCleanup_guarded (s : storageZfs) :
  forall (depth : nat) (path : string),
    emitsOnly (fun c => zfsVerb c = Some "destroy" ->
                        exists p, c = CombinedOutput "zfs" (destroyArgs s p) /\ cleanable p = true)
              (zfsPoolVolumeCleanup depth s path).
Proof.
  induction depth as [|d IH]; intros path; cbn [zfsPoolVolumeCleanup]; [emits|].
  assert (Hdestroy : cleanable path = true ->
            emitsOnly (fun c => zfsVerb c = Some "destroy" ->
                         exists p, c = CombinedOutput "zfs" (destroyArgs s p) /\
                                   cleanable p = true)
                      (zfsPoolVolumeDestroy s path)).
  { intros Hc. apply zfsPoolVolumeDestroy_emits; try (intros; discriminate).
    intros _. exists path. auto. }
  destruct (HasPrefix path "deleted/") eqn:Hd.
  - assert (Hc : cleanable path = true) by (unfold cleanable; rewrite Hd; reflexivity).
    emits; auto;
      try (apply zfsPoolVolumeGet_emits; discriminate);
      try (apply zfsPoolListSnapshots_emits; discriminate);
      try (apply zfsPoolVolumeSnapshotRemovable_emits; intros; discriminate).
  - destruct (HasPrefix path "containers" && Contains path "@copy-") eqn:Hc.
    + emits. apply Hdestroy. unfold cleanable. rewrite Hc. apply orb_true_r.
    + emits.
Qed.

(** X17.  [zfsPoolVolumeCleanup] destroys nothing outside the graveyard:
    however deep it follows the clone origins, every dataset or snapshot it
    runs [zfs destroy] on lies under [deleted/] or is a [@copy-] snapshot
    under [containers]. *)
Theorem zfsPoolVolumeCleanup_destroys_only_graveyard (depth : nat) (s : storageZfs)
    (path : string) (o : Oracle) (h : Trace) (c : Cmd) :
  In c (map fst (snd (zfsPoolVolumeCleanup depth s path o h))) ->
  zfsVerb c = Some "destroy" ->
  exists p, c = CombinedOutput "zfs" (destroyArgs s p) /\ cleanable p = true.
Proof.
  intros Hin. exact (emitsOnly_In _ _ o h c (zfsPoolVolumeCleanup_guarded s depth path) Hin).
Qed.

Lemma zfsPoolVolumeCleanup_destroys_only_graveyard_witness :
  exists p, CombinedOutput "zfs" ["destroy"; "-r"; "p/deleted/images/abc"] =
            CombinedOutput "zfs" (destroyArgs (emptyZfs "p") p) /\ cleanable p = true.
Proof.
  apply (zfsPoolVolumeCleanup_destroys_only_graveyard 3 (emptyZfs "p") "deleted/images/abc"
           lastCloneGone []).
  - vm_compute. tauto.
  - reflexivity.
Defined.

Lemma tryExecFrom_first (n : nat) (last : Resp) (name : string) (args : list string)
    (o : Oracle) (h : Trace) :
  exists r rest,
    snd (tryExecFrom (S n) last name args o h) = (CombinedOutput name args, r) :: rest.
Proof.
  cbn [tryExecFrom]. mrun. destruct (ok (o h (CombinedOutput name args))).
  - mrun. eexists _, _. reflexivity.
  - mrun.
    match goal with
    | |- context [tryExecFrom n ?l name args o ?hh] =>
        destruct (tryExecFrom n l name args o hh) as [res tr]
    end.
    eexists _, _. reflexivity.
Qed.

Lemma tryExec_trace (name : string) (args : list string) (o : Oracle) (h : Trace) :
  exists r rest,
    snd (tryExec name args o h) = (CombinedOutput name args, r) :: rest /\
    Forall (fun ev => fst ev = CombinedOutput name args \/ fst ev = Sleep 500)
           (snd (tryExec name args o h)).
Proof.
  destruct (tryExecFrom_first 19 (mkResp "" true) name args o h) as (r & rest & E).
  exists r, rest. split; [exact E|].
  apply (tryExecFrom_emits (fun c => c = CombinedOutput name args \/ c = Sleep 500)); auto.
Qed.

Ltac finish_destroy pre :=
  match goal with
  | |- context [tryExec "zfs" ?a ?o ?hh] =>
      right; exists pre, hh;
      let r := fresh "r" in
      destruct (tryExec "zfs" a o hh) as [[r| |] ?]; try destruct (ok r);
      mrun; cbn [snd app]; rewrite ?app_nil_r; (split; [reflexivity|])
  end.

Lemma zfsPoolVolumeDestroy_cases (s : storageZfs) (path : string) (o : Oracle) (h : Trace) :
  let tr := snd (zfsPoolVolumeDestroy s path o h) in
  (~ In (CombinedOutput "zfs" (destroyArgs s path)) (map fst tr) /\
   exists c r, In (c, r) tr /\ destroyGuard s path c /\ ok r = false) \/
  (exists pre h', tr = (pre ++ snd (tryExec "zfs" (destroyArgs s path) o h'))%list /\
     forall c r, In (c, r) pre -> destroyGuard s path c -> ok r = true).
Proof.
  cbv zeta. unfold zfsPoolVolumeDestroy. mrun.
  set (get := getCmd s path "mountpoint"). set (rg := o h get).
  assert (Hget : destroyGuard s path get) by (left; reflexivity).
  destruct (ok rg) eqn:Eg; mrun.
  2:{ left. cbn. split; [intros [E|[]]; discriminate E|]. exists get, rg. auto. }
  set (mp := TrimRight (out rg) nl). unfold orReturn. mrun.
  destruct (String.eqb mp "none") eqn:En; cbn [negb]; mrun.
  - finish_destroy [(get, rg)];
      intros c r' [E|[]] _; injection E as <- <-; exact Eg.
  - set (rm := o _ (IsMountPoint mp)). destruct (ok rm) eqn:Em; mrun.
    + set (ru := o _ (Unmount mp)). destruct (ok ru) eqn:Eu; mrun.
      * finish_destroy [(get, rg); (IsMountPoint mp, rm); (Unmount mp, ru)];
          intros c r' [E|[E|[E|[]]]] Hg; injection E as <- <-; auto;
          destruct Hg as [E | [p E]]; discriminate E.
      * left. cbn. split.
        -- intros [E|[E|[E|[]]]]; discriminate E.
        -- exists (Unmount mp), ru. split; [auto|]. split; [right; eauto | exact Eu].
    + finish_destroy [(get, rg); (IsMountPoint mp, rm)];
        intros c r' [E|[E|[]]] Hg; injection E as <- <-; auto;
        destruct Hg as [E | [p E]]; discriminate E.
Qed.

(** X18.  [zfsPoolVolumeDestroy] runs [zfs destroy] exactly when nothing
    before it failed: the command is among those run if and only if the read
    of the mount point succeeded and so did the unmount, when there was one
    (the dataset had a mount point and it was mounted). *)
Theorem zfsPoolVolumeDestroy_runs_destroy_iff (s : storageZfs) (path : string)
    (o : Oracle) (h : Trace) :
  let tr := snd (zfsPoolVolumeDestroy s path o h) in
  In (CombinedOutput "zfs" (destroyArgs s path)) (map fst tr) <->
  (forall c r, In (c, r) tr -> destroyGuard s path c -> ok r = true).
Proof.
  cbv zeta.
  destruct (zfsPoolVolumeDestroy_cases s path o h)
    as [(Hno & c & r & Hin & Hg & Hf) | (pre & h' & E & Hpre)].
  - split; [contradiction|]. intros Hall. specialize (Hall c r Hin Hg). congruence.
  - rewrite E.
    destruct (tryExec_trace "zfs" (destroyArgs s path) o h') as (r & rest & Et & Hall).
    split.
    + intros _ c r' Hin Hg. apply in_app_or in Hin as [Hin | Hin]; [eauto|].
      exfalso. rewrite Forall_forall in Hall. specialize (Hall _ Hin). cbn in Hall.
      destruct Hg as [-> | [p ->]], Hall as [E' | E']; discriminate E'.
    + intros _. rewrite map_app, Et. apply in_or_app. right. left. reflexivity.
Qed.

(** ** Reading the listing of snapshots *)

Lemma cut_char_length (d : ascii) :
  forall s a b, cut s (String d "") = Some (a, b) ->
    String.length s = String.length a + 1 + String.length b.
Proof.
  induction s as [|c r IH]; intros a b; cbn [cut prefixb].
  - discriminate.
  - destruct (Ascii.eqb d c) eqn:E; cbn [andb].
    + intros H. injection H as <- <-. cbn. lia.
    + destruct (cut r (String d "")) as [[a' b']|] eqn:Ec; [|discriminate].
      intros H. injection H as <- <-. cbn. specialize (IH _ _ eq_refl). lia.
Qed.

Lemma split_fuel_enough (d : ascii) :
  forall f s, String.length s <= f ->
    split_fuel f s (String d "") = split_fuel (String.length s) s (String d "").
Proof.
  induction f as [f IH] using lt_wf_ind. intros s Hlen.
  destruct f as [|f]; [replace (String.length s) with 0 by lia; reflexivity|].
  destruct (String.length s) as [|n] eqn:En; cbn [split_fuel].
  - destruct (cut s (String d "")) as [[a b]|] eqn:Ec; [|reflexivity].
    apply cut_char_length in Ec. lia.
  - destruct (cut s (String d "")) as [[a b]|] eqn:Ec; [|reflexivity].
    pose proof (cut_char_length _ _ _ _ Ec) as Hl.
    rewrite (IH f) by lia. rewrite (IH n) by lia. reflexivity.
Qed.

Lemma length_append (a b : string) :
  String.length (a ++ b) = String.length a + String.length b.
Proof. induction a as [|c a IH]; cbn; [reflexivity | now rewrite IH]. Qed.

Lemma Split_cons (d : ascii) (a b : string) :
  Contains a (String d "") = false ->
  Split (a ++ String d b) (String d "") = a :: Split b (String d "").
Proof.
  intros Hc. unfold Split. rewrite length_append. cbn [String.length].
  replace (String.length a + S (String.length b)) with (S (String.length a + String.length b))
    by lia.
  cbn [split_fuel]. rewrite (cut_delimiter _ _ _ Hc).
  rewrite split_fuel_enough by lia. reflexivity.
Qed.

Lemma Split_unlines (lines : list string) :
  Forall (fun l => Contains l nl = false) lines ->
  Split (unlines lines) nl = (lines ++ [""])%list.
Proof.
  induction 1 as [|l rest Hl _ IH]; [reflexivity|].
  cbn [unlines app]. rewrite <- IH.
  exact (Split_cons "010"%char l (unlines rest) Hl).
Qed.

Lemma Contains_char_app (d : ascii) (a b : string) :
  Contains (a ++ b) (String d "") = Contains a (String d "") || Contains b (String d "").
Proof.
  induction a as [|c a IH]; [reflexivity|].
  cbn [append Contains prefixb]. rewrite IH.
  destruct (Ascii.eqb d c); reflexivity.
Qed.

Lemma append_not_self (a b : string) : b <> "" -> String.eqb (a ++ b) a = false.
Proof.
  intros Hb. apply String.eqb_neq. intros E.
  apply (f_equal String.length) in E. rewrite length_append in E.
  destruct b; [contradiction | cbn in E; lia].
Qed.

Lemma snapshotEntries_names (fullPath : string) (names : list string) :
  Contains fullPath "@" = false ->
  snapshotEntries fullPath (List.app (map (fun n => fullPath ++ "@" ++ n) names) [""]) =
  Some names.
Proof.
  intros Hc. induction names as [|n rest IH]; [reflexivity|].
  cbn [map app snapshotEntries].
  assert (E1 : String.eqb (fullPath ++ "@" ++ n) "" = false).
  { apply String.eqb_neq. intros E. apply (f_equal String.length) in E.
    rewrite length_append in E. cbn in E. lia. }
  rewrite E1, (append_not_self fullPath ("@" ++ n)) by discriminate.
  unfold SplitN2. change ("@" ++ n) with (String "@"%char n).
  rewrite (cut_delimiter "@" fullPath n Hc). cbn [nth_error]. now rewrite IH.
Qed.

(** X19.  [zfsPoolListSnapshots] reads the listing back: when [zfs list]
    prints one line [<dataset>@<name>] per snapshot, the result is the list
    of the names after the [@], in the order of the listing (by creation,
    oldest first), and the one command run is that listing at depth 1. *)
Theorem zfsPoolListSnapshots_parses (s : storageZfs) (path : string) (names : list string)
    (o : Oracle) (h : Trace) :
  let fullPath := snapshotsFullPath s path in
  let r := o h (listSnapshotsCmd fullPath) in
  ok r = true ->
  out r = unlines (map (fun n => fullPath ++ "@" ++ n) names) ->
  Contains fullPath "@" = false ->
  Contains fullPath nl = false ->
  Forall (fun n => Contains n nl = false) names ->
  zfsPoolListSnapshots s path o h = (Ret (names, None), [(listSnapshotsCmd fullPath, r)]).
Proof.
  intros fullPath r Hok Hout Hat Hnl Hnames.
  rewrite zfsPoolListSnapshots_run. cbv zeta. fold fullPath. fold r. rewrite Hok, Hout.
  rewrite Split_unlines.
  - rewrite (snapshotEntries_names _ _ Hat). reflexivity.
  - apply Forall_map. eapply Forall_impl; [|exact Hnames]. cbv beta. intros n Hn.
    pose proof (Contains_char_app "010"%char fullPath ("@" ++ n)) as E1.
    pose proof (Contains_char_app "010"%char "@" n) as E2.
    change (String "010"%char "") with nl in E1, E2.
    rewrite E1, E2, Hnl, Hn. reflexivity.
Qed.

Lemma zfsPoolListSnapshots_parses_witness :
  zfsPoolListSnapshots (emptyZfs "p") "containers/c1" threeSnapshots [] =
  (Ret (["snapshot-s1"; "copy-77"; "snapshot-s2"], None),
   [(listSnapshotsCmd (snapshotsFullPath (emptyZfs "p") "containers/c1"),
     threeSnapshots [] (listSnapshotsCmd (snapshotsFullPath (emptyZfs "p") "containers/c1")))]).
Proof.
  apply (zfsPoolListSnapshots_parses (emptyZfs "p") "containers/c1"
           ["snapshot-s1"; "copy-77"; "snapshot-s2"] threeSnapshots []).
  - reflexivity.
  - reflexivity.
  - reflexivity.
  - reflexivity.
  - repeat constructor.
Defined.

Lemma snapshotEntries_stray (fullPath line : string) (entries : list string) :
  In line entries -> line <> "" -> line <> fullPath -> Contains line "@" = false ->
  snapshotEntries fullPath entries = None.
Proof.
  intros Hin Hne Hnf Hc. induction entries as [|entry rest IH]; [contradiction|].
  cbn [snapshotEntries].
  destruct (String.eqb entry "") eqn:E1.
  { apply String.eqb_eq in E1. destruct Hin as [-> | Hin]; [congruence | auto]. }
  destruct (String.eqb entry fullPath) eqn:E2.
  { apply String.eqb_eq in E2. destruct Hin as [-> | Hin]; [congruence | auto]. }
  destruct Hin as [-> | Hin].
  - rewrite (SplitN2_no_delimiter _ _ Hc). reflexivity.
  - destruct (nth_error (SplitN2 entry "@") 1); [|reflexivity].
    rewrite (IH Hin). reflexivity.
Qed.

(** X20.  [zfsPoolListSnapshots] panics on a stray line: when [zfs list]
    succeeds but its combined output has a line that is neither empty nor the
    dataset itself and has no [@], the index [[1]] of the split line is out
    of range and the call panics after the one listing command. *)
Theorem zfsPoolListSnapshots_panics_on_stray_line (s : storageZfs) (path line : string)
    (o : Oracle) (h : Trace) :
  let fullPath := snapshotsFullPath s path in
  let r := o h (listSnapshotsCmd fullPath) in
  ok r = true ->
  In line (Split (out r) nl) ->
  line <> "" -> line <> fullPath -> Contains line "@" = false ->
  zfsPoolListSnapshots s path o h = (Panic, [(listSnapshotsCmd fullPath, r)]).
Proof.
  intros fullPath r Hok Hin Hne Hnf Hc.
  rewrite zfsPoolListSnapshots_run. cbv zeta. fold fullPath. fold r. rewrite Hok.
  rewrite (snapshotEntries_stray fullPath line _ Hin Hne Hnf Hc). reflexivity.
Qed.

Lemma zfsPoolListSnapshots_panics_on_stray_line_witness :
  zfsPoolListSnapshots (emptyZfs "p") "containers/c1" warningOracle [] =
  (Panic,
   [(listSnapshotsCmd (snapshotsFullPath (emptyZfs "p") "containers/c1"),
     warningOracle [] (listSnapshotsCmd (snapshotsFullPath (emptyZfs "p") "containers/c1")))]).
Proof.
  apply (zfsPoolListSnapshots_panics_on_stray_line (emptyZfs "p") "containers/c1"
           "WARNING: pool is degraded" warningOracle []).
  - reflexivity.
  - vm_compute. tauto.
  - discriminate.
  - discriminate.
  - reflexivity.
Defined.

(** ** Deleting a snapshot *)

Lemma orReturn_unfold (m k : M error) (o : Oracle) (h : Trace) :
  orReturn m k o h =
  match m o h with
  | (Ret None, e1) => let '(r, e2) := k o (h ++ e1)%list in (r, (e1 ++ e2)%list)
  | (Ret (Some e), e1) => (Ret (Some e), e1)
  | (Panic, e1) => (Panic, e1)
  | (OutOfFuel, e1) => (OutOfFuel, e1)
  end.
Proof.
  unfold orReturn. rewrite bind_unfold. destruct (m o h) as [[[e|]| |] e1]; try reflexivity.
  rewrite ret_unfold, app_nil_r. reflexivity.
Qed.

Lemma removeIfExists_emits (P : Cmd -> Prop) (p : string) :
  P (PathExists p) -> P (Remove p) -> emitsOnly P (removeIfExists p).
Proof. intros H1 H2. unfold removeIfExists. emits; assumption. Qed.

Section SnapshotDelete.

Context `{Host}.
Variable PathIsEmpty : string -> M bool.
Hypothesis PathIsEmpty_no_zfs : forall p, emitsOnly (fun c => zfsVerb c = None) (PathIsEmpty p).

Lemma ContainerSnapshotDelete_shape (s : storageZfs) (snapshotContainer : container)
    (cName sName : string) (o : Oracle) (h : Trace) :
  Name snapshotContainer = cName ++ snapshotDelimiter ++ sName ->
  Contains cName snapshotDelimiter = false ->
  let fs := "containers/" ++ cName in
  let snapName := "snapshot-" ++ sName in
  let snap := "containers/" ++ cName ++ "@" ++ snapName in
  let re := o h (getCmd s snap "name") in
  let h1 := (h ++ [(getCmd s snap "name", re)])%list in
  let rc := o h1 (getCmd s snap "clones") in
  let h2 := (h1 ++ [(getCmd s snap "clones", rc)])%list in
  let ru := o h2 NewUUID in
  exists rest,
    Forall (fun ev => zfsVerb (fst ev) = None) rest /\
    snd (ContainerSnapshotDelete PathIsEmpty s snapshotContainer o h) =
    ((getCmd s snap "name", re) ::
     (if existsAnswer s snap re then
        (getCmd s snap "clones", rc) ::
        (if ok rc && removableValue (TrimRight (out rc) nl) then
           [(snapshotDestroyCmd s fs snapName, o h2 (snapshotDestroyCmd s fs snapName))]
         else
           [(NewUUID, ru);
            (snapshotRenameCmd s fs snapName ("copy-" ++ out ru),
             o (h2 ++ [(NewUUID, ru)])%list
               (snapshotRenameCmd s fs snapName ("copy-" ++ out ru)))])
      else []) ++ rest)%list.
Proof.
  intros Hn Hc. cbv zeta. unfold ContainerSnapshotDelete.
  rewrite Hn, (SplitN2_snapshot_name _ _ Hc). cbn [nth_error hd].
  mrun.
  set (snap := "containers/" ++ cName ++ "@" ++ "snapshot-" ++ sName).
  set (re := o h (getCmd s snap "name")).
  match goal with
  | |- context [orReturn ?m ?k] => set (K := k); set (D := m)
  end.
  assert (Hk : emitsOnly (fun c => zfsVerb c = None) K).
  { unfold K. emits; auto; try reflexivity; apply removeIfExists_emits; reflexivity. }
  rewrite orReturn_unfold.
  set (h1 := (h ++ [(getCmd s snap "name", re)])%list).
  set (rc := o h1 (getCmd s snap "clones")).
  assert (Esnap : snapshotPath ("containers/" ++ cName) ("snapshot-" ++ sName) = snap)
    by reflexivity.
  assert (HD : exists err,
    D o h1 =
    (Ret err,
     if existsAnswer s snap re then
       (getCmd s snap "clones", rc) ::
       (if ok rc && removableValue (TrimRight (out rc) nl) then
          [(snapshotDestroyCmd s ("containers/" ++ cName) ("snapshot-" ++ sName),
            o (h1 ++ [(getCmd s snap "clones", rc)])%list
              (snapshotDestroyCmd s ("containers/" ++ cName) ("snapshot-" ++ sName)))]
        else
          [(NewUUID, o (h1 ++ [(getCmd s snap "clones", rc)])%list NewUUID);
           (snapshotRenameCmd s ("containers/" ++ cName) ("snapshot-" ++ sName)
              ("copy-" ++ out (o (h1 ++ [(getCmd s snap "clones", rc)])%list NewUUID)),
            o ((h1 ++ [(getCmd s snap "clones", rc)]) ++
               [(NewUUID, o (h1 ++ [(getCmd s snap "clones", rc)])%list NewUUID)])%list
              (snapshotRenameCmd s ("containers/" ++ cName) ("snapshot-" ++ sName)
                 ("copy-" ++ out (o (h1 ++ [(getCmd s snap "clones", rc)])%list NewUUID))))])
     else [])).
  { unfold D. destruct (existsAnswer s snap re).
    - mrun. rewrite Esnap. fold rc.
      destruct (ok rc); cbn [andb].
      + destruct (removableValue (TrimRight (out rc) nl)); mrun; eexists; reflexivity.
      + mrun. eexists; reflexivity.
    - mrun. eexists; reflexivity. }
  destruct HD as [err HD]. rewrite HD. clear HD.
  destruct err as [e|].
  - exists []. split; [constructor|]. cbn [snd]. rewrite app_nil_r. reflexivity.
  - match goal with
    | |- context [K o ?hh] =>
        pose proof (Hk o hh) as Hrest; destruct (K o hh) as [res rest]
    end.
    exists rest. split; [exact Hrest|]. reflexivity.
Qed.

Lemma zfsCommands_none (tr : Trace) :
  Forall (fun ev => zfsVerb (fst ev) = None) tr -> zfsCommands tr = [].
Proof.
  unfold zfsCommands. induction 1 as [|ev tr E _ IH]; [reflexivity|].
  cbn [map filter]. rewrite E. exact IH.
Qed.

Lemma zfsCommands_app (a b : Trace) :
  zfsCommands (a ++ b)%list = (zfsCommands a ++ zfsCommands b)%list.
Proof. unfold zfsCommands. now rewrite map_app, filter_app. Qed.

Lemma Contains_app_r (a b sub : string) : prefixb sub b = true -> Contains (a ++ b) sub = true.
Proof.
  intros Hp. induction a as [|c a IH].
  - cbn [append]. destruct b; cbn [Contains]; rewrite Hp; reflexivity.
  - cbn [append Contains]. rewrite IH. apply orb_true_r.
Qed.

(** X21.  [ContainerSnapshotDelete] destroys the ZFS snapshot exactly
    when the read of its [clones] property succeeded with the answer [-] or
    nothing; otherwise, also when the read failed, it renames the snapshot to
    [copy-<uuid>], a name under which [zfsPoolVolumeCleanup] destroys it
    later.  These are its only [zfs] commands; for a snapshot ZFS does not
    know there is only the existence check. *)
Theorem ContainerSnapshotDelete_destroys_iff_no_clones (s : storageZfs)
    (snapshotContainer : container) (cName sName : string) (o : Oracle) (h : Trace) :
  Name snapshotContainer = cName ++ snapshotDelimiter ++ sName ->
  Contains cName snapshotDelimiter = false ->
  let fs := "containers/" ++ cName in
  let snapName := "snapshot-" ++ sName in
  let snap := "containers/" ++ cName ++ "@" ++ snapName in
  let re := o h (getCmd s snap "name") in
  let h1 := (h ++ [(getCmd s snap "name", re)])%list in
  let rc := o h1 (getCmd s snap "clones") in
  let uuid := out (o (h1 ++ [(getCmd s snap "clones", rc)])%list NewUUID) in
  zfsCommands (snd (ContainerSnapshotDelete PathIsEmpty s snapshotContainer o h)) =
    (if existsAnswer s snap re then
       [getCmd s snap "name"; getCmd s snap "clones";
        if ok rc && removableValue (TrimRight (out rc) nl)
        then snapshotDestroyCmd s fs snapName
        else snapshotRenameCmd s fs snapName ("copy-" ++ uuid)]
     else [getCmd s snap "name"]) /\
  cleanable (fs ++ "@" ++ "copy-" ++ uuid) = true.
Proof.
  intros Hn Hc. cbv zeta. split.
  - destruct (ContainerSnapshotDelete_shape s snapshotContainer cName sName o h Hn Hc)
      as (rest & Hrest & E).
    cbv zeta in E. rewrite E.
    change (?x :: ?l ++ rest)%list with ((x :: l) ++ rest)%list.
    rewrite zfsCommands_app, (zfsCommands_none rest Hrest), app_nil_r.
    destruct (existsAnswer s _ _); [|reflexivity].
    destruct (ok _ && removableValue _); reflexivity.
  - unfold cleanable. apply orb_true_iff. right. apply andb_true_iff. split; [reflexivity|].
    apply (Contains_app_r ("containers/" ++ cName)). reflexivity.
Qed.

End SnapshotDelete.

Lemma ContainerSnapshotDelete_destroys_iff_no_clones_witness :
  zfsCommands (snd (ContainerSnapshotDelete (H := lxdHost) (fun _ => ret true)
                      (emptyZfs "p") c1s1 (snapshotOracle "p/containers/c2") [])) =
    [getCmd (emptyZfs "p") "containers/c1@snapshot-s1" "name";
     getCmd (emptyZfs "p") "containers/c1@snapshot-s1" "clones";
     snapshotRenameCmd (emptyZfs "p") "containers/c1" "snapshot-s1" "copy-6ba7b810"] /\
  cleanable "containers/c1@copy-6ba7b810" = true.
Proof.
  apply (ContainerSnapshotDelete_destroys_iff_no_clones (H := lxdHost) (fun _ => ret true)
           (fun _ => emitsOnly_ret _ true)
           (emptyZfs "p") c1s1 "c1" "s1" (snapshotOracle "p/containers/c2") []);
    reflexivity.
Defined.

(** ** Renaming a snapshot: what the revert does *)

Section SnapshotRename.

Context `{Host}.
Variable MkdirAll : string -> Z -> M error.
Variable Symlink : string -> string -> M error.
Hypothesis MkdirAll_no_zfs : forall p m, emitsOnly (fun c => zfsVerb c = None) (MkdirAll p m).
Hypothesis Symlink_no_zfs : forall a b, emitsOnly (fun c => zfsVerb c = None) (Symlink a b).

Lemma ContainerSnapshotRename_revert_no_zfs (s : storageZfs) (snapshotContainer : container) :
  forall depth,
    emitsOnly (fun c => zfsVerb c = None)
      (ContainerSnapshotRename MkdirAll Symlink depth s snapshotContainer
         (Name snapshotContainer)).
Proof.
  induction depth as [|d IH]; cbn [ContainerSnapshotRename]; [emits|].
  destruct (nth_error (SplitN2 (Name snapshotContainer) snapshotDelimiter) 1) as [old1|];
    [|emits].
  rewrite String.eqb_refl. cbn [negb].
  emits; auto; try reflexivity; try (apply removeIfExists_emits; reflexivity).
Qed.

(** X22.  The revert of [ContainerSnapshotRename] cannot undo the ZFS
    rename.  However the call ends and however often its deferred function
    calls it again, the only [zfs] command it runs is the one rename of the
    snapshot from the old to the new name (none when the two are equal): when
    a later step fails the error is returned with the ZFS snapshot left under
    the new name. *)
Theorem ContainerSnapshotRename_never_renames_back (depth : nat) (s : storageZfs)
    (snapshotContainer : container) (newName cName oldS newS : string)
    (o : Oracle) (h : Trace) :
  Name snapshotContainer = cName ++ snapshotDelimiter ++ oldS ->
  newName = cName ++ snapshotDelimiter ++ newS ->
  Contains cName snapshotDelimiter = false ->
  zfsCommands (snd (ContainerSnapshotRename MkdirAll Symlink (S depth) s snapshotContainer
                      newName o h)) =
  if String.eqb oldS newS then []
  else [snapshotRenameCmd s ("containers/" ++ cName) ("snapshot-" ++ oldS) ("snapshot-" ++ newS)].
Proof.
  intros Hn -> Hc. cbn [ContainerSnapshotRename].
  pose proof (ContainerSnapshotRename_revert_no_zfs s snapshotContainer depth) as Hrev.
  rewrite Hn in *. rewrite !(SplitN2_snapshot_name _ _ Hc). cbn [nth_error hd].
  match goal with
  | |- context [orReturn ?m ?k] => set (K := k); set (D := m)
  end.
  assert (Hk : emitsOnly (fun c => zfsVerb c = None) K).
  { unfold K. emits; auto; try reflexivity; try (apply removeIfExists_emits; reflexivity). }
  rewrite orReturn_unfold.
  assert (Eeq : String.eqb ("snapshot-" ++ oldS) ("snapshot-" ++ newS) = String.eqb oldS newS)
    by reflexivity.
  unfold D. rewrite Eeq. destruct (String.eqb oldS newS); cbn [negb].
  - mrun. pose proof (Hk o (h ++ [])%list) as Hrest.
    destruct (K o (h ++ [])%list) as [res rest]. cbn [snd app].
    exact (zfsCommands_none rest Hrest).
  - mrun. set (c := snapshotRenameCmd _ _ _ _). destruct (ok (o h c)).
    + pose proof (Hk o (h ++ [(c, o h c)])%list) as Hrest.
      destruct (K o (h ++ [(c, o h c)])%list) as [res rest]. cbn [snd].
      change ([(c, o h c)] ++ rest)%list with ([(c, o h c)] ++ rest)%list.
      rewrite zfsCommands_app, (zfsCommands_none rest Hrest). reflexivity.
    + reflexivity.
Qed.

Lemma ContainerSnapshotRename_revert_loops (s : storageZfs) (snapshotContainer : container)
    (cName oldS : string) (o : Oracle) :
  Name snapshotContainer = cName ++ snapshotDelimiter ++ oldS ->
  Contains cName snapshotDelimiter = false ->
  let legacy := VarPath ["snapshots/" ++ cName ++ "/" ++ oldS ++ ".zfs"] in
  (forall h, ok (o h (PathExists legacy)) = true) ->
  (forall h, ok (o h (Remove legacy)) = false) ->
  forall depth h,
    fst (ContainerSnapshotRename MkdirAll Symlink depth s snapshotContainer
           (Name snapshotContainer) o h) = OutOfFuel.
Proof.
  intros Hn Hc legacy He Hr. induction depth as [|d IH]; intros h; [reflexivity|].
  cbn [ContainerSnapshotRename].
  rewrite Hn in *. rewrite !(SplitN2_snapshot_name _ _ Hc). cbn [nth_error hd].
  rewrite String.eqb_refl. cbn [negb].
  rewrite orReturn_unfold. mrun. rewrite orReturn_unfold.
  unfold removeIfExists at 1. mrun. fold legacy. rewrite He. mrun. rewrite Hr. mrun.
  match goal with
  | |- context [ContainerSnapshotRename MkdirAll Symlink d s snapshotContainer ?n o ?hh] =>
      specialize (IH hh);
      destruct (ContainerSnapshotRename MkdirAll Symlink d s snapshotContainer n o hh)
        as [res tr]
  end.
  cbn [fst] in IH. subst res. reflexivity.
Qed.

(** X23.  The revert of [ContainerSnapshotRename] recurses without bound
    when the failure persists: if the legacy mount point of the old name
    exists and cannot be removed, then once the ZFS rename has succeeded no
    nesting depth suffices for the call to return; each deferred call fails
    at the same step and defers the next. *)
Theorem ContainerSnapshotRename_revert_never_returns (depth : nat) (s : storageZfs)
    (snapshotContainer : container) (newName cName oldS newS : string)
    (o : Oracle) (h : Trace) :
  Name snapshotContainer = cName ++ snapshotDelimiter ++ oldS ->
  newName = cName ++ snapshotDelimiter ++ newS ->
  Contains cName snapshotDelimiter = false ->
  let legacy := VarPath ["snapshots/" ++ cName ++ "/" ++ oldS ++ ".zfs"] in
  (forall h', ok (o h' (PathExists legacy)) = true) ->
  (forall h', ok (o h' (Remove legacy)) = false) ->
  ok (o h (snapshotRenameCmd s ("containers/" ++ cName) ("snapshot-" ++ oldS)
             ("snapshot-" ++ newS))) = true ->
  fst (ContainerSnapshotRename MkdirAll Symlink depth s snapshotContainer newName o h) =
  OutOfFuel.
Proof.
  intros Hn -> Hc legacy He Hr Hok. destruct depth as [|d]; [reflexivity|].
  pose proof (ContainerSnapshotRename_revert_loops s snapshotContainer cName oldS o Hn Hc
                He Hr d) as Hloop.
  cbn [ContainerSnapshotRename].
  rewrite Hn in *. rewrite !(SplitN2_snapshot_name _ _ Hc). cbn [nth_error hd].
  rewrite orReturn_unfold.
  assert (HD : exists tr,
    (if negb (String.eqb ("snapshot-" ++ oldS) ("snapshot-" ++ newS))
     then zfsPoolVolumeSnapshotRename s ("containers/" ++ cName) ("snapshot-" ++ oldS)
            ("snapshot-" ++ newS)
     else ret None) o h = (Ret None, tr)).
  { destruct (negb _).
    - rewrite zfsPoolVolumeSnapshotRename_run. cbv zeta. rewrite Hok. eexists; reflexivity.
    - eexists; reflexivity. }
  destruct HD as [tr0 HD]. rewrite HD.
  mrun. rewrite orReturn_unfold.
  unfold removeIfExists at 1. mrun. fold legacy. rewrite He. mrun. rewrite Hr. mrun.
  match goal with
  | |- context [ContainerSnapshotRename MkdirAll Symlink d s snapshotContainer ?n o ?hh] =>
      specialize (Hloop hh);
      destruct (ContainerSnapshotRename MkdirAll Symlink d s snapshotContainer n o hh)
        as [res tr]
  end.
  cbn [fst] in Hloop. subst res. reflexivity.
Qed.

End SnapshotRename.

Lemma ContainerSnapshotRename_never_renames_back_witness :
  zfsCommands (snd (ContainerSnapshotRename (H := lxdHost) (fun _ _ => ret None)
                      (fun _ _ => ret None) (S 2) (emptyZfs "p") c1s1 "c1/s2" stuckOracle [])) =
  if String.eqb "s1" "s2" then []
  else [snapshotRenameCmd (emptyZfs "p") ("containers/" ++ "c1") ("snapshot-" ++ "s1")
          ("snapshot-" ++ "s2")].
Proof.
  apply (ContainerSnapshotRename_never_renames_back (H := lxdHost) (fun _ _ => ret None)
           (fun _ _ => ret None) (fun _ _ => emitsOnly_ret _ None)
           (fun _ _ => emitsOnly_ret _ None) 2 (emptyZfs "p") c1s1 "c1/s2" "c1" "s1" "s2"
           stuckOracle []);
    reflexivity.
Defined.

Lemma ContainerSnapshotRename_revert_never_returns_witness :
  fst (ContainerSnapshotRename (H := lxdHost) (fun _ _ => ret None) (fun _ _ => ret None)
         7 (emptyZfs "p") c1s1 "c1/s2" stuckOracle []) = OutOfFuel.
Proof.
  apply (ContainerSnapshotRename_revert_never_returns (H := lxdHost) (fun _ _ => ret None)
           (fun _ _ => ret None) 7 (emptyZfs "p") c1s1 "c1/s2" "c1" "s1" "s2" stuckOracle []);
    try reflexivity; intros; reflexivity.
Defined.

(** ** Creating a pool *)

Lemma orReturn_None_inv (m k : M error) (o : Oracle) (h tr : Trace) :
  orReturn m k o h = (Ret None, tr) ->
  exists e1 e2, m o h = (Ret None, e1) /\ k o (h ++ e1)%list = (Ret None, e2) /\
                tr = (e1 ++ e2)%list.
Proof.
  rewrite orReturn_unfold. destruct (m o h) as [[[e|]| |] e1]; try discriminate.
  destruct (k o (h ++ e1)%list) as [r e2] eqn:Ek. intros E. injection E as -> <-.
  exists e1, e2. repeat split. exact Ek.
Qed.

Lemma zfsPoolVolumeCreate_None_inv (s : storageZfs) (path : string) (o : Oracle) (h e1 : Trace) :
  zfsPoolVolumeCreate s path o h = (Ret None, e1) ->
  exists r, ok r = true /\
    e1 = [(CombinedOutput "zfs" ["create"; "-p"; onDiskPoolName s ++ "/" ++ path], r)].
Proof.
  rewrite zfsPoolVolumeCreate_run. cbv zeta.
  destruct (ok (o h _)) eqn:E; [|discriminate].
  intros H. injection H as <-. eauto.
Qed.

Lemma zfsPoolVolumeSet_None_inv (s : storageZfs) (path key value : string) (o : Oracle)
    (h e1 : Trace) :
  zfsPoolVolumeSet s path key value o h = (Ret None, e1) ->
  exists r, ok r = true /\ e1 = [(setCmd s path key value, r)].
Proof.
  rewrite zfsPoolVolumeSet_run. cbv zeta.
  destruct (ok (o h _)) eqn:E; [|discriminate].
  intros H. injection H as <-. eauto.
Qed.

Section PoolCreate.

Context `{Host}.
Variable MkdirAll : string -> Z -> M error.

(** X24.  What a [StoragePoolCreate] that returns has done.  Without
    error: [zfsPoolCreate] succeeded, then the datasets [containers],
    [images], [custom] and [deleted] were created under the driver's on-disk
    name, in this order and each followed by setting its mount point to
    [none], all with success, then the pool's mount point directory was made,
    and nothing else was run.  With an error after [zfsPoolCreate] succeeded:
    the last thing run is the whole of [StoragePoolDelete], the deferred
    revert, and the error is that of the failed step, not of the revert. *)
Theorem StoragePoolCreate_skeleton_or_revert (s s' : storageZfs) (err : error)
    (o : Oracle) (h tr tr0 : Trace) :
  StoragePoolCreate MkdirAll s o h = (Ret (s', err), tr) ->
  zfsPoolCreate s o h = (Ret (s', None), tr0) ->
  match err with
  | None =>
      exists sk trm,
        tr = (tr0 ++ sk ++ trm)%list /\
        map fst sk = skeletonCmds s' /\
        Forall (fun ev => ok (snd ev) = true) sk /\
        MkdirAll (getStoragePoolMountPoint (pool_Name s')) 493 o ((h ++ tr0) ++ sk)%list =
          (Ret None, trm)
  | Some _ =>
      exists pre,
        tr = (tr0 ++ pre ++ snd (StoragePoolDelete s' o ((h ++ tr0) ++ pre)%list))%list
  end.
Proof.
  intros E E0. unfold StoragePoolCreate in E. rewrite bind_unfold, E0 in E.
  cbv beta iota zeta in E. rewrite bind_unfold in E.
  match type of E with
  | context [let (_, _) := ?b o ?hh in _] => destruct (b o hh) as [[[e|]| |] e1] eqn:Eb
  end; cbv beta iota zeta in E; try discriminate.
  - (* a step failed: the revert ran *)
    rewrite bind_unfold in E.
    destruct (StoragePoolDelete s' o _) as [[x| |] e2] eqn:Ed; try discriminate.
    rewrite ret_unfold in E. cbv beta iota zeta in E. injection E as <- <-.
    exists e1. rewrite Ed, app_nil_r. reflexivity.
  - rewrite ret_unfold in E. injection E as <- <-. rewrite app_nil_r.
    repeat match type of Eb with
           | orReturn _ _ _ _ = _ =>
               apply orReturn_None_inv in Eb as (? & ? & ? & Eb & ->)
           end.
    repeat match goal with
           | Hc : zfsPoolVolumeCreate _ _ _ _ = _ |- _ =>
               apply zfsPoolVolumeCreate_None_inv in Hc as (? & ? & ->)
           | Hs : zfsPoolVolumeSet _ _ _ _ _ _ = _ |- _ =>
               apply zfsPoolVolumeSet_None_inv in Hs as (? & ? & ->)
           end.
    rewrite ret_unfold in Eb. injection Eb as <-.
    match goal with
    | |- exists sk trm, (tr0 ++ ?a ++ ?b ++ ?c ++ ?d ++ ?e ++ ?f ++ ?g ++ ?i ++ ?t ++ [])%list = _ /\ _ =>
        exists (a ++ b ++ c ++ d ++ e ++ f ++ g ++ i)%list, t
    end.
    split; [|split; [|split]].
    + rewrite app_nil_r. cbn [app]. reflexivity.
    + reflexivity.
    + cbn [app]. repeat constructor; assumption.
    + repeat rewrite <- app_assoc in *. cbn [app] in *. assumption.
Qed.

End PoolCreate.

Lemma StoragePoolCreate_skeleton_or_revert_witness :
  exists sk trm,
    snd (StoragePoolCreate (H := lxdHost) mkdirOk loopPool loopFileOracle []) =
      (snd (zfsPoolCreate (H := lxdHost) loopPool loopFileOracle []) ++ sk ++ trm)%list /\
    map fst sk = skeletonCmds (setSource loopPool "/var/lib/lxd/disks/p.img") /\
    Forall (fun ev => ok (snd ev) = true) sk /\
    mkdirOk
      (@getStoragePoolMountPoint lxdHost
         (pool_Name (setSource loopPool "/var/lib/lxd/disks/p.img")))
      493%Z loopFileOracle
      (([] ++ snd (zfsPoolCreate (H := lxdHost) loopPool loopFileOracle [])) ++ sk)%list =
      (Ret None, trm).
Proof.
  apply (StoragePoolCreate_skeleton_or_revert (H := lxdHost) mkdirOk loopPool
           (setSource loopPool "/var/lib/lxd/disks/p.img") None loopFileOracle []).
  - vm_compute. reflexivity.
  - vm_compute. reflexivity.
Defined.

(** X25.  What [zfsPoolCreate] creates, by the kind of source.  A source
    that is not an absolute path names an existing pool or dataset: only
    [zfs get] and [zfs list] are run, nothing is created and the
    configuration is untouched.  An absolute path that is a block device: the
    one further command is [zpool create] on the device, and the source kept
    in the configuration becomes the pool's name.  Any other absolute path: the
    source becomes the path with [.img] appended, and success means that this
    file was created, given mode 0600 and the configured size, and that
    [zpool create] ran on the file, in this order. *)
Theorem zfsPoolCreate_by_source `{Host} (s s' : storageZfs) (err : error)
    (o : Oracle) (h tr : Trace) :
  zfsPoolCreate s o h = (Ret (s', err), tr) ->
  let source := lookup (pool_Config s) "source" in
  let vdev := if String.eqb source "" then filepathJoin (VarPath ["disks"]) (pool_Name s)
              else source in
  if IsAbs vdev then
    if ok (o h (IsBlockdevPath vdev)) then
      s' = setSource s (pool_Name s) /\
      map fst tr = [IsBlockdevPath vdev; zpoolCreateCmd s' vdev]
    else
      s' = setSource s (vdev ++ ".img") /\
      (err = None ->
       exists size, ParseInt (lookup (pool_Config s') "size") = Some size /\
         map fst tr = [IsBlockdevPath vdev; Create (vdev ++ ".img"); Chmod (vdev ++ ".img") 384;
                       Truncate (vdev ++ ".img") size; zpoolCreateCmd s' (vdev ++ ".img")])
  else
    s' = s /\
    Forall (fun ev => zfsVerb (fst ev) = Some "get" \/ zfsVerb (fst ev) = Some "list") tr.
Proof.
  intros E source vdev. revert E. unfold zfsPoolCreate. fold source. fold vdev.
  destruct (IsAbs vdev); cbn [negb].
  - mrun. destruct (ok (o h (IsBlockdevPath vdev))); cbn [negb].
    + unfold zpoolCreate. mrun. fold (zpoolCreateCmd (setSource s (pool_Name s)) vdev).
      destruct (ok (o _ (zpoolCreateCmd _ _))); mrun; intros E; injection E as <- _ <-;
        split; reflexivity.
    + mrun. destruct (ok (o _ (Create _))); cbn [negb]; mrun.
      2:{ intros E; injection E as <- <- _. split; [reflexivity | discriminate]. }
      destruct (ok (o _ (Chmod _ _))); cbn [negb]; mrun.
      2:{ intros E; injection E as <- <- _. split; [reflexivity | discriminate]. }
      destruct (ParseInt _) as [size|] eqn:Esize; mrun.
      2:{ intros E; injection E as <- <- _. split; [reflexivity | discriminate]. }
      destruct (ok (o _ (Truncate _ _))); cbn [negb]; mrun.
      2:{ intros E; injection E as <- <- _. split; [reflexivity | discriminate]. }
      unfold zpoolCreate. mrun.
      fold (zpoolCreateCmd (setSource s (vdev ++ ".img")) (vdev ++ ".img")).
      destruct (ok (o _ (zpoolCreateCmd _ _))); mrun; intros E; injection E as <- <- <-.
      * split; [reflexivity|]. intros _. exists size. split; [exact Esize | reflexivity].
      * split; [reflexivity | discriminate].
  - intros E.
    assert (Hem : emitsOnly (fun c => zfsVerb c = Some "get" \/ zfsVerb c = Some "list")
                    (err0 <- zfsPoolCheck vdev ;;
                     match err0 with
                     | Some e => ret (s, Some e)
                     | None =>
                         '(subvols, err1) <- zfsPoolListSubvolumes s vdev ;;
                         match err1 with
                         | Some e => ret (s, Some e)
                         | None =>
                             if Nat.ltb 0 (List.length subvols)
                             then ret (s, Some "Provided ZFS pool (or dataset) isn't empty")
                             else ret (s, None)
                         end
                     end)).
    { unfold zfsPoolCheck, zfsPoolListSubvolumes, listSubvolumesCmd. emits; auto. }
    pose proof (Hem o h) as Hall. rewrite E in Hall. cbn [snd] in Hall.
    split; [|exact Hall].
    revert E. mrun. unfold zfsPoolCheck. mrun.
    repeat match goal with
           | |- context [if ?b then _ else _] => destruct b; mrun
           end;
      intros E; injection E as <- _ _; reflexivity.
Qed.

Lemma zfsPoolCreate_by_source_witness :
  let img := "/var/lib/lxd/disks/p.img" in
  let s' := setSource loopPool img in
  s' = setSource loopPool img /\
  (@None string = None ->
   exists size, ParseInt (lookup (pool_Config s') "size") = Some size /\
     map fst (snd (zfsPoolCreate (H := lxdHost) loopPool loopFileOracle [])) =
       [IsBlockdevPath "/var/lib/lxd/disks/p"; Create img; Chmod img 384;
        Truncate img size; zpoolCreateCmd s' img]).
Proof.
  apply (zfsPoolCreate_by_source (H := lxdHost) loopPool
           (setSource loopPool "/var/lib/lxd/disks/p.img") None loopFileOracle []).
  vm_compute. reflexivity.
Defined.

(** ** What [ContainerDelete] touches *)

Lemma emitsOnly_and {A} (P Q : Cmd -> Prop) (m : M A) :
  emitsOnly P m -> emitsOnly Q m -> emitsOnly (fun c => P c /\ Q c) m.
Proof.
  intros HP HQ o h. specialize (HP o h). specialize (HQ o h).
  rewrite Forall_forall in *. intros ev Hin. split; auto.
Qed.

Lemma zfsPoolVolumeCleanup_own `{Host} (s : storageZfs) (c : container) (depth : nat)
    (path : string) :
  emitsOnly (ownChange s c) (zfsPoolVolumeCleanup depth s path).
Proof.
  eapply emitsOnly_weaken;
    [|exact (emitsOnly_and _ _ _ (zfsPoolVolumeCleanup_guarded s depth path)
               (zfsPoolVolumeCleanup_emits s depth path))].
  intros cmd [Hd Hc]. apply cleanupCmd_verb in Hc as [Hs Hr].
  repeat split; try contradiction.
  intros Ev. destruct (Hd Ev) as (p & -> & Hp). exists p. auto.
Qed.

Lemma zfsPoolVolumeDestroy_own `{Host} (s : storageZfs) (c : container) (path : string) :
  path = "containers/" ++ Name c \/ path = "snapshots/" ++ Name c ->
  emitsOnly (ownChange s c) (zfsPoolVolumeDestroy s path).
Proof.
  intros Hp. apply zfsPoolVolumeDestroy_emits;
    try (intros; repeat split; discriminate).
  repeat split; try discriminate. intros _. exists path. split; [reflexivity | tauto].
Qed.

Lemma snapshotsRemovable_emits (P : Cmd -> Prop) (s : storageZfs) (fs : string) :
  (forall snap, P (getCmd s snap "clones")) ->
  forall snaps removable, emitsOnly P (snapshotsRemovable s fs snaps removable).
Proof.
  intros Hp. induction snaps as [|snap rest IH]; intros removable; cbn [snapshotsRemovable].
  - emits.
  - emits; auto. apply zfsPoolVolumeSnapshotRemovable_emits. exact Hp.
Qed.

Lemma ContainerDelete_own `{Host} (depth : nat) (s : storageZfs) (c : container) :
  emitsOnly (ownChange s c) (ContainerDelete depth s c).
Proof.
  assert (Hread : forall cmd, zfsVerb cmd = Some "get" \/ zfsVerb cmd = Some "list" \/
                              zfsVerb cmd = None -> ownChange s c cmd).
  { intros cmd Hc. repeat split; intros Ev; rewrite Ev in Hc;
      destruct Hc as [E|[E|E]]; discriminate E. }
  unfold ContainerDelete, deleteDataset, destroyAndCleanup, moveToGraveyard, deleteLeftovers,
    zfsPoolVolumeRename.
  emits; auto;
    try (apply Hread; cbn; tauto);
    try (apply zfsPoolVolumeExists_emits; apply Hread; cbn; tauto);
    try (apply zfsPoolListSnapshots_emits; apply Hread; cbn; tauto);
    try (apply zfsPoolVolumeGet_emits; apply Hread; cbn; tauto);
    try (apply zfsPoolVolumeDestroy_own; tauto);
    try apply zfsPoolVolumeCleanup_own.
  - apply snapshotsRemovable_emits. intros snap. apply Hread. cbn. tauto.
  - apply zfsPoolVolumeSet_emits. repeat split; try discriminate.
  - apply zfsPoolVolumeRenameLoop_emits; try (apply Hread; cbn; tauto).
    repeat split; try discriminate. intros _. eexists. reflexivity.
Qed.

(** X26.  [ContainerDelete] changes nothing but its own.  Whatever ZFS
    answers and however deep the clean-up of clone origins goes: every
    [zfs destroy] it runs is on [containers/<name>], on [snapshots/<name>],
    or on a path the graveyard rule allows ([deleted/...], or a [@copy-]
    snapshot under [containers]); every [zfs set] is [mountpoint=none] on
    [containers/<name>]; every [zfs rename] moves [containers/<name>] to
    [deleted/containers/<uuid>]. *)
Theorem ContainerDelete_changes_only_own `{Host} (depth : nat) (s : storageZfs) (c : container)
    (o : Oracle) (h : Trace) (cmd : Cmd) :
  In cmd (map fst (snd (ContainerDelete depth s c o h))) ->
  ownChange s c cmd.
Proof.
  intros Hin. exact (emitsOnly_In _ _ o h cmd (ContainerDelete_own depth s c) Hin).
Qed.

Lemma ContainerDelete_changes_only_own_witness :
  ownChange (H := lxdHost) (emptyZfs "p") c1
    (renameCmd (emptyZfs "p") "containers/c1" "deleted/containers/6ba7b810").
Proof.
  apply (ContainerDelete_changes_only_own (H := lxdHost) 3 (emptyZfs "p") c1 clonedOracle []).
  vm_compute. tauto.
Defined.

(** ** Starting and stopping a snapshot *)

Lemma HasPrefix_app (a b : string) : HasPrefix (a ++ b) a = true.
Proof.
  unfold HasPrefix. induction a as [|c a IH]; [reflexivity|].
  cbn [append prefixb]. rewrite Ascii.eqb_refl, IH. reflexivity.
Qed.

Lemma zfsPoolVolumeClone_below `{Host} (s : storageZfs) (source name dest mountpoint : string) :
  emitsOnly (fun cmd => zfsVerb cmd = Some "clone" ->
               exists src d mnt, cmd = cloneCmd s src name d mnt /\ HasPrefix d dest = true)
            (zfsPoolVolumeClone s source name dest mountpoint).
Proof.
  assert (Hsub : forall subvols,
            emitsOnly (fun cmd => zfsVerb cmd = Some "clone" ->
                         exists src d mnt, cmd = cloneCmd s src name d mnt /\
                                           HasPrefix d dest = true)
                      (cloneSubvolumes s source name dest subvols)).
  { induction subvols as [|sub rest IH]; cbn [cloneSubvolumes]; emits; auto.
    - apply zfsPoolListSnapshots_emits. discriminate.
    - intros _. eexists _, _, _. split; [reflexivity | apply HasPrefix_app]. }
  unfold zfsPoolVolumeClone. emits; auto.
  - intros _. exists source, dest, mountpoint. split; [reflexivity|].
    rewrite <- (HasPrefix_app dest "") at 1. f_equal.
    clear. induction dest as [|c d IH]; [reflexivity | cbn; now rewrite <- IH].
  - unfold zfsPoolListSubvolumes. emits. discriminate.
Qed.

Lemma snoc_eq_split {A} (e1 pre post : list A) (x y : A) :
  (e1 ++ [x])%list = (pre ++ y :: post)%list ->
  (post = [] /\ pre = e1 /\ x = y) \/ In y e1.
Proof.
  destruct post as [|z post'] using rev_ind.
  - intros E. apply app_inj_tail in E as [-> ->]. auto.
  - intros E. clear IHpost'.
    change (pre ++ y :: post' ++ [z])%list with (pre ++ (y :: post') ++ [z])%list in E.
    rewrite app_assoc in E. apply app_inj_tail in E as [-> _].
    right. apply in_elt.
Qed.

(** X27.  [ContainerSnapshotStop] removes what [ContainerSnapshotStart]
    made.  For a snapshot [c/s], whatever ZFS answers: every dataset that
    [ContainerSnapshotStart] creates is a clone of a snapshot named
    [snapshot-s] placed at or below [snapshots/c/s], and the one dataset
    [ContainerSnapshotStop] runs [zfs destroy -r] on is [snapshots/c/s]; the
    directory of the snapshot is removed only as the last step, after the
    destroy returned without error. *)
Theorem ContainerSnapshotStop_undoes_Start `{Host} (s : storageZfs) (c : container)
    (cName sName : string) (o : Oracle) (h h' : Trace) :
  Name c = cName ++ snapshotDelimiter ++ sName ->
  Contains cName snapshotDelimiter = false ->
  let destFs := "snapshots/" ++ cName ++ "/" ++ sName in
  (forall cmd, In cmd (map fst (snd (ContainerSnapshotStart s c o h))) ->
     zfsVerb cmd = Some "clone" ->
     exists src d mnt, cmd = cloneCmd s src ("snapshot-" ++ sName) d mnt /\
                       HasPrefix d destFs = true) /\
  (forall cmd, In cmd (map fst (snd (ContainerSnapshotStop s c o h'))) ->
     zfsVerb cmd = Some "destroy" -> cmd = CombinedOutput "zfs" (destroyArgs s destFs)) /\
  (forall pre r post,
     snd (ContainerSnapshotStop s c o h') = (pre ++ (RemoveAll (Path c), r) :: post)%list ->
     post = [] /\ zfsPoolVolumeDestroy s destFs o h' = (Ret None, pre)).
Proof.
  intros Hn Hc destFs.
  assert (Hf : SplitN2 (Name c) snapshotDelimiter = [cName; sName])
    by (rewrite Hn; exact (SplitN2_snapshot_name _ _ Hc)).
  split; [|split].
  - intros cmd Hin. revert Hin. unfold ContainerSnapshotStart. rewrite Hf. cbn [List.length Nat.ltb Nat.leb].
    intros Hin.
    eapply (emitsOnly_In
             (fun cmd => zfsVerb cmd = Some "clone" ->
                exists src d mnt, cmd = cloneCmd s src ("snapshot-" ++ sName) d mnt /\
                                  HasPrefix d destFs = true) _ o h cmd); [|exact Hin].
    emits. apply zfsPoolVolumeClone_below.
  - intros cmd Hin. revert Hin. unfold ContainerSnapshotStop. rewrite Hf. cbn [List.length Nat.ltb Nat.leb].
    intros Hin.
    eapply (emitsOnly_In
             (fun cmd => zfsVerb cmd = Some "destroy" ->
                cmd = CombinedOutput "zfs" (destroyArgs s destFs)) _ o h' cmd); [|exact Hin].
    emits; try discriminate.
    apply zfsPoolVolumeDestroy_emits; intros; try discriminate. reflexivity.
  - intros pre r post. unfold ContainerSnapshotStop. rewrite Hf. cbn [List.length Nat.ltb Nat.leb].
    rewrite orReturn_unfold.
    pose proof (zfsPoolVolumeDestroy_emits (fun cmd => cmd <> RemoveAll (Path c)) s destFs) as Hd.
    specialize (Hd ltac:(discriminate) ltac:(discriminate) ltac:(discriminate)
                   ltac:(discriminate) ltac:(discriminate) o h').
    fold destFs.
    destruct (zfsPoolVolumeDestroy s destFs o h') as [[[e|]| |] e1]; cbn [snd] in *.
    all: try (intros E; exfalso; rewrite E, Forall_forall in Hd;
              apply (Hd (RemoveAll (Path c), r)); [apply in_elt | reflexivity]).
    mrun. set (rr := o _ (RemoveAll (Path c))).
    assert (Et : snd ((if ok rr then ret None else ret (Some (out rr))) o
                        ((h' ++ e1) ++ [(RemoveAll (Path c), rr)])%list) = [])
      by (destruct (ok rr); reflexivity).
    destruct ((if ok rr then ret None else ret (Some (out rr))) o _) as [r0 e2].
    cbn [snd] in Et. subst e2. cbn [snd app]. intros E.
    apply snoc_eq_split in E as [(-> & -> & _) | Hin]; [auto|].
    exfalso. rewrite Forall_forall in Hd. exact (Hd _ Hin eq_refl).
Qed.

Lemma ContainerSnapshotStop_undoes_Start_witness :
  let s := emptyZfs "p" in
  let destFs := "snapshots/" ++ "c1" ++ "/" ++ "s1" in
  (forall cmd, In cmd (map fst (snd (ContainerSnapshotStart (H := lxdHost) s c1s1 yesOracle []))) ->
     zfsVerb cmd = Some "clone" ->
     exists src d mnt, cmd = cloneCmd s src ("snapshot-" ++ "s1") d mnt /\
                       HasPrefix d destFs = true) /\
  (forall cmd, In cmd (map fst (snd (ContainerSnapshotStop (H := lxdHost) s c1s1 yesOracle []))) ->
     zfsVerb cmd = Some "destroy" -> cmd = CombinedOutput "zfs" (destroyArgs s destFs)) /\
  (forall pre r post,
     snd (ContainerSnapshotStop (H := lxdHost) s c1s1 yesOracle []) =
       (pre ++ (RemoveAll (Path c1s1), r) :: post)%list ->
     post = [] /\ zfsPoolVolumeDestroy s destFs yesOracle [] = (Ret None, pre)).
Proof.
  apply (ContainerSnapshotStop_undoes_Start (H := lxdHost) (emptyZfs "p") c1s1 "c1" "s1"
           yesOracle [] []); reflexivity.
Defined.
